(** * giwa-bot: the transaction orchestration engine of [bot.py]

    A shallow embedding of the engine's functions (fee quotes, gas
    estimation, submission with one underpriced retry, receipt and credit
    polling, ERC-20 balance and allowance helpers, token withdrawal) and the
    properties its specification states about them; then the readers of the
    key file, the callers of the engine ([claim_test_tokens_generic],
    [l2_self_transfer_eth]) and the countdown, with further properties of
    the code.

    The node, the clock and the web3 library are the outside world: they are
    an interface ([Web3]) over an abstract world state, and every function of
    the engine is a computation over that state which also yields the trace
    of the requests it made and the answers it got.

    What the functions print is left out, and with it the amounts they
    format for display ([balance / (10 ** decimals)], [format_eth]): these
    are computed from wei and token amounts of the node's types ([uint256],
    [uint8]), on which the formatting does not raise. *)

From Stdlib Require Import ZArith QArith Lia Lqa Floats.SpecFloat.
From stdpp Require Import base list strings gmap.

Local Open Scope Z_scope.

(** * Python floats

    [bot.py] multiplies integers by the literals [1.15], [1.25], [2.5] and
    [4.0] and truncates the result with [int(...)].  A finite binary64 value
    is a dyadic number [m * 2^e]; an operation computes the exact dyadic
    result and rounds it to 53 significant bits (exponent at least -1074),
    ties to even. *)
Module PyFloat.

Inductive pyfloat :=
  | Fin (m e : Z)          (* the value m * 2^e *)
  | Inf (negative : bool).

(** Round [m / 2^s] to the nearest integer, ties to even. *)
Definition rne (m s : Z) : Z :=
  let q := m / 2 ^ s in
  let r := m mod 2 ^ s in
  if 2 * r <? 2 ^ s then q
  else if 2 ^ s <? 2 * r then q + 1
  else if Z.even q then q else q + 1.

(** Number of low bits that binary64 cannot keep of [m * 2^e]. *)
Definition excess (m e : Z) : Z :=
  Z.max (Z.log2 (Z.abs m) - 52) (- 1074 - e).

Definition round (m e : Z) : pyfloat :=
  let s := excess m e in
  if s <=? 0 then Fin m e
  else
    let q := Z.sgn m * rne (Z.abs m) s in
    if 1024 <=? Z.log2 (Z.abs q) + (e + s) then Inf (m <? 0)
    else Fin q (e + s).

(** [float(z)] also [z * 1.25] makes of the integer [z]: a Python integer
    too large for a float raises [OverflowError]. *)
Definition of_int (z : Z) : option pyfloat :=
  match round z 0 with
  | Fin m e => Some (Fin m e)
  | Inf _ => None
  end.

Definition mul (x y : pyfloat) : pyfloat :=
  match x, y with
  | Fin m1 e1, Fin m2 e2 => round (m1 * m2) (e1 + e2)
  | Fin m _, Inf b | Inf b, Fin m _ => Inf (xorb b (m <? 0))
  | Inf a, Inf b => Inf (xorb a b)
  end.

Definition add (x y : pyfloat) : pyfloat :=
  match x, y with
  | Fin m1 e1, Fin m2 e2 =>
      let e := Z.min e1 e2 in
      round (m1 * 2 ^ (e1 - e) + m2 * 2 ^ (e2 - e)) e
  | Inf b, _ | _, Inf b => Inf b
  end.

(** [int(x)]: truncation towards zero; [int(inf)] raises [OverflowError]. *)
Definition to_int (x : pyfloat) : option Z :=
  match x with
  | Fin m e => Some (if 0 <=? e then m * 2 ^ e else Z.quot m (2 ^ (- e)))
  | Inf _ => None
  end.

(** [x] holds a whole number. *)
Definition is_whole (x : pyfloat) : bool :=
  match x with
  | Fin m e => (0 <=? e) || (m mod 2 ^ (- e) =? 0)
  | Inf _ => false
  end.

(** The literals of [bot.py]. *)
Definition f1_15 : pyfloat := Fin 2589569785738035 (-51).
Definition f1_25 : pyfloat := Fin 5 (-2).
Definition f2_0 : pyfloat := Fin 2 0.
Definition f2_5 : pyfloat := Fin 5 (-1).
Definition f4_0 : pyfloat := Fin 4 0.
Definition f8_0 : pyfloat := Fin 8 0.

(** A float of the Standard Library's IEEE 754 specification, for
    comparison. *)
Definition of_spec (x : spec_float) : option pyfloat :=
  match x with
  | S754_zero _ => Some (Fin 0 0)
  | S754_infinity b => Some (Inf b)
  | S754_nan => None
  | S754_finite s m e => Some (Fin (if s then Z.neg m else Z.pos m) e)
  end.

End PyFloat.

(** * Data model *)

Definition address := string.
Definition txhash := string.
Definition rawtx := string.

(** A Python exception: its class and [str(e)]. *)
Record exn := Exception { exn_class : string; exn_msg : string }.

Definition RuntimeError (msg : string) : exn := Exception "RuntimeError" msg.
Definition TypeError (msg : string) : exn := Exception "TypeError" msg.
Definition KeyError (msg : string) : exn := Exception "KeyError" msg.
Definition ValueError (msg : string) : exn := Exception "ValueError" msg.
Definition OverflowError (msg : string) : exn := Exception "OverflowError" msg.

(** The values a transaction dictionary ([Dict[str, Any]]) holds. *)
Inductive pyval :=
  | VNone
  | VInt (z : Z)
  | VStr (s : string)
  | VBytes (b : string).

Abbreviation tx_dict := (gmap string pyval).

(** Python truthiness and [len]. *)
Definition truthy (v : pyval) : bool :=
  match v with
  | VNone => false
  | VInt z => negb (z =? 0)
  | VStr s | VBytes s => negb (String.length s =? 0)%nat
  end.

Definition py_len (v : pyval) : exn + Z :=
  match v with
  | VStr s | VBytes s => inr (Z.of_nat (String.length s))
  | VNone | VInt _ => inl (TypeError "object has no len()")
  end.

(** [tx.setdefault(k, v)] *)
Definition setdefault (k : string) (v : pyval) (tx : gmap string pyval) : gmap string pyval :=
  match tx !! k with
  | Some _ => tx
  | None => <[k := v]> tx
  end.

(** [tx.get(k, d)] *)
Definition dict_get (k : string) (d : pyval) (tx : gmap string pyval) : pyval :=
  default d (tx !! k).

(** [needle in s] *)
Fixpoint contains (needle s : string) : bool :=
  String.prefix needle s ||
  match s with
  | EmptyString => false
  | String _ s' => contains needle s'
  end.

Record receipt := Receipt { status : Z; gasUsed : Z }.

(** The dataclass [Chain]; [w3] names the connected client and [account] is
    the signing account, known by its address. *)
Record Chain := mkChain {
  name : string;
  rpc : string;
  w3 : nat;
  account : address;
  nonce : Z
}.

(** Read-only contract functions called through [.call()]. *)
Inductive view :=
  | Decimals
  | BalanceOf (owner : address)
  | Allowance (owner spender : address).

(** Contract functions turned into a transaction by [.build_transaction]. *)
Inductive fncall :=
  | ClaimFaucet
  | Approve (spender : address) (value : Z)
  | DepositERC20To (l1_token l2_token to : address) (amount l2_gas : Z) (data : string)
  | Withdraw (l2_token : address) (amount min_gas_limit : Z) (extra_data : string).

(** Every request to the outside world, with the answer it got. *)
Inductive event :=
  | EvFeeHistory (w : nat) (r : exn + Z)
  | EvChainId (w : nat) (r : exn + Z)
  | EvEstimateGas (w : nat) (tx : gmap string pyval) (r : exn + Z)
  | EvGetBalance (w : nat) (a : address) (r : exn + Z)
  | EvGetTransactionCount (w : nat) (a : address) (r : exn + Z)
  | EvGetReceipt (w : nat) (h : txhash) (r : exn + option receipt)
  | EvSign (a : address) (tx : gmap string pyval) (r : exn + rawtx)
  | EvSend (w : nat) (raw : rawtx) (r : exn + txhash)
  | EvCall (w : nat) (c : address) (f : view) (r : exn + Z)
  | EvBuild (w : nat) (c : address) (f : fncall) (params : gmap string pyval)
            (r : exn + gmap string pyval)
  | EvTime (t : Q)
  | EvSleep (d : Q).

(** ** The outside world

    [W] is the state of everything outside the process: both nodes, the
    chains behind them and the clock.  Each request takes the world to a new
    state and either raises or returns. *)
Class Web3 (W : Type) := {
  (** [w3.eth.fee_history(1, "latest")["baseFeePerGas"][-1]] *)
  fee_history_base : nat → W → (exn + Z) * W;
  (** [w3.eth.chain_id] *)
  chain_id : nat → W → (exn + Z) * W;
  (** [w3.eth.estimate_gas(tx)] *)
  estimate_gas : nat → gmap string pyval → W → (exn + Z) * W;
  (** [w3.eth.get_balance(addr)] *)
  get_balance : nat → address → W → (exn + Z) * W;
  (** [w3.eth.get_transaction_count(addr, "pending")] *)
  get_transaction_count : nat → address → W → (exn + Z) * W;
  (** [w3.eth.get_transaction_receipt(tx_hash)]: raises, or returns nothing,
      or returns the receipt *)
  get_transaction_receipt : nat → txhash → W → (exn + option receipt) * W;
  (** [account.sign_transaction(tx).rawTransaction]: local, no world *)
  sign_transaction : address → gmap string pyval → exn + rawtx;
  (** [w3.eth.send_raw_transaction(raw).hex()] *)
  send_raw_transaction : nat → rawtx → W → (exn + txhash) * W;
  (** [w3.eth.contract(address=c, abi=ERC20_ABI).functions.f(..).call()] *)
  contract_call : nat → address → view → W → (exn + Z) * W;
  (** [w3.eth.contract(address=c, ..).functions.f(..).build_transaction(params)] *)
  build_transaction :
    nat → address → fncall → gmap string pyval → W → (exn + gmap string pyval) * W;
  (** [time.time()] and [time.sleep(d)] *)
  time_time : W → Q * W;
  time_sleep : Q → W → W;
  (** [Web3.to_wei(x, "gwei")] for a float [x] that is not a whole number
      below 2^53: the conversion then goes through the shortest decimal
      representation of [x], which is left to the library. *)
  to_wei_gwei_decimal : PyFloat.pyfloat → exn + Z
}.

(** ** Computations

    A computation runs on the world and the store of [Chain] objects.  It
    returns, raises, or runs out of fuel (a loop of the model cut short: not
    an outcome of the program), and leaves the trace of the requests it made
    to the outside world, in order. *)
Inductive res (A : Type) :=
  | Ok (a : A)
  | Exn (e : exn)
  | OutOfFuel.
Arguments Ok {A} a.
Arguments Exn {A} e.
Arguments OutOfFuel {A}.

Record state (W : Type) := mkState {
  world : W;
  chains : gmap nat Chain;
  next_chain : nat
}.
Arguments mkState {W}.
Arguments world {W}.
Arguments chains {W}.
Arguments next_chain {W}.

Record out (W A : Type) := mkOut {
  result : res A;
  final : state W;
  trace : list event
}.
Arguments mkOut {W A}.
Arguments result {W A}.
Arguments final {W A}.
Arguments trace {W A}.

Definition M (W A : Type) : Type := state W → out W A.

Definition ret {W A} (a : A) : M W A := fun st => mkOut (Ok a) st [].

Definition raise {W A} (e : exn) : M W A := fun st => mkOut (Exn e) st [].

Definition out_of_fuel {W A} : M W A := fun st => mkOut OutOfFuel st [].

Definition bind {W A B} (m : M W A) (k : A → M W B) : M W B :=
  fun st =>
    let o := m st in
    match result o with
    | Ok a =>
        let o' := k a (final o) in
        mkOut (result o') (final o') (trace o ++ trace o')
    | Exn e => mkOut (Exn e) (final o) (trace o)
    | OutOfFuel => mkOut OutOfFuel (final o) (trace o)
    end.

(** [try: m / except Exception as e: h e] *)
Definition try_except {W A} (m : M W A) (h : exn → M W A) : M W A :=
  fun st =>
    let o := m st in
    match result o with
    | Exn e =>
        let o' := h e (final o) in
        mkOut (result o') (final o') (trace o ++ trace o')
    | _ => o
    end.

Definition lift {W A} (r : exn + A) : M W A :=
  match r with
  | inl e => raise e
  | inr a => ret a
  end.

Declare Scope py_scope.
Delimit Scope py_scope with py.
Notation "x <- m ;; k" := (bind m (fun x => k))
  (at level 100, m at next level, right associativity) : py_scope.
Notation "m ;;; k" := (bind m (fun _ => k))
  (at level 100, right associativity) : py_scope.

Local Open Scope py_scope.

(** * Configuration constants of [bot.py] *)

Definition ADDR_L1_STANDARD_BRIDGE : address := "0x77b2ffc0F57598cAe1DB76cb398059cF5d10A7E7".
Definition ADDR_L2_STANDARD_BRIDGE : address := "0x4200000000000000000000000000000000000010".
Definition ADDR_L1_ERC20 : address := "0x50B1eF6e0fe05a32F3E63F02f3c0151BD9004C7c".
Definition DEFAULT_L2_GAS_LIMIT_MSG : Z := 200000.
Definition TX_WAIT_TIMEOUT : Z := 240.
Definition TX_POLL_INTERVAL : Q := inject_Z 2.
Definition REPLACE_BUMP : PyFloat.pyfloat := PyFloat.f1_25.

(** [Web3.to_wei(2, "gwei")], [Web3.to_wei("0.00015", "ether")],
    [Web3.to_wei("0.01", "ether")] and [Web3.to_wei("1000000", "ether")] *)
Definition two_gwei : Z := 2 * 10 ^ 9.
Definition default_min_delta_wei : Z := 15 * 10 ^ 13.
Definition recovery_threshold_wei : Z := 10 ^ 16.
Definition approve_floor_wei : Z := 10 ^ 6 * 10 ^ 18.

Definition Qltb (x y : Q) : bool := negb (Qle_bool y x).

(** * The engine *)
Section Engine.
Context {W : Type} `{!Web3 W}.

(** ** Requests, each traced with its answer *)

Definition request {A} (op : W → (exn + A) * W) (ev : (exn + A) → event) : M W A :=
  fun st =>
    let '(r, w) := op (world st) in
    let st' := mkState w (chains st) (next_chain st) in
    match r with
    | inl e => mkOut (Exn e) st' [ev r]
    | inr a => mkOut (Ok a) st' [ev r]
    end.

Definition rpc_fee_history (n : nat) : M W Z :=
  request (fee_history_base n) (EvFeeHistory n).
Definition rpc_chain_id (n : nat) : M W Z :=
  request (chain_id n) (EvChainId n).
Definition rpc_estimate_gas (n : nat) (tx : tx_dict) : M W Z :=
  request (estimate_gas n tx) (EvEstimateGas n tx).
Definition rpc_get_balance (n : nat) (a : address) : M W Z :=
  request (get_balance n a) (EvGetBalance n a).
Definition rpc_get_transaction_count (n : nat) (a : address) : M W Z :=
  request (get_transaction_count n a) (EvGetTransactionCount n a).
Definition rpc_get_transaction_receipt (n : nat) (h : txhash) : M W (option receipt) :=
  request (get_transaction_receipt n h) (EvGetReceipt n h).
Definition rpc_send_raw_transaction (n : nat) (raw : rawtx) : M W txhash :=
  request (send_raw_transaction n raw) (EvSend n raw).
Definition rpc_call (n : nat) (c : address) (f : view) : M W Z :=
  request (contract_call n c f) (EvCall n c f).
Definition rpc_build_transaction (n : nat) (c : address) (f : fncall) (params : tx_dict)
  : M W tx_dict :=
  request (build_transaction n c f params) (EvBuild n c f params).
Definition sign (a : address) (tx : tx_dict) : M W rawtx :=
  request (fun w => (sign_transaction a tx, w)) (EvSign a tx).

Definition now : M W Q :=
  fun st =>
    let '(t, w) := time_time (world st) in
    mkOut (Ok t) (mkState w (chains st) (next_chain st)) [EvTime t].

Definition sleep (d : Q) : M W unit :=
  fun st =>
    mkOut (Ok tt) (mkState (time_sleep d (world st)) (chains st) (next_chain st)) [EvSleep d].

(** ** The store of [Chain] objects *)

Definition get_chain (c : nat) : M W Chain :=
  fun st =>
    match chains st !! c with
    | Some ch => mkOut (Ok ch) st []
    | None => mkOut (Exn (RuntimeError "no such Chain object")) st []
    end.

(** [Chain(name=.., rpc=.., w3=.., account=.., nonce=..)] *)
Definition new_chain (ch : Chain) : M W nat :=
  fun st =>
    mkOut (Ok (next_chain st))
      (mkState (world st) (<[next_chain st := ch]> (chains st)) (S (next_chain st))) [].

(** [chain.nonce += 1] *)
Definition bump_nonce (ch : Chain) : Chain :=
  mkChain (name ch) (rpc ch) (w3 ch) (account ch) (nonce ch + 1).

Definition incr_nonce (c : nat) : M W unit :=
  fun st =>
    match chains st !! c with
    | Some ch =>
        mkOut (Ok tt)
          (mkState (world st) (<[c := bump_nonce ch]> (chains st)) (next_chain st)) []
    | None => mkOut (Exn (RuntimeError "no such Chain object")) st []
    end.

(** ** Arithmetic on dictionary values *)

Definition as_int (v : pyval) : M W Z :=
  match v with
  | VInt z => ret z
  | _ => raise (TypeError "unsupported operand type(s)")
  end.

(** [tx[k]] *)
Definition dict_item (k : string) (tx : tx_dict) : M W pyval :=
  match tx !! k with
  | Some v => ret v
  | None => raise (KeyError k)
  end.

Definition float_of_int (z : Z) : M W PyFloat.pyfloat :=
  match PyFloat.of_int z with
  | Some f => ret f
  | None => raise (OverflowError "int too large to convert to float")
  end.

Definition int_of_float (f : PyFloat.pyfloat) : M W Z :=
  match PyFloat.to_int f with
  | Some z => ret z
  | None => raise (OverflowError "cannot convert float infinity to integer")
  end.

(** [int(z * f)] for an integer [z] and a float [f] *)
Definition int_mul_float (z : Z) (f : PyFloat.pyfloat) : M W Z :=
  x <- float_of_int z ;;
  int_of_float (PyFloat.mul x f).

(** [Web3.to_wei(x, "gwei")] for a float [x] *)
Definition to_wei_gwei (x : PyFloat.pyfloat) : M W Z :=
  match x with
  | PyFloat.Fin m e =>
      if PyFloat.is_whole x && (Z.abs (default 0 (PyFloat.to_int x)) <? 2 ^ 53) then
        let n := default 0 (PyFloat.to_int x) in
        if n <? 0 then raise (ValueError "value must be between 0 and 2**256 - 1")
        else ret (n * 10 ^ 9)
      else lift (to_wei_gwei_decimal x)
  | PyFloat.Inf _ => lift (to_wei_gwei_decimal x)
  end.

(** ** FeePolicy *)

Definition fee_profile (chain_name : string) : PyFloat.pyfloat * PyFloat.pyfloat :=
  if String.prefix "GIWA" chain_name then (PyFloat.f2_0, PyFloat.f2_5)
  else (PyFloat.f8_0, PyFloat.f4_0).

(** [max_fee = int(base * max_multiplier + priority * 2)] *)
Definition get_eip1559_fees (n : nat) (tip_gwei max_multiplier : PyFloat.pyfloat)
  : M W (Z * Z * Z) :=
  base <- try_except (rpc_fee_history n) (fun _ => ret two_gwei) ;;
  priority <- to_wei_gwei tip_gwei ;;
  b <- float_of_int base ;;
  p2 <- float_of_int (priority * 2) ;;
  max_fee <- int_of_float (PyFloat.add (PyFloat.mul b max_multiplier) p2) ;;
  ret (base, priority, max_fee).

(** ** ReceiptWaiter *)

(** One turn of [while time.time() - start < timeout]. *)
Fixpoint wait_receipt_loop (fuel : nat) (n : nat) (tx_hash : txhash) (timeout : Z)
    (start : Q) (last_err : option exn) : M W (option receipt) :=
  match fuel with
  | O => out_of_fuel
  | S fuel' =>
      t <- now ;;
      if Qltb (t - start) (inject_Z timeout) then
        polled <- try_except
                    (rcpt <- rpc_get_transaction_receipt n tx_hash ;; ret (rcpt, last_err))
                    (fun e => ret (None, Some e)) ;;
        match polled with
        | (Some rcpt, _) => ret (Some rcpt)
        | (None, last_err') =>
            _ <- now ;;
            sleep TX_POLL_INTERVAL ;;;
            wait_receipt_loop fuel' n tx_hash timeout start last_err'
        end
      else ret None
  end.

Definition wait_receipt_with_progress (fuel : nat) (n : nat) (tx_hash : txhash)
    (timeout : Z) : M W (option receipt) :=
  start <- now ;;
  wait_receipt_loop fuel n tx_hash timeout start None.

(** [not rcpt or rcpt["status"] != 1] is the negation of this. *)
Definition receipt_ok (rcpt : option receipt) : bool :=
  match rcpt with
  | Some r => status r =? 1
  | None => false
  end.

(** ** GasEstimator *)

Definition estimate_and_cap_gas (n : nat) (tx : tx_dict) (default_cap : Z) : M W Z :=
  try_except
    (est <- rpc_estimate_gas n tx ;;
     gas <- int_mul_float est PyFloat.f1_15 ;;
     ret (Z.min gas default_cap))
    (fun _ => ret default_cap).

(** ** BalanceGuard *)

Definition ensure_funds_for_tx (n : nat) (addr : address) (value gas max_fee_per_gas : pyval)
  : M W bool :=
  bal <- rpc_get_balance n addr ;;
  g <- as_int gas ;;
  f <- as_int max_fee_per_gas ;;
  v <- as_int value ;;
  let worst_cost := v + g * f in
  ret (worst_cost <=? bal).

(** The [while] of [wait_for_l2_credit].  Before [return True] the function
    prints the credit with [format_eth(delta)]; this is left out like the
    rest of the display, so the model stands for the credits that can be
    displayed, those of a [uint256]: the balance read is one, and so is
    [delta] when neither [before_balance] nor [expect_min_delta_wei] is
    negative. *)
Fixpoint wait_for_l2_credit_loop (fuel : nat) (l2 : nat) (before_balance : Z)
    (expect_min_delta_wei : Z) (timeout : Z) (start : Q) : M W bool :=
  match fuel with
  | O => out_of_fuel
  | S fuel' =>
      t <- now ;;
      if Qltb (t - start) (inject_Z timeout) then
        ch <- get_chain l2 ;;
        bal <- rpc_get_balance (w3 ch) (account ch) ;;
        let delta := bal - before_balance in
        if expect_min_delta_wei <=? delta then ret true
        else
          _ <- now ;;
          sleep (inject_Z 5) ;;;
          wait_for_l2_credit_loop fuel' l2 before_balance expect_min_delta_wei timeout start
      else ret false
  end.

Definition wait_for_l2_credit (fuel : nat) (l2 : nat) (before_balance : Z)
    (expect_min_delta_wei : Z) (timeout : Z) : M W bool :=
  start <- now ;;
  wait_for_l2_credit_loop fuel l2 before_balance expect_min_delta_wei timeout start.

(** ** TransactionSubmitter *)

(** [700_000 if (tx.get("data") and len(tx.get("data")) > 2) else 300_000] *)
Definition default_gas_cap (tx : tx_dict) : M W Z :=
  let data := dict_get "data" VNone tx in
  if truthy data then
    n <- lift (py_len data) ;;
    ret (if 2 <? n then 700000 else 300000)
  else ret 300000.

(** Lines 411 to 425 of [build_and_send]: the fields the caller left out. *)
Definition fill_transaction (ch : Chain) (tx : tx_dict) : M W tx_dict :=
  let '(tip_gwei, max_mult) := fee_profile (name ch) in
  fees <- get_eip1559_fees (w3 ch) tip_gwei max_mult ;;
  let '(base, tip, max_fee) := fees in
  let tx := setdefault "maxPriorityFeePerGas" (VInt tip) tx in
  let tx := setdefault "maxFeePerGas" (VInt max_fee) tx in
  cid <- rpc_chain_id (w3 ch) ;;
  let tx := setdefault "chainId" (VInt cid) tx in
  let tx := setdefault "nonce" (VInt (nonce ch)) tx in
  match tx !! "gas" with
  | Some _ => ret tx
  | None =>
      default_cap <- default_gas_cap tx ;;
      gas <- try_except
               (let tx_for_est := <["from" := VStr (account ch)]> tx in
                estimate_and_cap_gas (w3 ch) tx_for_est default_cap)
               (fun _ => ret default_cap) ;;
      ret (<["gas" := VInt gas]> tx)
  end.

(** Lines 427 to 435: on the GIWA chain, the balance must cover the worst
    cost, if need be after waiting for a credit. *)
Definition guard_l2_balance (fuel : nat) (c : nat) (ch : Chain) (tx : tx_dict) : M W unit :=
  if String.prefix "GIWA" (name ch) then
    gas <- dict_item "gas" tx ;;
    max_fee <- dict_item "maxFeePerGas" tx ;;
    ok <- ensure_funds_for_tx (w3 ch) (account ch) (dict_get "value" (VInt 0) tx) gas max_fee ;;
    if ok then ret tt
    else
      bal_before <- rpc_get_balance (w3 ch) (account ch) ;;
      _ <- wait_for_l2_credit fuel c bal_before default_min_delta_wei 300 ;;
      ok_again <- ensure_funds_for_tx (w3 ch) (account ch)
                    (dict_get "value" (VInt 0) tx) gas max_fee ;;
      if ok_again then ret tt
      else raise (RuntimeError "L2 余额仍不足以覆盖交易成本")
  else ret tt.

(** ["underpriced" in str(e) or "replacement transaction underpriced" in str(e)] *)
Definition is_underpriced (e : exn) : bool :=
  contains "underpriced" (exn_msg e) ||
  contains "replacement transaction underpriced" (exn_msg e).

(** [tx[k] = int(tx[k] * REPLACE_BUMP)] *)
Definition bump_fee (k : string) (tx : tx_dict) : M W tx_dict :=
  v <- dict_item k tx ;;
  z <- as_int v ;;
  z' <- int_mul_float z REPLACE_BUMP ;;
  ret (<[k := VInt z']> tx).

(** Lines 437 to 453: sign, broadcast, and on an underpriced rejection bump
    both fees and broadcast once more. *)
Definition submit (c : nat) (ch : Chain) (tx : tx_dict) (allow_speedup : bool) : M W txhash :=
  signed <- sign (account ch) tx ;;
  try_except
    (h <- rpc_send_raw_transaction (w3 ch) signed ;;
     incr_nonce c ;;;
     ret h)
    (fun e =>
       if allow_speedup && is_underpriced e then
         tx <- bump_fee "maxPriorityFeePerGas" tx ;;
         tx <- bump_fee "maxFeePerGas" tx ;;
         signed <- sign (account ch) tx ;;
         h <- rpc_send_raw_transaction (w3 ch) signed ;;
         incr_nonce c ;;;
         ret h
       else raise e).

Definition build_and_send (fuel : nat) (c : nat) (tx : tx_dict) (allow_speedup : bool)
  : M W txhash :=
  ch <- get_chain c ;;
  tx <- fill_transaction ch tx ;;
  guard_l2_balance fuel c ch tx ;;;
  submit c ch tx allow_speedup.

(** ** TokenAccountant *)

Definition check_and_claim_erc20_balance (fuel : nat) (c : nat) (token_address : address)
    (required_amount : Z) (token_name : string) : M W bool :=
  ch <- get_chain c ;;
  balance <- rpc_call (w3 ch) token_address (BalanceOf (account ch)) ;;
  _ <- try_except (rpc_call (w3 ch) token_address Decimals) (fun _ => ret 18) ;;
  if required_amount <=? balance then ret true
  else
    try_except
      (tx <- rpc_build_transaction (w3 ch) token_address ClaimFaucet
               {["from" := VStr (account ch)]} ;;
       tx_hash <- build_and_send fuel c tx true ;;
       rcpt <- wait_receipt_with_progress fuel (w3 ch) tx_hash TX_WAIT_TIMEOUT ;;
       if receipt_ok rcpt then
         sleep (inject_Z 3) ;;;
         new_balance <- rpc_call (w3 ch) token_address (BalanceOf (account ch)) ;;
         if required_amount <=? new_balance then ret true
         else ret (0 <? new_balance)
       else ret false)
      (fun _ => if 0 <? balance then ret true else ret false).

Definition get_erc20_balance (c : nat) (token_address : address) : M W (Z * Z) :=
  ch <- get_chain c ;;
  balance <- rpc_call (w3 ch) token_address (BalanceOf (account ch)) ;;
  decimals <- try_except (rpc_call (w3 ch) token_address Decimals) (fun _ => ret 18) ;;
  ret (balance, decimals).

(** [max(min_amount * 10, Web3.to_wei("1000000", "ether"))] *)
Definition approve_amount (min_amount : Z) : Z :=
  Z.max (min_amount * 10) approve_floor_wei.

Definition ensure_allowance (fuel : nat) (c : nat) (token spender : address)
    (min_amount : Z) : M W (option txhash) :=
  ch <- get_chain c ;;
  current <- rpc_call (w3 ch) token (Allowance (account ch) spender) ;;
  _ <- try_except (rpc_call (w3 ch) token Decimals) (fun _ => ret 18) ;;
  if min_amount <=? current then ret None
  else
    tx <- rpc_build_transaction (w3 ch) token (Approve spender (approve_amount min_amount))
            {["from" := VStr (account ch)]} ;;
    tx_hash <- build_and_send fuel c tx true ;;
    rcpt <- wait_receipt_with_progress fuel (w3 ch) tx_hash TX_WAIT_TIMEOUT ;;
    if receipt_ok rcpt then ret (Some tx_hash)
    else raise (RuntimeError "代币授权失败").

(** ** BridgeOperations *)

Definition deposit_erc20_to_l2 (fuel : nat) (l1 l2 : nat) (l1_token l2_token : address)
    (amount : Z) : M W unit :=
  ok <- check_and_claim_erc20_balance fuel l1 l1_token amount "L1 ERC-20" ;;
  if negb ok then raise (RuntimeError "L1 ERC-20 代币余额不足且无法领取")
  else
    bal <- get_erc20_balance l1 l1_token ;;
    let actual_balance := fst bal in
    amount <- (if actual_balance <? amount then
                 if actual_balance =? 0 then raise (RuntimeError "L1 ERC-20 代币余额为零")
                 else ret actual_balance
               else ret amount) ;;
    _ <- ensure_allowance fuel l1 l1_token ADDR_L1_STANDARD_BRIDGE amount ;;
    ch1 <- get_chain l1 ;;
    ch2 <- get_chain l2 ;;
    tx <- rpc_build_transaction (w3 ch1) ADDR_L1_STANDARD_BRIDGE
            (DepositERC20To l1_token l2_token (account ch2) amount DEFAULT_L2_GAS_LIMIT_MSG "")
            {["from" := VStr (account ch1)]} ;;
    tx_hash <- build_and_send fuel l1 tx true ;;
    rcpt <- wait_receipt_with_progress fuel (w3 ch1) tx_hash TX_WAIT_TIMEOUT ;;
    if receipt_ok rcpt then
      sleep (inject_Z 2) ;;;
      _ <- get_erc20_balance l1 l1_token ;;
      ret tt
    else raise (RuntimeError "ERC-20 桥接失败").

(** The recovery attempt of [withdraw_erc20_to_l1] (the body of its [try]):
    [true] when it ends in the [return] of the function, [false] when it
    falls through to the manual-recovery advice. *)
Definition auto_acquire (fuel : nat) (l2 l1 : nat) (l2_token : address) (amount : Z)
  : M W bool :=
  ch1 <- get_chain l1 ;;
  ch2 <- get_chain l2 ;;
  l1_eth_balance <- rpc_get_balance (w3 ch1) (account ch2) ;;
  if l1_eth_balance <? recovery_threshold_wei then
    raise (RuntimeError "L1 ETH 余额不足，无法执行代币领取和桥接操作")
  else
    n1 <- rpc_get_transaction_count (w3 ch1) (account ch2) ;;
    temp_l1 <- new_chain (mkChain (name ch1) (rpc ch1) (w3 ch1) (account ch2) n1) ;;
    ok <- check_and_claim_erc20_balance fuel temp_l1 ADDR_L1_ERC20 amount "L1 ERC-20" ;;
    if ok then
      bal <- get_erc20_balance temp_l1 ADDR_L1_ERC20 ;;
      let l1_token_balance := fst bal in
      if 0 <? l1_token_balance then
        let bridge_amount := Z.min l1_token_balance amount in
        n2 <- rpc_get_transaction_count (w3 ch2) (account ch2) ;;
        temp_l2 <- new_chain (mkChain (name ch2) (rpc ch2) (w3 ch2) (account ch2) n2) ;;
        deposit_erc20_to_l2 fuel temp_l1 temp_l2 ADDR_L1_ERC20 l2_token bridge_amount ;;;
        ret true
      else ret false
    else ret false.

Definition withdraw_erc20_to_l1 (fuel : nat) (l2 l1 : nat) (l2_token : address) (amount : Z)
  : M W unit :=
  bal <- get_erc20_balance l2 l2_token ;;
  let actual_balance := fst bal in
  if actual_balance =? 0 then
    returned <- try_except (auto_acquire fuel l2 l1 l2_token amount) (fun _ => ret false) ;;
    if returned then ret tt
    else raise (RuntimeError "L2 ERC-20 代币余额不足，已尝试自动获取但失败")
  else
    let amount := if actual_balance <? amount then actual_balance else amount in
    ch2 <- get_chain l2 ;;
    tx <- rpc_build_transaction (w3 ch2) ADDR_L2_STANDARD_BRIDGE
            (Withdraw l2_token amount 0 "") {["from" := VStr (account ch2)]} ;;
    tx_hash <- build_and_send fuel l2 tx true ;;
    rcpt <- wait_receipt_with_progress fuel (w3 ch2) tx_hash TX_WAIT_TIMEOUT ;;
    if receipt_ok rcpt then
      sleep (inject_Z 2) ;;;
      _ <- get_erc20_balance l2 l2_token ;;
      ret tt
    else raise (RuntimeError "ERC-20 提现初始化失败").

End Engine.

(** * What a trace shows *)

(** The hashes of the transactions a trace broadcast with success. *)
Fixpoint broadcasts (tr : list event) : list txhash :=
  match tr with
  | [] => []
  | EvSend _ _ (inr h) :: tr' => h :: broadcasts tr'
  | _ :: tr' => broadcasts tr'
  end.

(** The transactions a trace signed, and the raw ones it sent, with the
    answers. *)
Fixpoint signings (tr : list event) : list (tx_dict * (exn + rawtx)) :=
  match tr with
  | [] => []
  | EvSign _ tx r :: tr' => (tx, r) :: signings tr'
  | _ :: tr' => signings tr'
  end.

Fixpoint sendings (tr : list event) : list (rawtx * (exn + txhash)) :=
  match tr with
  | [] => []
  | EvSend _ raw r :: tr' => (raw, r) :: sendings tr'
  | _ :: tr' => sendings tr'
  end.

(** An event that signs or broadcasts a transaction. *)
Definition submits (ev : event) : bool :=
  match ev with
  | EvSign _ _ _ | EvSend _ _ _ => true
  | _ => false
  end.

(** The contract functions a trace built a transaction for. *)
Fixpoint builds (tr : list event) : list fncall :=
  match tr with
  | [] => []
  | EvBuild _ _ f _ _ :: tr' => f :: builds tr'
  | _ :: tr' => builds tr'
  end.

(** The answers to the receipt lookups and to the balance reads of a trace. *)
Fixpoint receipt_polls (tr : list event) : list (exn + option receipt) :=
  match tr with
  | [] => []
  | EvGetReceipt _ _ r :: tr' => r :: receipt_polls tr'
  | _ :: tr' => receipt_polls tr'
  end.

Fixpoint balance_polls (tr : list event) : list (exn + Z) :=
  match tr with
  | [] => []
  | EvGetBalance _ _ r :: tr' => r :: balance_polls tr'
  | _ :: tr' => balance_polls tr'
  end.

Fixpoint clock_reads (tr : list event) : list Q :=
  match tr with
  | [] => []
  | EvTime t :: tr' => t :: clock_reads tr'
  | _ :: tr' => clock_reads tr'
  end.

(** A receipt lookup that found a receipt. *)
Definition present (r : exn + option receipt) : bool :=
  match r with
  | inr (Some _) => true
  | _ => false
  end.

(** A balance read that shows the credit: [balance - before >= delta]. *)
Definition credited (before delta : Z) (r : exn + Z) : bool :=
  match r with
  | inr b => delta <=? b - before
  | inl _ => false
  end.

Definition raised {A} (r : exn + A) : bool :=
  match r with
  | inl _ => true
  | inr _ => false
  end.

(** ** The clock

    What the polling loops need of the outside world to end: time does not
    run backwards while they wait, and [time.sleep(d)] lasts at least [d]. *)
Record ClockLaws {W : Type} `{!Web3 W} (clock : W → Q) : Prop := {
  clock_time_lo : ∀ w, (clock w <= fst (time_time w))%Q;
  clock_time_hi : ∀ w, (fst (time_time w) <= clock (snd (time_time w)))%Q;
  clock_sleep : ∀ d w, (clock w + d <= clock (time_sleep d w))%Q;
  clock_receipt : ∀ n h w, (clock w <= clock (snd (get_transaction_receipt n h w)))%Q;
  clock_balance : ∀ n a w, (clock w <= clock (snd (get_balance n a w)))%Q
}.

(** Polls that suffice for a timeout, at one poll per [interval]. *)
Definition polls_within (timeout interval : Z) : nat :=
  Z.to_nat (timeout / interval) + 2.

(** * A scripted node

    A world whose answers are scripted, for running the engine on concrete
    scenarios: each kind of request pops its next answer, and gets a fixed
    one when its script is used up.  Requests take no time; sleeping takes
    exactly the time asked for. *)
Module Mock.

Record node := mkNode {
  clock : Q;
  fee_answer : exn + Z;
  chain_id_answer : exn + Z;
  estimate_answer : exn + Z;
  txcount_answer : exn + Z;
  build_answer : exn + tx_dict;
  balance_answers : list (exn + Z);
  receipt_answers : list (exn + option receipt);
  send_answers : list (exn + txhash);
  call_answers : list (exn + Z)
}.

Definition pop {A} (d : A) (l : list A) : A * list A :=
  match l with
  | [] => (d, [])
  | x :: l' => (x, l')
  end.

Definition rejected : exn := Exception "ValueError" "nonce too low".

Definition pop_balance (w : node) : (exn + Z) * node :=
  let '(r, l) := pop (inr 0) (balance_answers w) in
  (r, mkNode (clock w) (fee_answer w) (chain_id_answer w) (estimate_answer w)
        (txcount_answer w) (build_answer w) l (receipt_answers w) (send_answers w)
        (call_answers w)).

Definition pop_receipt (w : node) : (exn + option receipt) * node :=
  let '(r, l) := pop (inr None) (receipt_answers w) in
  (r, mkNode (clock w) (fee_answer w) (chain_id_answer w) (estimate_answer w)
        (txcount_answer w) (build_answer w) (balance_answers w) l (send_answers w)
        (call_answers w)).

Definition pop_send (w : node) : (exn + txhash) * node :=
  let '(r, l) := pop (inl rejected) (send_answers w) in
  (r, mkNode (clock w) (fee_answer w) (chain_id_answer w) (estimate_answer w)
        (txcount_answer w) (build_answer w) (balance_answers w) (receipt_answers w) l
        (call_answers w)).

Definition pop_call (w : node) : (exn + Z) * node :=
  let '(r, l) := pop (inr 0) (call_answers w) in
  (r, mkNode (clock w) (fee_answer w) (chain_id_answer w) (estimate_answer w)
        (txcount_answer w) (build_answer w) (balance_answers w) (receipt_answers w)
        (send_answers w) l).

Definition advance (d : Q) (w : node) : node :=
  mkNode (Qred (clock w + d)) (fee_answer w) (chain_id_answer w) (estimate_answer w)
    (txcount_answer w) (build_answer w) (balance_answers w) (receipt_answers w)
    (send_answers w) (call_answers w).

#[export] Instance web3 : Web3 node := {
  fee_history_base _ w := (fee_answer w, w);
  chain_id _ w := (chain_id_answer w, w);
  estimate_gas _ _ w := (estimate_answer w, w);
  get_balance _ _ w := pop_balance w;
  get_transaction_count _ _ w := (txcount_answer w, w);
  get_transaction_receipt _ _ w := pop_receipt w;
  sign_transaction _ _ := inr "0xf86b";
  send_raw_transaction _ _ w := pop_send w;
  contract_call _ _ _ w := pop_call w;
  build_transaction _ _ _ _ w := (build_answer w, w);
  time_time w := (clock w, w);
  time_sleep d w := advance d w;
  to_wei_gwei_decimal _ := inl (ValueError "not a whole number of gwei")
}.

(** A quiet node: base fee 7 wei, gas estimate 50000, transactions built
    with their call data only. *)
Definition quiet : node :=
  mkNode 0 (inr 7) (inr 91342) (inr 50000) (inr 0)
    (inr {["data" := VStr "0x4e71d92d"]}) [] [] [] [].

Definition with_sends (l : list (exn + txhash)) (w : node) : node :=
  mkNode (clock w) (fee_answer w) (chain_id_answer w) (estimate_answer w)
    (txcount_answer w) (build_answer w) (balance_answers w) (receipt_answers w) l
    (call_answers w).

Definition with_receipts (l : list (exn + option receipt)) (w : node) : node :=
  mkNode (clock w) (fee_answer w) (chain_id_answer w) (estimate_answer w)
    (txcount_answer w) (build_answer w) (balance_answers w) l (send_answers w)
    (call_answers w).

Definition with_balances (l : list (exn + Z)) (w : node) : node :=
  mkNode (clock w) (fee_answer w) (chain_id_answer w) (estimate_answer w)
    (txcount_answer w) (build_answer w) l (receipt_answers w) (send_answers w)
    (call_answers w).

Definition with_calls (l : list (exn + Z)) (w : node) : node :=
  mkNode (clock w) (fee_answer w) (chain_id_answer w) (estimate_answer w)
    (txcount_answer w) (build_answer w) (balance_answers w) (receipt_answers w)
    (send_answers w) l.

Definition with_estimate (r : exn + Z) (w : node) : node :=
  mkNode (clock w) (fee_answer w) (chain_id_answer w) r
    (txcount_answer w) (build_answer w) (balance_answers w) (receipt_answers w)
    (send_answers w) (call_answers w).

(** One account with a [Chain] object on each network: handle 0 for
    Sepolia, handle 1 for GIWA. *)
Definition alice : address := "0x00000000000000000000000000000000000A11CE".
Definition sepolia : Chain := mkChain "Ethereum Sepolia" "https://l1" 0 alice 5.
Definition giwa : Chain := mkChain "GIWA Sepolia" "https://l2" 1 alice 9.

Definition start (w : node) : state node :=
  mkState w (<[1%nat := giwa]> (<[0%nat := sepolia]> ∅)) 2.

End Mock.

(** * Reasoning about computations *)
Section Post.
Context {W : Type} `{!Web3 W}.

(** What holds of the outcome, final state and trace of [m] run from [st]. *)
Definition post {A} (m : M W A) (st : state W)
    (Q : res A → state W → list event → Prop) : Prop :=
  Q (result (m st)) (final (m st)) (trace (m st)).

(** A computation that leaves the [Chain] objects alone and neither signs
    nor broadcasts. *)
Definition quiet {A} (m : M W A) : Prop :=
  ∀ st, post m st (fun _ st' tr =>
    chains st' = chains st ∧ next_chain st' = next_chain st ∧
    Forall (fun ev => submits ev = false) tr).

(** What one successful broadcast leaves behind. *)
Definition sent_once (c : nat) (ch : Chain) (st : state W) (r : res txhash) (st' : state W)
    (tr : list event) : Prop :=
  next_chain st' = next_chain st ∧
  match r with
  | Ok h => broadcasts tr = [h] ∧ chains st' = <[c := bump_nonce ch]> (chains st)
  | _ => broadcasts tr = [] ∧ chains st' = chains st
  end.

End Post.

(** The value of a float is at least the integer [y]. *)
Definition at_least (y : Z) (x : PyFloat.pyfloat) : Prop :=
  match x with
  | PyFloat.Fin m e => if 0 <=? e then y <= m * 2 ^ e else y * 2 ^ (- e) <= m
  | PyFloat.Inf negative => negative = false
  end.

(** Two finite floats with the same value. *)
Definition same_value (x y : PyFloat.pyfloat) : bool :=
  match x, y with
  | PyFloat.Fin m1 e1, PyFloat.Fin m2 e2 =>
      let e := Z.min e1 e2 in
      m1 * 2 ^ (e1 - e) =? m2 * 2 ^ (e2 - e)
  | PyFloat.Inf a, PyFloat.Inf b => Bool.eqb a b
  | _, _ => false
  end.

(** A float of the model and one of the Standard Library's binary64
    specification hold the same value. *)
Definition agree (x : option PyFloat.pyfloat) (y : spec_float) : bool :=
  match x, PyFloat.of_spec y with
  | Some x, Some y => same_value x y
  | None, Some (PyFloat.Inf _) => true
  | _, _ => false
  end.

(** The trace ends with a reading of the clock at least [timeout] after the
    first one. *)
Definition timed_out (timeout : Z) (tr : list event) : Prop :=
  ∃ start t, head (clock_reads tr) = Some start ∧ last (clock_reads tr) = Some t ∧
    (inject_Z timeout <= t - start)%Q.

Definition receipt_loop_post (n : nat) (h : txhash) (timeout : Z) (start : Q)
    (r : res (option receipt)) (tr : list event) : Prop :=
  match r with
  | Ok (Some rc) =>
      (∃ pre, receipt_polls tr = pre ++ [inr (Some rc)] ∧
              Forall (fun p => present p = false) pre) ∧
      (∃ tr', tr = tr' ++ [EvGetReceipt n h (inr (Some rc))])
  | Ok None =>
      Forall (fun p => present p = false) (receipt_polls tr) ∧
      ∃ t, last (clock_reads tr) = Some t ∧ (inject_Z timeout <= t - start)%Q
  | Exn _ => False
  | OutOfFuel => Forall (fun p => present p = false) (receipt_polls tr)
  end.

(** A balance read that answered, without the credit. *)
Definition idle (before delta : Z) (p : exn + Z) : Prop :=
  credited before delta p = false ∧ raised p = false.

Definition credit_loop_post (before delta timeout : Z) (start : Q)
    (r : res bool) (tr : list event) : Prop :=
  match r with
  | Ok true =>
      ∃ pre b, balance_polls tr = pre ++ [inr b] ∧ delta <= b - before ∧
               Forall (idle before delta) pre
  | Ok false =>
      Forall (idle before delta) (balance_polls tr) ∧
      ∃ t, last (clock_reads tr) = Some t ∧ (inject_Z timeout <= t - start)%Q
  | Exn e =>
      ∃ pre, balance_polls tr = pre ++ [inl e] ∧ Forall (idle before delta) pre
  | OutOfFuel => Forall (idle before delta) (balance_polls tr)
  end.

(** [int(base * max_multiplier + priority * 2)] as a value. *)
Definition quote_max_fee (base priority : Z) (max_multiplier : PyFloat.pyfloat) : option Z :=
  match PyFloat.of_int base, PyFloat.of_int (priority * 2) with
  | Some b, Some p2 => PyFloat.to_int (PyFloat.add (PyFloat.mul b max_multiplier) p2)
  | _, _ => None
  end.

(** [int(z * f)] as a value: nothing when Python raises [OverflowError]. *)
Definition int_times (z : Z) (f : PyFloat.pyfloat) : option Z :=
  match PyFloat.of_int z with
  | Some x => PyFloat.to_int (PyFloat.mul x f)
  | None => None
  end.

(** The transaction of the retry: both fee fields bumped, all else kept. *)
Definition bumped (tx : tx_dict) (p f : Z) : tx_dict :=
  <["maxFeePerGas" := VInt (5 * f / 4)]> (<["maxPriorityFeePerGas" := VInt (5 * p / 4)]> tx).

Section Retry.
Context {W : Type} `{!Web3 W}.

(** What a submission whose first broadcast of [tx1] was rejected as
    underpriced does next: it signs the bumped transaction and broadcasts it
    once, and that second answer is final. *)
Definition retried (c : nat) (ch : Chain) (st : state W) (tx1 : tx_dict) (p f : Z)
    (raw1 : rawtx) (e1 : exn) (r : res txhash) (st' : state W) (tr : list event) : Prop :=
  ∃ s2, signings tr = [(tx1, inr raw1); (bumped tx1 p f, s2)] ∧
    match s2 with
    | inl e => sendings tr = [(raw1, inl e1)] ∧ r = Exn e ∧ chains st' = chains st
    | inr raw2 =>
        ∃ r2, sendings tr = [(raw1, inl e1); (raw2, r2)] ∧
          match r2 with
          | inr h => r = Ok h ∧ chains st' = <[c := bump_nonce ch]> (chains st)
          | inl e2 => r = Exn e2 ∧ chains st' = chains st
          end
    end.

End Retry.

Section Unbuilt.
Context {W : Type} `{!Web3 W}.

(** A computation that builds no contract transaction. *)
Definition unbuilt {A} (m : M W A) : Prop :=
  ∀ st, post m st (fun _ _ tr => builds tr = []).

End Unbuilt.

Section Nonces.
Context {W : Type} `{!Web3 W}.

(** Handles from [next_chain] on are not in use yet. *)
Definition fresh (st : state W) : Prop :=
  ∀ c, (next_chain st <= c)%nat → chains st !! c = None.

(** Every [Chain] object of [st] is still there in [st'], for the same
    network and account, with a nonce that is not smaller. *)
Definition nonces_grow (st st' : state W) : Prop :=
  ∀ c ch, chains st !! c = Some ch →
    ∃ ch', chains st' !! c = Some ch' ∧ nonce ch <= nonce ch' ∧
           name ch' = name ch ∧ w3 ch' = w3 ch ∧ account ch' = account ch.

(** A computation that never decrements a nonce. *)
Definition keeps_nonces {A} (m : M W A) : Prop :=
  ∀ st, fresh st →
    post m st (fun _ st' _ =>
      fresh st' ∧ (next_chain st <= next_chain st')%nat ∧ nonces_grow st st').

End Nonces.

(** The default gas cap in the specification's words: 700,000 when the
    transaction carries a [data] entry longer than 2, 300,000 otherwise. *)
Definition payload_cap (tx : tx_dict) : Z :=
  match tx !! "data" with
  | Some (VStr s) | Some (VBytes s) =>
      if (2 <? String.length s)%nat then 700000 else 300000
  | _ => 300000
  end.

(** A computation that asks nothing of the outside world and leaves the
    state as it is. *)
Definition pure_comp {W A} (m : M W A) : Prop :=
  ∀ st, final (m st) = st ∧ trace (m st) = [].

(** * Scenarios on the scripted node *)
Module Scenario.
Import Mock.

(** A plain transfer from Sepolia, accepted at once. *)
Definition transfer : tx_dict := {["to" := VStr "0x000000000000000000000000000000000000dEaD"]}.
Definition accepted : out node txhash :=
  build_and_send 10 0 transfer false (start (with_sends [inr "0xh1"] quiet)).

(** On GIWA, with a base fee of 7 wei: the first broadcast is rejected as
    underpriced and the second accepted. *)
Definition underpriced : exn :=
  Exception "ValueError" "replacement transaction underpriced".
Definition retry_node : node :=
  with_sends [inl underpriced; inr "0xh2"] (with_balances [inr (10 ^ 18)] quiet).
Definition retry : out node txhash := build_and_send 10 1 transfer true (start retry_node).
Definition retry_first : tx_dict * (exn + rawtx) :=
  List.hd (∅, inl underpriced) (signings (trace retry)).

(** A credit that shows at the third balance read. *)
Definition credit : out node bool :=
  wait_for_l2_credit 62 1 100 150 300
    (start (with_balances [inr 100; inr 100; inr 300] quiet)).

(** A token balance of 5 where 10 are required; the faucet claim is
    broadcast and its receipt reports failure (status 0). *)
Definition faucet_node : node :=
  with_calls [inr 5; inr 18]
    (with_sends [inr "0xfa"] (with_receipts [inr (Some (Receipt 0 21000))] quiet)).
Definition faucet : out node bool :=
  check_and_claim_erc20_balance 200 0 ADDR_L1_ERC20 10 "L1 ERC-20" (start faucet_node).

(** The same balance; the faucet claim cannot even be broadcast. *)
Definition faucet_rejected : out node bool :=
  check_and_claim_erc20_balance 200 0 ADDR_L1_ERC20 10 "L1 ERC-20"
    (start (with_calls [inr 5; inr 18] quiet)).

(** An estimate of 1,000,000 against a cap of 300,000. *)
Definition estimate : out node Z :=
  estimate_and_cap_gas 0 ∅ 300000 (start (with_estimate (inr 1000000) quiet)).

(** Two calls of [ensure_allowance] in a row for 10 tokens.  In the first
    scenario the approval is confirmed and the token then shows it; in the
    second the approval reverts (status 0) and the allowance stays 0. *)
Definition approved_node : node :=
  with_calls [inr 0; inr 18; inr (10 ^ 24); inr 18]
    (with_sends [inr "0xa1"] (with_receipts [inr (Some (Receipt 1 46000))] quiet)).
Definition approved_first : out node (option txhash) :=
  ensure_allowance 200 0 ADDR_L1_ERC20 ADDR_L1_STANDARD_BRIDGE (10 ^ 19) (start approved_node).
Definition approved_second : out node (option txhash) :=
  ensure_allowance 200 0 ADDR_L1_ERC20 ADDR_L1_STANDARD_BRIDGE (10 ^ 19)
    (final approved_first).

Definition reverted_node : node :=
  with_calls [inr 0; inr 18; inr 0; inr 18]
    (with_sends [inr "0xa1"; inr "0xa2"]
       (with_receipts [inr (Some (Receipt 0 46000)); inr (Some (Receipt 0 46000))] quiet)).
Definition reverted_first : out node (option txhash) :=
  ensure_allowance 200 0 ADDR_L1_ERC20 ADDR_L1_STANDARD_BRIDGE (10 ^ 19) (start reverted_node).
Definition reverted_second : out node (option txhash) :=
  ensure_allowance 200 0 ADDR_L1_ERC20 ADDR_L1_STANDARD_BRIDGE (10 ^ 19)
    (final reverted_first).

(** A token withdrawal with no token on GIWA and 0.005 ether on Sepolia. *)
Definition ADDR_L2_ERC20 : address := "0xB11E5c9070a57C0c33Df102436C440a2c73a4c38".
Definition stranded : out node unit :=
  withdraw_erc20_to_l1 200 1 0 ADDR_L2_ERC20 (10 ^ 19)
    (start (with_calls [inr 0; inr 18] (with_balances [inr (5 * 10 ^ 15)] quiet))).

(** A receipt lookup that raises, then finds nothing, then finds a failed
    receipt, with a successful one scripted after it. *)
Definition not_found : exn := Exception "TransactionNotFound" "not found".
Definition receipts : out node (option receipt) :=
  wait_receipt_with_progress 122 0 "0xh" 240
    (start (with_receipts [inl not_found; inr None; inr (Some (Receipt 0 21000));
                           inr (Some (Receipt 1 21000))] quiet)).

(** A call with the empty payload ["0x"]. *)
Definition empty_call : tx_dict :=
  {["to" := VStr "0x000000000000000000000000000000000000dEaD"; "data" := VStr "0x"]}.

End Scenario.

(** * More of [bot.py]: the key file, the callers of the engine, the countdown *)

Definition FileNotFoundError (msg : string) : exn := Exception "FileNotFoundError" msg.

(** ** The key file

    [load_first_private_key] and [load_all_accounts] read the same file, one
    key a line.  [strip] is [str.strip], [from_key] is [Account.from_key]
    (the account it returns is known by its address) and [files] gives the
    lines of each file that exists. *)
Section KeyFile.
Variable strip : string → string.
Variable from_key : string → exn + address.
Variable files : string → option (list string).

(** Lines 258 to 262 (and 276 to 280): the key a line holds, if any. *)
Definition key_of_line (line : string) : option string :=
  let s := strip line in
  if (String.length s =? 0)%nat || String.prefix "#" s then None
  else Some (if String.prefix "0x" s then s else "0x" +:+ s).

(** The [for line in f] of [load_first_private_key]: it returns at the
    first key, and what [Account.from_key] raises propagates. *)
Fixpoint first_key (lines : list string) : exn + address :=
  match lines with
  | [] => inl (RuntimeError "add.txt 未读取到有效私钥")
  | line :: rest =>
      match key_of_line line with
      | None => first_key rest
      | Some s => from_key s
      end
  end.

Definition load_first_private_key (file_path : string) : exn + address :=
  match files file_path with
  | None => inl (FileNotFoundError ("未找到私钥文件 " +:+ file_path))
  | Some lines => first_key lines
  end.

(** The [for line_num, line in enumerate(f, 1)] of [load_all_accounts]: a
    key that [Account.from_key] refuses is skipped. *)
Fixpoint all_keys (lines : list string) (accts : list address) : list address :=
  match lines with
  | [] => accts
  | line :: rest =>
      match key_of_line line with
      | None => all_keys rest accts
      | Some s =>
          match from_key s with
          | inr acct => all_keys rest (accts ++ [acct])
          | inl _ => all_keys rest accts
          end
      end
  end.

Definition load_all_accounts (file_path : string) : exn + list address :=
  match files file_path with
  | None => inl (FileNotFoundError ("未找到私钥文件 " +:+ file_path))
  | Some lines =>
      let accts := all_keys lines [] in
      if (length accts <? 2)%nat then
        inl (RuntimeError "需要至少两个私钥（第一个为源账户，其余为接收账户）")
      else inr accts
  end.

(** The account a line stands for in [load_all_accounts], if any. *)
Definition account_of_line (line : string) : option address :=
  match key_of_line line with
  | Some s => match from_key s with inr acct => Some acct | inl _ => None end
  | None => None
  end.

End KeyFile.

(** ** Callers of the engine *)
Section Callers.
Context {W : Type} `{!Web3 W}.

(** [explorer_tx] and [network_name] are only printed. *)
Definition claim_test_tokens_generic (fuel : nat) (c : nat) (token_addr : address)
    (explorer_tx network_name : string) : M W unit :=
  _ <- get_erc20_balance c token_addr ;;
  try_except
    (ch <- get_chain c ;;
     tx <- rpc_build_transaction (w3 ch) token_addr ClaimFaucet
             {["from" := VStr (account ch)]} ;;
     tx_hash <- build_and_send fuel c tx true ;;
     rcpt <- wait_receipt_with_progress fuel (w3 ch) tx_hash TX_WAIT_TIMEOUT ;;
     if receipt_ok rcpt then
       sleep (inject_Z 3) ;;;
       _ <- get_erc20_balance c token_addr ;;
       ret tt
     else raise (RuntimeError "代币领取失败"))
    (fun _ => ret tt).

(** The transaction [{"from": .., "to": .., "value": amount_wei}] of
    [l2_self_transfer_eth].  The function first prints [amount_wei] with
    [format_eth]: this is left out like the rest of the display, so the
    model stands for the amounts that can be displayed, those of a
    [uint256]. *)
Definition self_transfer (a : address) (amount_wei : Z) : tx_dict :=
  <["value" := VInt amount_wei]> (<["to" := VStr a]> {["from" := VStr a]}).

Definition l2_self_transfer_eth (fuel : nat) (l2 : nat) (amount_wei : Z) : M W unit :=
  ch <- get_chain l2 ;;
  tx_hash <- build_and_send fuel l2 (self_transfer (account ch) amount_wei) true ;;
  rcpt <- wait_receipt_with_progress fuel (w3 ch) tx_hash TX_WAIT_TIMEOUT ;;
  if receipt_ok rcpt then ret tt
  else raise (RuntimeError "ETH 自转失败").

(** [for remaining in range(total_seconds, 0, -1): ...; time.sleep(1)]: one
    turn for each value of [remaining], from [total_seconds] down to 1. *)
Fixpoint countdown_loop (remaining : nat) : M W unit :=
  match remaining with
  | O => ret tt
  | S remaining' => sleep (inject_Z 1) ;;; countdown_loop remaining'
  end.

Definition countdown_24_hours : M W unit :=
  countdown_loop (Z.to_nat (24 * 60 * 60)).

End Callers.

(** The hours, minutes and seconds [countdown_24_hours] prints for
    [remaining]. *)
Definition countdown_fields (remaining : Z) : Z * Z * Z :=
  (remaining / 3600, (remaining mod 3600) / 60, remaining mod 60).

(** ** What computations leave alone

    A relation between the state before, the state after and the trace of a
    computation that holds of doing nothing and of doing one thing after
    another can be checked part by part. *)
Class Effect {W : Type} (E : state W → state W → list event → Prop) : Prop := {
  effect_nil : ∀ s, E s s [];
  effect_app : ∀ s1 s2 s3 t1 t2, E s1 s2 t1 → E s2 s3 t2 → E s1 s3 (t1 ++ t2)
}.

Section Frames.
Context {W : Type} `{!Web3 W}.

Definition within (E : state W → state W → list event → Prop) {A} (m : M W A) : Prop :=
  ∀ st, E st (final (m st)) (trace (m st)).

(** [E] holds of a request that leaves the [Chain] objects alone. *)
Definition allows (E : state W → state W → list event → Prop) (ev : event) : Prop :=
  ∀ s w, E s (mkState w (chains s) (next_chain s)) [ev].

(** No [Chain] object but that of handle [c] is updated, and none is made. *)
Definition framed (c : nat) (s s' : state W) (t : list event) : Prop :=
  next_chain s' = next_chain s ∧ ∀ c', c' ≠ c → chains s' !! c' = chains s !! c'.

(** Every request is one of [P]. *)
Definition emitting (P : event → Prop) (s s' : state W) (t : list event) : Prop :=
  Forall P t.

(** Every contract transaction built is one of [S]. *)
Definition building (S : fncall → Prop) (s s' : state W) (t : list event) : Prop :=
  Forall S (builds t).

(** What is known after [build_and_send] on handle [c], whether it
    broadcast or not. *)
Definition sent_or_not (c : nat) (ch : Chain) (st st' : state W) (tr : list event) : Prop :=
  (broadcasts tr = [] ∧ chains st' = chains st) ∨
  (∃ h, broadcasts tr = [h] ∧ chains st' = <[c := bump_nonce ch]> (chains st)).

(** The computation returns or raises: no loop of the model is cut short. *)
Definition ends {A} (m : M W A) : Prop :=
  ∀ st, result (m st) ≠ OutOfFuel.

End Frames.

(** A request that is no balance read. *)
Definition no_balance_read (ev : event) : Prop :=
  match ev with
  | EvGetBalance _ _ _ => False
  | _ => True
  end.

(** A request that is no gas estimation. *)
Definition no_estimate (ev : event) : Prop :=
  match ev with
  | EvEstimateGas _ _ _ => False
  | _ => True
  end.

(** ** What the bridge functions ask for *)

(** A contract transaction of a deposit of at most [amount] of [l1_token]
    towards [l2_token]: a faucet claim, an approval of the L1 bridge for
    1,000,000 tokens or more, or the deposit itself. *)
Definition deposit_call (l1_token l2_token : address) (amount : Z) (f : fncall) : Prop :=
  match f with
  | ClaimFaucet => True
  | Approve spender value => spender = ADDR_L1_STANDARD_BRIDGE ∧ approve_floor_wei <= value
  | DepositERC20To t1 t2 _ a g d =>
      t1 = l1_token ∧ t2 = l2_token ∧ a <= amount ∧ g = DEFAULT_L2_GAS_LIMIT_MSG ∧ d = ""
  | Withdraw _ _ _ _ => False
  end.

(** A contract transaction of a withdrawal of at most [amount] of
    [l2_token], or of the deposit that is to make up for an empty balance. *)
Definition withdraw_call (l2_token : address) (amount : Z) (f : fncall) : Prop :=
  match f with
  | Withdraw t a m d => t = l2_token ∧ a <= amount ∧ m = 0 ∧ d = ""
  | _ => deposit_call ADDR_L1_ERC20 l2_token amount f
  end.

(** The [Chain] objects made before handle [n] was given out are left as
    they are. *)
Definition sparing {W : Type} (n : nat) (s s' : state W) (t : list event) : Prop :=
  (n <= next_chain s)%nat →
  (n <= next_chain s')%nat ∧ ∀ c, (c < n)%nat → chains s' !! c = chains s !! c.

(** * More scenarios *)
Module Cases.
Import Mock.

(** ** A key file

    [strip] removes the ASCII white space at both ends; an account is known
    by its key, and a key is accepted when it has 66 characters. *)
Definition is_space (a : Ascii.ascii) : bool :=
  let n := Ascii.nat_of_ascii a in
  ((9 <=? n) && (n <=? 13) || (n =? 32))%nat.

Fixpoint lstrip (s : string) : string :=
  match s with
  | String a s' => if is_space a then lstrip s' else s
  | EmptyString => EmptyString
  end.

Fixpoint rstrip (s : string) : string :=
  match s with
  | EmptyString => EmptyString
  | String a s' =>
      match rstrip s' with
      | EmptyString => if is_space a then EmptyString else String a EmptyString
      | r => String a r
      end
  end.

Definition strip (s : string) : string := lstrip (rstrip s).

Definition from_key (s : string) : exn + address :=
  if (String.length s =? 66)%nat then inr s
  else inl (ValueError "The private key must be exactly 32 bytes long").

Definition nl : string := String (Ascii.ascii_of_nat 10) EmptyString.
Definition key_a : string :=
  "0x1111111111111111111111111111111111111111111111111111111111111111".
Definition key_b : string :=
  "2222222222222222222222222222222222222222222222222222222222222222".

(** A comment and a blank line, a key between spaces, then a key that is
    too short and a key without its [0x]. *)
Definition comment_lines : list string := ["# keys" +:+ nl; nl].
Definition line_a : string := "  " +:+ key_a +:+ " " +:+ nl.
Definition more_lines : list string := ["0xabc" +:+ nl; key_b +:+ nl].
Definition add_txt : list string := comment_lines ++ line_a :: more_lines.

Definition files (path : string) : option (list string) :=
  if String.eqb path "add.txt" then Some add_txt else None.

(** ** Waiting with no time left: the receipt is there, and so is the
    credit, but the timeout is 0. *)
Definition no_time_receipt : out node (option receipt) :=
  wait_receipt_with_progress 1 0 "0xh" 0
    (start (with_receipts [inr (Some (Receipt 1 21000))] quiet)).

Definition no_time_credit : out node bool :=
  wait_for_l2_credit 1 1 100 150 0 (start (with_balances [inr 300] quiet)).

(** ** Submissions *)

(** A transfer whose gas the caller set. *)
Definition transfer_with_gas : tx_dict :=
  <["gas" := VInt 21000]> Scenario.transfer.

Definition two_sends : node := with_sends [inr "0xh1"; inr "0xh2"] quiet.

(** On GIWA with 1 ether, and on Sepolia where no balance is scripted. *)
Definition giwa_node : node := with_sends [inr "0xh1"] (with_balances [inr (10 ^ 18)] quiet).
Definition giwa_transfer : out node txhash :=
  build_and_send 10 1 Scenario.transfer false (start giwa_node).
Definition giwa_signed : tx_dict * (exn + rawtx) :=
  List.hd (∅, inr "") (signings (trace giwa_transfer)).
Definition sepolia_transfer : out node txhash :=
  build_and_send 10 0 Scenario.transfer true (start (with_sends [inr "0xh1"] quiet)).

(** A broadcast the node refuses for its nonce. *)
Definition refused : out node txhash :=
  build_and_send 10 0 Scenario.transfer true (start quiet).

(** ** Callers *)

(** A faucet claim whose receipt reports failure. *)
Definition claim_failed : out node unit :=
  claim_test_tokens_generic 200 0 ADDR_L1_ERC20 "https://sepolia.etherscan.io/tx/"
    "Sepolia" (start Scenario.faucet_node).

(** 0.001 ether sent to oneself on GIWA and confirmed. *)
Definition self_node : node :=
  with_sends [inr "0x51"]
    (with_receipts [inr (Some (Receipt 1 21000))] (with_balances [inr (10 ^ 18)] quiet)).
Definition self_sent : out node unit := l2_self_transfer_eth 200 1 (10 ^ 15) (start self_node).

(** A withdrawal of 10 tokens with 3 tokens on GIWA. *)
Definition funded_node : node :=
  with_calls [inr (3 * 10 ^ 18); inr 18]
    (with_sends [inr "0x71"]
       (with_receipts [inr (Some (Receipt 1 90000))] (with_balances [inr (10 ^ 18)] quiet))).
Definition funded : out node unit :=
  withdraw_erc20_to_l1 200 1 0 Scenario.ADDR_L2_ERC20 (10 ^ 19) (start funded_node).

(** A withdrawal of 10 tokens with none on GIWA, 0.1 ether and 20 tokens on
    Sepolia and the bridge approved already: the deposit is broadcast and
    confirmed. *)
Definition recovered_node : node :=
  with_calls [inr 0; inr 18; inr (2 * 10 ^ 19); inr 18; inr (2 * 10 ^ 19); inr 18;
              inr (2 * 10 ^ 19); inr 18; inr (2 * 10 ^ 19); inr 18; inr (10 ^ 24); inr 18;
              inr (10 ^ 19); inr 18]
    (with_sends [inr "0xd1"]
       (with_receipts [inr (Some (Receipt 1 120000))] (with_balances [inr (10 ^ 17)] quiet))).
Definition recovered : out node unit :=
  withdraw_erc20_to_l1 200 1 0 Scenario.ADDR_L2_ERC20 (10 ^ 19) (start recovered_node).

End Cases.

(** * Facts about floats *)
Module PyFloatFacts.
Import PyFloat.

(** The rounding agrees with the Standard Library's binary64 on samples:
    exact values, rounded ones, ties, large values and overflows. *)
Example round_agrees_with_binary64 :
  forallb (fun z => agree (of_int z) (binary_normalize 53 1024 z 0 false))
    [0; 1; 100; 2 ^ 53 + 1; 2 ^ 53 + 3; 2 ^ 54 + 2; 2 ^ 54 + 6; 10 ^ 30 + 7;
     2 ^ 200 + 12345; 2 ^ 1024 - 2 ^ 970 - 1; 2 ^ 1024 - 2 ^ 970; 2 ^ 1030] = true.
Proof. vm_compute. reflexivity. Qed.

Example mul_agrees_with_binary64 :
  forallb (fun z =>
    agree (option_map (fun x => mul x f1_15) (of_int z))
      (SFmul 53 1024 (binary_normalize 53 1024 z 0 false)
         (S754_finite false 2589569785738035 (-51))))
    [0; 1; 20; 100; 260869; 1000000; 2 ^ 53 + 1; 10 ^ 30 + 7; 2 ^ 200 + 12345] = true.
Proof. vm_compute. reflexivity. Qed.

Example add_agrees_with_binary64 :
  forallb (fun z =>
    agree (option_map (fun x => add (mul x f2_5) (Fin 4000000000 0)) (of_int z))
      (SFadd 53 1024
         (SFmul 53 1024 (binary_normalize 53 1024 z 0 false) (S754_finite false 5 (-1)))
         (binary_normalize 53 1024 4000000000 0 false)))
    [0; 1; 7; 2 * 10 ^ 9; 2 ^ 53 + 1; 2 ^ 60 + 3; 10 ^ 30 + 7; 2 ^ 200 + 12345] = true.
Proof. vm_compute. reflexivity. Qed.

Lemma excess_small m e : Z.abs m < 2 ^ 53 → -1074 <= e → excess m e <= 0.
Proof.
  intros Hm He. unfold excess.
  assert (Z.log2 (Z.abs m) < 53).
  { destruct (Z.eq_dec (Z.abs m) 0) as [->|]; [reflexivity|].
    apply Z.log2_lt_pow2; lia. }
  lia.
Qed.

Lemma round_small m e : Z.abs m < 2 ^ 53 → -1074 <= e → round m e = Fin m e.
Proof.
  intros Hm He. unfold round.
  pose proof (excess_small m e Hm He).
  destruct (excess m e <=? 0) eqn:E; [reflexivity | lia].
Qed.

Lemma of_int_small z : Z.abs z < 2 ^ 53 → of_int z = Some (Fin z 0).
Proof. intros Hz. unfold of_int. rewrite round_small; [reflexivity | lia | lia]. Qed.

(** Below 2^50 the bump by [1.25] is exact up to the final truncation. *)
Lemma bump_exact z :
  0 <= z < 2 ^ 50 →
  of_int z = Some (Fin z 0) ∧ to_int (mul (Fin z 0) f1_25) = Some (5 * z / 4).
Proof.
  intros Hz. split; [apply of_int_small; lia|].
  unfold f1_25, mul. rewrite round_small by lia.
  simpl. f_equal. rewrite Z.quot_div_nonneg by lia. f_equal. lia.
Qed.

Lemma rne_ge m s : m / 2 ^ s <= rne m s.
Proof. unfold rne. repeat case_match; lia. Qed.

Lemma at_least_round y m e :
  0 <= y < 2 ^ 53 → 0 <= m → at_least y (Fin m e) → at_least y (round m e).
Proof.
  intros Hy Hm Hle. unfold round.
  destruct (excess m e <=? 0) eqn:Es; [exact Hle|].
  apply Z.leb_gt in Es.
  rewrite (Z.abs_eq m) by lia.
  assert (Hq : m / 2 ^ excess m e <= rne m (excess m e)) by apply rne_ge.
  assert (Hsg : Z.sgn m * rne m (excess m e) = rne m (excess m e)).
  { destruct (Z.eq_dec m 0) as [->|Hne].
    - unfold rne. rewrite Z.div_0_l, Zmod_0_l by (apply Z.pow_nonzero; lia).
      assert (0 < 2 ^ excess 0 e) by (apply Z.pow_pos_nonneg; lia).
      change (2 * 0) with 0.
      destruct (0 <? 2 ^ excess 0 e) eqn:E; [reflexivity|lia].
    - rewrite Z.sgn_pos by lia. lia. }
  rewrite Hsg.
  set (s := excess m e) in *. set (q := rne m s) in *.
  assert (H2s : 0 < 2 ^ s) by (apply Z.pow_pos_nonneg; lia).
  assert (Hq0 : 0 <= m / 2 ^ s) by (apply Z.div_pos; lia).
  destruct (1024 <=? Z.log2 (Z.abs q) + (e + s)).
  { simpl. apply Z.ltb_ge. lia. }
  simpl. destruct (0 <=? e + s) eqn:Ees.
  - apply Z.leb_le in Ees.
    destruct (Z.eq_dec (e + s) 0) as [E0|E0].
    + rewrite E0, Z.mul_1_r.
      simpl in Hle. destruct (0 <=? e) eqn:Ee; [apply Z.leb_le in Ee; lia|].
      replace (- e) with s in Hle by lia.
      etransitivity; [|exact Hq]. apply Z.div_le_lower_bound; lia.
    + assert (Hs : s = Z.log2 m - 52).
      { subst s. unfold excess in *. rewrite Z.abs_eq in * by lia. lia. }
      assert (0 < m).
      { destruct (Z.eq_dec m 0) as [->|]; [|lia]. simpl in Hs. lia. }
      assert (2 ^ 52 <= m / 2 ^ s).
      { apply Z.div_le_lower_bound; [lia|].
        rewrite <- Z.pow_add_r by lia.
        replace (s + 52) with (Z.log2 m) by lia.
        apply Z.log2_spec; lia. }
      assert (2 ^ 1 <= 2 ^ (e + s)) by (apply Z.pow_le_mono_r; lia).
      nia.
  - apply Z.leb_gt in Ees.
    simpl in Hle. destruct (0 <=? e) eqn:Ee; [apply Z.leb_le in Ee; lia|].
    etransitivity; [|exact Hq]. apply Z.div_le_lower_bound; [lia|].
    replace (- e) with (s + - (e + s)) in Hle by lia.
    rewrite Z.pow_add_r in Hle by lia. lia.
Qed.

Lemma at_least_of_int y z x :
  0 <= y < 2 ^ 53 → y <= z → of_int z = Some x → at_least y x.
Proof.
  intros Hy Hz. unfold of_int.
  pose proof (at_least_round y z 0 Hy ltac:(lia)) as Hr.
  destruct (round z 0) eqn:E; [|discriminate].
  intros [= <-]. apply Hr. simpl. lia.
Qed.

Lemma at_least_nonneg m e : at_least 0 (Fin m e) → 0 <= m.
Proof.
  simpl. destruct (0 <=? e) eqn:E; [|lia].
  apply Z.leb_le in E. intros H.
  assert (0 < 2 ^ e) by (apply Z.pow_pos_nonneg; lia). nia.
Qed.

Lemma at_least_zero m e : 0 <= m → at_least 0 (Fin m e).
Proof.
  simpl. destruct (0 <=? e) eqn:E; [|lia].
  intros. apply Z.mul_nonneg_nonneg; [lia | apply Z.pow_nonneg; lia].
Qed.

Lemma at_least_zero_mul x m e :
  0 < m → at_least 0 x → at_least 0 (mul x (Fin m e)).
Proof.
  intros Hm. destruct x as [m1 e1|neg].
  - intros H1%at_least_nonneg. unfold mul.
    apply at_least_round; [lia | nia |]. apply at_least_zero. nia.
  - simpl. intros ->. destruct (m <? 0) eqn:E; [lia | reflexivity].
Qed.

Lemma at_least_add x y :
  0 <= y < 2 ^ 53 → at_least 0 x → at_least y (add x (Fin y 0)).
Proof.
  intros Hy. destruct x as [m1 e1|neg]; [|simpl; congruence].
  intros H1%at_least_nonneg. unfold add.
  destruct (Z.min_spec e1 0) as [[He ->]|[He ->]].
  - rewrite Z.sub_diag, Z.mul_1_r.
    assert (0 < 2 ^ (0 - e1)) by (apply Z.pow_pos_nonneg; lia).
    apply at_least_round; [lia | nia |].
    simpl. destruct (0 <=? e1) eqn:E; [apply Z.leb_le in E; lia|].
    replace (- e1) with (0 - e1) by lia. lia.
  - rewrite Z.sub_diag, Z.mul_1_r, Z.sub_0_r.
    assert (0 < 2 ^ e1) by (apply Z.pow_pos_nonneg; lia).
    apply at_least_round; [lia | nia |].
    simpl. nia.
Qed.

Lemma at_least_to_int y x z : 0 <= y → at_least y x → to_int x = Some z → y <= z.
Proof.
  intros Hy. destruct x as [m e|neg]; [|discriminate].
  simpl. destruct (0 <=? e) eqn:E; intros Hle [= <-]; [exact Hle|].
  apply Z.leb_gt in E.
  assert (0 < 2 ^ (- e)) by (apply Z.pow_pos_nonneg; lia).
  rewrite Z.quot_div_nonneg by nia.
  apply Z.div_le_lower_bound; lia.
Qed.

Lemma rne_le m s : rne m s <= m / 2 ^ s + 1.
Proof. unfold rne. repeat case_match; lia. Qed.

(** A non-negative value well below 2^1024 does not round to infinity. *)
Lemma round_finite m e :
  0 <= m → Z.log2 m + e < 1022 → ∃ q e', round m e = Fin q e' ∧ 0 <= q.
Proof.
  intros Hm Hlog. unfold round.
  destruct (excess m e <=? 0) eqn:Es; [eauto|].
  apply Z.leb_gt in Es. rewrite (Z.abs_eq m) by lia.
  set (s := excess m e) in *.
  assert (H2s : 0 < 2 ^ s) by (apply Z.pow_pos_nonneg; lia).
  assert (Hq0 : 0 <= m / 2 ^ s) by (apply Z.div_pos; lia).
  pose proof (rne_ge m s) as Hge. pose proof (rne_le m s) as Hle.
  assert (Hsq : Z.sgn m * rne m s = rne m s).
  { destruct (Z.eq_dec m 0) as [->|Hne]; [|rewrite Z.sgn_pos by lia; lia].
    unfold rne. rewrite Z.div_0_l, Zmod_0_l by lia. change (2 * 0) with 0.
    destruct (0 <? 2 ^ s) eqn:E; [reflexivity|lia]. }
  rewrite Hsq. set (q := rne m s) in *.
  assert (Hs : Z.log2 m - 52 <= s) by (subst s; unfold excess; rewrite Z.abs_eq; lia).
  assert (Hq53 : q <= 2 ^ 53).
  { enough (m / 2 ^ s < 2 ^ 53) by lia.
    apply Z.div_lt_upper_bound; [lia|].
    destruct (Z.eq_dec m 0) as [->|Hne]; [nia|].
    rewrite <- Z.pow_add_r by lia.
    apply Z.lt_le_trans with (2 ^ Z.succ (Z.log2 m)); [apply Z.log2_spec; lia|].
    apply Z.pow_le_mono_r; lia. }
  assert (Hlq : Z.log2 (Z.abs q) <= 53).
  { rewrite Z.abs_eq by lia.
    destruct (Z.eq_dec q 0) as [->|Hne]; [cbn; lia|].
    change 53 with (Z.log2 (2 ^ 53)). apply Z.log2_le_mono. exact Hq53. }
  assert (Hes : e + s < 970).
  { subst s. unfold excess in *. rewrite Z.abs_eq in * by lia. lia. }
  destruct (1024 <=? Z.log2 (Z.abs q) + (e + s)) eqn:Eo;
    [apply Z.leb_le in Eo; lia|].
  exists q, (e + s). split; [reflexivity|lia].
Qed.

End PyFloatFacts.

(** * Rules for computations *)
Section Rules.
Context {W : Type} `{!Web3 W}.
Implicit Types st : state W.

Lemma post_mono {A} (m : M W A) st (Q Q' : res A → state W → list event → Prop) :
  post m st Q → (∀ r s t, Q r s t → Q' r s t) → post m st Q'.
Proof. unfold post. auto. Qed.

Lemma post_bind {A B} (m : M W A) (k : A → M W B) st Q :
  post m st (fun r st1 t1 =>
    match r with
    | Ok a => post (k a) st1 (fun r' st2 t2 => Q r' st2 (t1 ++ t2))
    | Exn e => Q (Exn e) st1 t1
    | OutOfFuel => Q OutOfFuel st1 t1
    end) →
  post (bind m k) st Q.
Proof. unfold post, bind. destruct (result (m st)); auto. Qed.

Lemma post_try {A} (m : M W A) (h : exn → M W A) st Q :
  post m st (fun r st1 t1 =>
    match r with
    | Exn e => post (h e) st1 (fun r' st2 t2 => Q r' st2 (t1 ++ t2))
    | _ => Q r st1 t1
    end) →
  post (try_except m h) st Q.
Proof.
  unfold post, try_except.
  destruct (result (m st)) eqn:E; simpl; rewrite ?E; auto.
Qed.

(** ** Quiet computations *)

Lemma quiet_ret {A} (a : A) : quiet (ret (W := W) a).
Proof. intros st. red. simpl. auto. Qed.

Lemma quiet_raise {A} e : quiet (raise (W := W) (A := A) e).
Proof. intros st. red. simpl. auto. Qed.

Lemma quiet_out_of_fuel {A} : quiet (out_of_fuel (W := W) (A := A)).
Proof. intros st. red. simpl. auto. Qed.

Lemma quiet_lift {A} (r : exn + A) : quiet (lift (W := W) r).
Proof. destruct r; [apply quiet_raise | apply quiet_ret]. Qed.

Lemma quiet_bind {A B} (m : M W A) (k : A → M W B) :
  quiet m → (∀ a, quiet (k a)) → quiet (bind m k).
Proof.
  intros Hm Hk st. apply post_bind. eapply post_mono; [apply Hm|].
  intros r s t (Hc & Hn & Ht). destruct r; auto.
  eapply post_mono; [apply Hk|]. simpl.
  intros r' s' t' (Hc' & Hn' & Ht'). rewrite Hc', Hn'.
  repeat split; auto. apply Forall_app; auto.
Qed.

Lemma quiet_try {A} (m : M W A) (h : exn → M W A) :
  quiet m → (∀ e, quiet (h e)) → quiet (try_except m h).
Proof.
  intros Hm Hh st. apply post_try. eapply post_mono; [apply Hm|].
  intros r s t (Hc & Hn & Ht). destruct r; auto.
  eapply post_mono; [apply Hh|]. simpl.
  intros r' s' t' (Hc' & Hn' & Ht'). rewrite Hc', Hn'.
  repeat split; auto. apply Forall_app; auto.
Qed.

Lemma quiet_request {A} (op : W → (exn + A) * W) (ev : exn + A → event) :
  (∀ r, submits (ev r) = false) → quiet (request op ev).
Proof.
  intros Hev st. red. unfold request.
  destruct (op (world st)) as [[e|a] w]; simpl; auto.
Qed.

Lemma quiet_now : quiet now.
Proof. intros st. red. unfold now. destruct (time_time (world st)); simpl; auto. Qed.

Lemma quiet_sleep d : quiet (sleep d).
Proof. intros st. red. simpl. auto. Qed.

Lemma quiet_get_chain c : quiet (W := W) (get_chain c).
Proof. intros st. red. unfold get_chain. destruct (chains st !! c); simpl; auto. Qed.

Lemma quiet_as_int v : quiet (W := W) (as_int v).
Proof. destruct v; first [apply quiet_ret | apply quiet_raise]. Qed.

Lemma quiet_dict_item k (tx : tx_dict) : quiet (W := W) (dict_item k tx).
Proof. unfold dict_item. destruct (tx !! k); [apply quiet_ret | apply quiet_raise]. Qed.

Lemma quiet_float_of_int z : quiet (W := W) (float_of_int z).
Proof. unfold float_of_int. destruct (PyFloat.of_int z); [apply quiet_ret | apply quiet_raise]. Qed.

Lemma quiet_int_of_float f : quiet (W := W) (int_of_float f).
Proof. unfold int_of_float. destruct (PyFloat.to_int f); [apply quiet_ret | apply quiet_raise]. Qed.

End Rules.

Create HintDb quiet.
#[export] Hint Resolve quiet_ret quiet_raise quiet_out_of_fuel quiet_lift quiet_now
  quiet_sleep quiet_get_chain quiet_as_int quiet_dict_item quiet_float_of_int
  quiet_int_of_float : quiet.

(** Splits a computation along its binds, handlers and branches. *)
Ltac quiet_step :=
  match goal with
  | |- quiet (bind _ _) => apply quiet_bind; [|intros ?]
  | |- quiet (try_except _ _) => apply quiet_try; [|intros ?]
  | |- quiet (request _ _) => apply quiet_request; intros ?; reflexivity
  | |- quiet (if ?b then _ else _) => destruct b
  | |- quiet (match ?x with _ => _ end) => destruct x
  | |- quiet (let '(_, _) := ?x in _) => destruct x
  | |- quiet _ => solve [auto with quiet]
  end.

Ltac quiet_tac := repeat quiet_step.

Section QuietEngine.
Context {W : Type} `{!Web3 W}.

Lemma quiet_int_mul_float z f : quiet (W := W) (int_mul_float z f).
Proof. unfold int_mul_float. quiet_tac. Qed.

Lemma quiet_to_wei_gwei x : quiet (to_wei_gwei x).
Proof. unfold to_wei_gwei. quiet_tac. Qed.

Lemma quiet_get_eip1559_fees n tip mult : quiet (get_eip1559_fees n tip mult).
Proof.
  unfold get_eip1559_fees, rpc_fee_history.
  pose proof quiet_to_wei_gwei. quiet_tac.
Qed.

Lemma quiet_wait_receipt_loop fuel n h timeout start last_err :
  quiet (wait_receipt_loop fuel n h timeout start last_err).
Proof.
  revert last_err. induction fuel as [|fuel IH]; intros last_err; simpl.
  - quiet_tac.
  - unfold rpc_get_transaction_receipt. quiet_tac.
Qed.

Lemma quiet_wait_receipt_with_progress fuel n h timeout :
  quiet (wait_receipt_with_progress fuel n h timeout).
Proof.
  unfold wait_receipt_with_progress. pose proof quiet_wait_receipt_loop. quiet_tac.
Qed.

Lemma quiet_estimate_and_cap_gas n tx cap : quiet (estimate_and_cap_gas n tx cap).
Proof.
  unfold estimate_and_cap_gas, rpc_estimate_gas.
  pose proof quiet_int_mul_float. quiet_tac.
Qed.

Lemma quiet_rpc_get_balance n a : quiet (rpc_get_balance n a).
Proof. unfold rpc_get_balance. quiet_tac. Qed.

Lemma quiet_rpc_call n c f : quiet (rpc_call n c f).
Proof. unfold rpc_call. quiet_tac. Qed.

Lemma quiet_rpc_build_transaction n c f p : quiet (rpc_build_transaction n c f p).
Proof. unfold rpc_build_transaction. quiet_tac. Qed.

Lemma quiet_ensure_funds_for_tx n a v g f : quiet (ensure_funds_for_tx n a v g f).
Proof. unfold ensure_funds_for_tx. pose proof quiet_rpc_get_balance. quiet_tac. Qed.

Lemma quiet_wait_for_l2_credit_loop fuel l2 before expect timeout start :
  quiet (wait_for_l2_credit_loop fuel l2 before expect timeout start).
Proof.
  induction fuel as [|fuel IH]; simpl.
  - quiet_tac.
  - pose proof quiet_rpc_get_balance. quiet_tac.
Qed.

Lemma quiet_wait_for_l2_credit fuel l2 before expect timeout :
  quiet (wait_for_l2_credit fuel l2 before expect timeout).
Proof.
  unfold wait_for_l2_credit. pose proof quiet_wait_for_l2_credit_loop. quiet_tac.
Qed.

Lemma quiet_default_gas_cap tx : quiet (W := W) (default_gas_cap tx).
Proof. unfold default_gas_cap. quiet_tac. Qed.

Lemma quiet_fill_transaction ch tx : quiet (fill_transaction ch tx).
Proof.
  unfold fill_transaction, rpc_chain_id.
  pose proof quiet_get_eip1559_fees. pose proof quiet_default_gas_cap.
  pose proof quiet_estimate_and_cap_gas. quiet_tac.
Qed.

Lemma quiet_guard_l2_balance fuel c ch tx : quiet (guard_l2_balance fuel c ch tx).
Proof.
  unfold guard_l2_balance.
  pose proof quiet_ensure_funds_for_tx. pose proof quiet_rpc_get_balance.
  pose proof quiet_wait_for_l2_credit. quiet_tac.
Qed.

Lemma quiet_bump_fee k tx : quiet (W := W) (bump_fee k tx).
Proof. unfold bump_fee. pose proof quiet_int_mul_float. quiet_tac. Qed.

Lemma quiet_get_erc20_balance c token : quiet (get_erc20_balance c token).
Proof. unfold get_erc20_balance. pose proof quiet_rpc_call. quiet_tac. Qed.

End QuietEngine.

(** * Traces *)

Lemma broadcasts_app t1 t2 : broadcasts (t1 ++ t2) = broadcasts t1 ++ broadcasts t2.
Proof.
  induction t1 as [|ev t1 IH]; [reflexivity|].
  destruct ev; simpl; auto. destruct r; simpl; congruence.
Qed.

Lemma signings_app t1 t2 : signings (t1 ++ t2) = signings t1 ++ signings t2.
Proof. induction t1 as [|[] t1 IH]; simpl; congruence. Qed.

Lemma sendings_app t1 t2 : sendings (t1 ++ t2) = sendings t1 ++ sendings t2.
Proof. induction t1 as [|[] t1 IH]; simpl; congruence. Qed.

Lemma builds_app t1 t2 : builds (t1 ++ t2) = builds t1 ++ builds t2.
Proof. induction t1 as [|[] t1 IH]; simpl; congruence. Qed.

Lemma receipt_polls_app t1 t2 :
  receipt_polls (t1 ++ t2) = receipt_polls t1 ++ receipt_polls t2.
Proof. induction t1 as [|[] t1 IH]; simpl; congruence. Qed.

Lemma balance_polls_app t1 t2 :
  balance_polls (t1 ++ t2) = balance_polls t1 ++ balance_polls t2.
Proof. induction t1 as [|[] t1 IH]; simpl; congruence. Qed.

Lemma clock_reads_app t1 t2 : clock_reads (t1 ++ t2) = clock_reads t1 ++ clock_reads t2.
Proof. induction t1 as [|[] t1 IH]; simpl; congruence. Qed.

Lemma silent_no_submission tr :
  Forall (fun ev => submits ev = false) tr →
  broadcasts tr = [] ∧ signings tr = [] ∧ sendings tr = [].
Proof.
  induction 1 as [|ev tr Hev _ IH]; [auto|].
  destruct ev; simpl in *; auto; discriminate.
Qed.

Lemma silent_broadcasts tr :
  Forall (fun ev => submits ev = false) tr → broadcasts tr = [].
Proof. intros H. apply silent_no_submission in H. tauto. Qed.

(** Projections of explicit records, and the broadcasts of a trace put
    together from parts. *)
Ltac proj_simpl := cbn [result final trace world chains next_chain] in *.
Ltac tr_simpl :=
  cbn [result final trace world chains next_chain app signings sendings broadcasts
       builds receipt_polls balance_polls clock_reads ret raise lift fst snd andb] in *.
Ltac broadcasts_simpl :=
  proj_simpl; rewrite ?broadcasts_app; cbn [broadcasts app];
  repeat match goal with H : broadcasts _ = _ |- _ => rewrite H end;
  cbn [app].

Section Submitter.
Context {W : Type} `{!Web3 W}.
Implicit Types st : state W.

Lemma post_quiet {A} (m : M W A) st (Q : res A → state W → list event → Prop) :
  quiet m →
  (∀ r st' tr, chains st' = chains st → next_chain st' = next_chain st →
     Forall (fun ev => submits ev = false) tr → Q r st' tr) →
  post m st Q.
Proof. intros Hq HQ. eapply post_mono; [apply Hq|]. simpl. intros r s t (? & ? & ?). auto. Qed.

Lemma post_request {A} (op : W → (exn + A) * W) (ev : exn + A → event) st Q :
  (∀ r w, op (world st) = (r, w) →
     Q (match r with inl e => Exn e | inr a => Ok a end)
       (mkState w (chains st) (next_chain st)) [ev r]) →
  post (request op ev) st Q.
Proof.
  intros HQ. unfold post, request.
  destruct (op (world st)) as [r w] eqn:E. specialize (HQ r w eq_refl).
  destruct r; exact HQ.
Qed.

Lemma post_incr_nonce c ch st (Q : res unit → state W → list event → Prop) :
  chains st !! c = Some ch →
  Q (Ok tt) (mkState (world st) (<[c := bump_nonce ch]> (chains st)) (next_chain st)) [] →
  post (incr_nonce c) st Q.
Proof. intros Hc HQ. unfold post, incr_nonce. rewrite Hc. exact HQ. Qed.

Lemma send_and_count c ch st :
  chains st !! c = Some ch →
  ∀ raw, post (h <- rpc_send_raw_transaction (w3 ch) raw ;; incr_nonce c ;;; ret h) st
    (fun r st' tr =>
       next_chain st' = next_chain st ∧ sendings tr ≠ [] ∧
       match r with
       | Ok h => broadcasts tr = [h] ∧ chains st' = <[c := bump_nonce ch]> (chains st)
       | _ => broadcasts tr = [] ∧ chains st' = chains st
       end).
Proof.
  intros Hc raw. apply post_bind. apply post_request. intros [e|h] w _.
  - simpl. repeat split; auto; discriminate.
  - apply post_bind. eapply post_incr_nonce; [exact Hc|].
    unfold post. simpl. repeat split; auto; discriminate.
Qed.

Lemma submit_nonce c ch tx sp st :
  chains st !! c = Some ch →
  post (submit c ch tx sp) st (sent_once c ch st).
Proof.
  intros Hc. unfold submit. apply post_bind. apply post_request.
  intros [e|raw] w _; [split; simpl; auto|].
  apply post_try.
  eapply post_mono; [apply send_and_count; exact Hc|].
  intros r s t (Hn & _ & Hr). proj_simpl.
  destruct r as [h|e|]; try (split; simpl; tauto).
  destruct Hr as [Hb Hcs].
  destruct (sp && is_underpriced e); [|split; simpl; rewrite ?app_nil_r; auto].
  assert (Hc' : chains s !! c = Some ch) by (rewrite Hcs; exact Hc).
  apply post_bind. apply post_quiet; [apply quiet_bump_fee|].
  intros r1 s1 t1 Hc1 Hn1 Ht1. apply silent_broadcasts in Ht1.
  destruct r1 as [tx1| |]; try (split; broadcasts_simpl; repeat split; congruence).
  apply post_bind. apply post_quiet; [apply quiet_bump_fee|].
  intros r2 s2 t2 Hc2 Hn2 Ht2. apply silent_broadcasts in Ht2.
  destruct r2 as [tx2| |]; try (split; broadcasts_simpl; repeat split; congruence).
  apply post_bind. apply post_request.
  intros [e'|raw'] w' _; [split; broadcasts_simpl; repeat split; congruence|].
  eapply post_mono; [apply send_and_count|].
  { proj_simpl. rewrite Hc2, Hc1. exact Hc'. }
  intros r3 s3 t3 (Hn3 & _ & Hr3). proj_simpl.
  split; [congruence|].
  destruct r3; destruct Hr3 as [Hb3 Hc3]; broadcasts_simpl; split; congruence.
Qed.

End Submitter.

Section BuildAndSend.
Context {W : Type} `{!Web3 W}.
Implicit Types st : state W.

Lemma build_and_send_sent_once fuel c ch tx sp st :
  chains st !! c = Some ch →
  post (build_and_send fuel c tx sp) st (sent_once c ch st).
Proof.
  intros Hc. unfold build_and_send.
  apply post_bind. unfold post at 1, get_chain. rewrite Hc. proj_simpl.
  apply post_bind. apply post_quiet; [apply quiet_fill_transaction|].
  intros r1 s1 t1 Hc1 Hn1 Ht1. apply silent_broadcasts in Ht1.
  destruct r1 as [tx1| |]; try (split; broadcasts_simpl; repeat split; congruence).
  apply post_bind. apply post_quiet; [apply quiet_guard_l2_balance|].
  intros r2 s2 t2 Hc2 Hn2 Ht2. apply silent_broadcasts in Ht2.
  destruct r2 as [[]| |]; try (split; broadcasts_simpl; repeat split; congruence).
  eapply post_mono; [apply submit_nonce; rewrite Hc2, Hc1; exact Hc|].
  intros r3 s3 t3 (Hn3 & Hr3). split; [congruence|].
  destruct r3; destruct Hr3 as [Hb3 Hc3]; broadcasts_simpl; split; congruence.
Qed.

End BuildAndSend.

(** * The clock and the polling loops *)

Lemma Qltb_true x y : Qltb x y = true → (x < y)%Q.
Proof.
  unfold Qltb. intros Hb. apply negb_true_iff in Hb.
  apply Qnot_le_lt. intros Hle. apply Qle_bool_iff in Hle. congruence.
Qed.

Lemma Qltb_false x y : Qltb x y = false → (y <= x)%Q.
Proof.
  unfold Qltb. intros Hb. apply negb_false_iff in Hb. apply Qle_bool_iff. exact Hb.
Qed.

Lemma inject_Z_succ (k : Z) (n : nat) :
  (inject_Z (k * Z.of_nat (S n)) == inject_Z (k * Z.of_nat n) + inject_Z k)%Q.
Proof. rewrite <- inject_Z_plus. apply inject_Z_injective. lia. Qed.

Lemma polls_within_enough timeout interval fuel :
  0 < interval → (polls_within timeout interval <= S fuel)%nat →
  (inject_Z timeout <= inject_Z (interval * Z.of_nat fuel))%Q.
Proof.
  intros Hi Hf. rewrite <- Zle_Qle. unfold polls_within in Hf.
  destruct (Z.le_gt_cases timeout 0) as [Hneg|Hpos]; [nia|].
  assert (0 <= timeout / interval) by (apply Z.div_pos; lia).
  pose proof (Z.mod_pos_bound timeout interval Hi).
  pose proof (Z.div_mod timeout interval ltac:(lia)).
  nia.
Qed.

Section Polling.
Context {W : Type} `{!Web3 W}.
Implicit Types st : state W.

Lemma post_now st (Q : res Q → state W → list event → Prop) :
  (∀ t w, time_time (world st) = (t, w) →
     Q (Ok t) (mkState w (chains st) (next_chain st)) [EvTime t]) →
  post now st Q.
Proof.
  intros HQ. unfold post, now.
  destruct (time_time (world st)) as [t w] eqn:E. exact (HQ t w eq_refl).
Qed.

Lemma post_sleep d st (Q : res unit → state W → list event → Prop) :
  Q (Ok tt) (mkState (time_sleep d (world st)) (chains st) (next_chain st)) [EvSleep d] →
  post (sleep d) st Q.
Proof. auto. Qed.

(** ** The receipt loop *)

Lemma wait_receipt_loop_post fuel n h timeout start last_err st :
  post (wait_receipt_loop fuel n h timeout start last_err) st
    (fun r _ tr => receipt_loop_post n h timeout start r tr).
Proof.
  revert last_err st. induction fuel as [|fuel IH]; intros last_err st.
  { unfold post. simpl. constructor. }
  cbn [wait_receipt_loop]. apply post_bind. apply post_now. intros t w _.
  destruct (Qltb (t - start) (inject_Z timeout)) eqn:Et.
  2:{ unfold post. simpl. split; [constructor|].
      exists t. split; [reflexivity|]. apply Qltb_false. exact Et. }
  apply post_bind. apply post_try. apply post_bind. apply post_request.
  intros [e|[rc|]] w' _.
  - (* the lookup raised *)
    unfold post at 1. cbn [ret result final trace app].
    apply post_bind. apply post_now. intros t' w'' _.
    apply post_bind. apply post_sleep.
    eapply post_mono; [apply IH|]. cbn beta.
    intros r s tr Hr. destruct r as [[rc|]| |]; cbn [receipt_loop_post] in *.
    + destruct Hr as [(pre & Hp & Hpre) (tr' & ->)]. split.
      * exists (inl e :: pre). cbn [app receipt_polls] in *. rewrite Hp.
        split; [reflexivity|]. constructor; auto.
      * eexists ([EvTime t; EvGetReceipt n h (inl e); EvTime t'; EvSleep _] ++ tr').
        reflexivity.
    + destruct Hr as [Hpre (tl & Hl & Hle)]. split.
      * cbn [app receipt_polls]. constructor; auto.
      * exists tl. split; [|exact Hle].
        cbn [app clock_reads]. rewrite !last_cons, Hl. reflexivity.
    + exact Hr.
    + cbn [app receipt_polls]. constructor; auto.
  - (* a receipt *)
    unfold post. cbn [ret bind result final trace app receipt_loop_post]. split.
    + exists []. split; [reflexivity|constructor].
    + exists [EvTime t]. reflexivity.
  - (* nothing yet *)
    unfold post at 1. cbn [ret result final trace app].
    apply post_bind. apply post_now. intros t' w'' _.
    apply post_bind. apply post_sleep.
    eapply post_mono; [apply IH|]. cbn beta.
    intros r s tr Hr. destruct r as [[rc|]| |]; cbn [receipt_loop_post] in *.
    + destruct Hr as [(pre & Hp & Hpre) (tr' & ->)]. split.
      * exists (inr None :: pre). cbn [app receipt_polls] in *. rewrite Hp.
        split; [reflexivity|]. constructor; auto.
      * eexists ([EvTime t; EvGetReceipt n h (inr None); EvTime t'; EvSleep _] ++ tr').
        reflexivity.
    + destruct Hr as [Hpre (tl & Hl & Hle)]. split.
      * cbn [app receipt_polls]. constructor; auto.
      * exists tl. split; [|exact Hle].
        cbn [app clock_reads]. rewrite !last_cons, Hl. reflexivity.
    + exact Hr.
    + cbn [app receipt_polls]. constructor; auto.
Qed.

Lemma wait_receipt_loop_total clock (L : ClockLaws clock) fuel n h timeout start
    last_err st :
  (start + inject_Z timeout - clock (world st) <= inject_Z (2 * Z.of_nat fuel))%Q →
  post (wait_receipt_loop (S fuel) n h timeout start last_err) st
    (fun r _ _ => r ≠ OutOfFuel).
Proof.
  revert last_err st. induction fuel as [|fuel IH]; intros last_err st Hinv;
    cbn [wait_receipt_loop]; apply post_bind; apply post_now; intros t w Ht;
    pose proof (clock_time_lo _ L (world st)) as Hlo;
    pose proof (clock_time_hi _ L (world st)) as Hhi;
    rewrite Ht in Hlo, Hhi; cbn [fst snd] in Hlo, Hhi;
    (destruct (Qltb (t - start) (inject_Z timeout)) eqn:Et;
      [apply Qltb_true in Et | unfold post; simpl; discriminate]).
  { change (inject_Z (2 * Z.of_nat 0)) with 0%Q in Hinv. lra. }
  rewrite inject_Z_succ in Hinv. change (inject_Z 2) with 2%Q in Hinv.
  assert (Hnext : ∀ w1 w2 t', (clock w <= clock w1)%Q → time_time w1 = (t', w2) →
            ∀ le, post (wait_receipt_loop (S fuel) n h timeout start le)
                    (mkState (time_sleep TX_POLL_INTERVAL w2) (chains st) (next_chain st))
                    (fun r _ _ => r ≠ OutOfFuel)).
  { intros w1 w2 t' Hw1 Ht' le. apply IH. cbn [world].
    pose proof (clock_time_lo _ L w1) as Hlo1.
    pose proof (clock_time_hi _ L w1) as Hhi1.
    rewrite Ht' in Hlo1, Hhi1. cbn [fst snd] in Hlo1, Hhi1.
    pose proof (clock_sleep _ L TX_POLL_INTERVAL w2) as Hsl.
    change TX_POLL_INTERVAL with 2%Q in *. lra. }
  apply post_bind. apply post_try. apply post_bind. apply post_request.
  intros r w' Hr.
  pose proof (clock_receipt _ L n h w) as Hrc. proj_simpl.
  rewrite Hr in Hrc. cbn [snd] in Hrc.
  destruct r as [e|[rc|]].
  - unfold post at 1. cbn [ret result final trace app].
    apply post_bind. apply post_now. intros t' w'' Ht'.
    apply post_bind. apply post_sleep. proj_simpl.
    eapply post_mono; [eapply Hnext; eauto|]. auto.
  - unfold post. simpl. discriminate.
  - unfold post at 1. cbn [ret result final trace app].
    apply post_bind. apply post_now. intros t' w'' Ht'.
    apply post_bind. apply post_sleep. proj_simpl.
    eapply post_mono; [eapply Hnext; eauto|]. auto.
Qed.

Lemma wait_receipt_total clock (L : ClockLaws clock) fuel n h timeout st :
  (polls_within timeout 2 <= fuel)%nat →
  result (wait_receipt_with_progress fuel n h timeout st) ≠ OutOfFuel.
Proof.
  intros Hf. destruct fuel as [|fuel]; [unfold polls_within in Hf; lia|].
  apply (polls_within_enough timeout 2 fuel ltac:(lia)) in Hf.
  change (post (wait_receipt_with_progress (S fuel) n h timeout) st
            (fun r _ _ => r ≠ OutOfFuel)).
  unfold wait_receipt_with_progress. apply post_bind. apply post_now. intros t w Ht.
  pose proof (clock_time_hi _ L (world st)) as Hhi.
  rewrite Ht in Hhi. cbn [fst snd] in Hhi.
  eapply post_mono; [eapply wait_receipt_loop_total; eauto|]; [|auto].
  cbn [world]. lra.
Qed.

Lemma wait_receipt_post fuel n h timeout st :
  let o := wait_receipt_with_progress fuel n h timeout st in
  match result o with
  | Ok (Some rc) =>
      (∃ pre, receipt_polls (trace o) = pre ++ [inr (Some rc)] ∧
              Forall (fun p => present p = false) pre) ∧
      (∃ tr', trace o = tr' ++ [EvGetReceipt n h (inr (Some rc))])
  | Ok None =>
      Forall (fun p => present p = false) (receipt_polls (trace o)) ∧
      timed_out timeout (trace o)
  | Exn _ => False
  | OutOfFuel => Forall (fun p => present p = false) (receipt_polls (trace o))
  end.
Proof.
  cbn zeta.
  change (post (wait_receipt_with_progress fuel n h timeout) st
            (fun r _ tr =>
               match r with
               | Ok (Some rc) =>
                   (∃ pre, receipt_polls tr = pre ++ [inr (Some rc)] ∧
                           Forall (fun p => present p = false) pre) ∧
                   (∃ tr', tr = tr' ++ [EvGetReceipt n h (inr (Some rc))])
               | Ok None =>
                   Forall (fun p => present p = false) (receipt_polls tr) ∧
                   timed_out timeout tr
               | Exn _ => False
               | OutOfFuel => Forall (fun p => present p = false) (receipt_polls tr)
               end)).
  unfold wait_receipt_with_progress. apply post_bind. apply post_now. intros t w _.
  eapply post_mono; [apply wait_receipt_loop_post|]. cbn beta.
  intros r _ tr Hr. destruct r as [[rc|]| |]; cbn [receipt_loop_post] in Hr.
  - destruct Hr as [Hp (tr' & ->)]. split; [exact Hp|].
    exists (EvTime t :: tr'). reflexivity.
  - destruct Hr as [Hp (tl & Hl & Hle)]. split; [exact Hp|].
    exists t, tl. cbn [app clock_reads head]. rewrite last_cons, Hl. auto.
  - exact Hr.
  - exact Hr.
Qed.

(** ** The credit loop *)

Lemma wait_for_l2_credit_loop_post fuel l2 ch before delta timeout start st :
  chains st !! l2 = Some ch →
  post (wait_for_l2_credit_loop fuel l2 before delta timeout start) st
    (fun r _ tr => credit_loop_post before delta timeout start r tr).
Proof.
  intros Hc. revert st Hc. induction fuel as [|fuel IH]; intros st Hc.
  { unfold post. simpl. constructor. }
  cbn [wait_for_l2_credit_loop]. apply post_bind. apply post_now. intros t w _.
  destruct (Qltb (t - start) (inject_Z timeout)) eqn:Et.
  2:{ unfold post. simpl. split; [constructor|].
      exists t. split; [reflexivity|]. apply Qltb_false. exact Et. }
  apply post_bind. unfold post at 1, get_chain. proj_simpl. rewrite Hc. proj_simpl.
  apply post_bind. apply post_request. intros [e|b] w' _.
  - cbn [credit_loop_post app balance_polls]. exists []. split; [reflexivity|constructor].
  - destruct (delta <=? b - before) eqn:Eb.
    + unfold post. cbn [ret result final trace app balance_polls credit_loop_post].
      exists [], b. split; [reflexivity|]. split; [lia|constructor].
    + assert (Hidle : idle before delta (inr b)) by (split; [exact Eb|reflexivity]).
      apply post_bind. apply post_now. intros t' w'' _.
      apply post_bind. apply post_sleep.
      eapply post_mono; [apply IH; exact Hc|]. cbn beta.
      intros r s tr Hr. destruct r as [[|]|e|]; cbn [credit_loop_post] in *.
      * destruct Hr as (pre & b' & Hp & Hb' & Hpre).
        exists (inr b :: pre), b'. cbn [app balance_polls]. rewrite Hp.
        split; [reflexivity|]. split; [exact Hb'|]. constructor; auto.
      * destruct Hr as [Hpre (tl & Hl & Hle)]. split.
        -- cbn [app balance_polls]. constructor; auto.
        -- exists tl. split; [|exact Hle].
           cbn [app clock_reads]. rewrite !last_cons, Hl. reflexivity.
      * destruct Hr as (pre & Hp & Hpre).
        exists (inr b :: pre). cbn [app balance_polls]. rewrite Hp.
        split; [reflexivity|]. constructor; auto.
      * cbn [app balance_polls]. constructor; auto.
Qed.

Lemma wait_for_l2_credit_loop_total clock (L : ClockLaws clock) fuel l2 before delta
    timeout start st :
  (start + inject_Z timeout - clock (world st) <= inject_Z (5 * Z.of_nat fuel))%Q →
  post (wait_for_l2_credit_loop (S fuel) l2 before delta timeout start) st
    (fun r _ _ => r ≠ OutOfFuel).
Proof.
  revert st. induction fuel as [|fuel IH]; intros st Hinv;
    cbn [wait_for_l2_credit_loop]; apply post_bind; apply post_now; intros t w Ht;
    pose proof (clock_time_lo _ L (world st)) as Hlo;
    pose proof (clock_time_hi _ L (world st)) as Hhi;
    rewrite Ht in Hlo, Hhi; cbn [fst snd] in Hlo, Hhi;
    (destruct (Qltb (t - start) (inject_Z timeout)) eqn:Et;
      [apply Qltb_true in Et | unfold post; simpl; discriminate]).
  { change (inject_Z (5 * Z.of_nat 0)) with 0%Q in Hinv. lra. }
  rewrite inject_Z_succ in Hinv. change (inject_Z 5) with 5%Q in Hinv.
  apply post_bind. unfold post at 1, get_chain. proj_simpl.
  destruct (chains st !! l2) as [ch|]; [|proj_simpl; discriminate]. proj_simpl.
  apply post_bind. apply post_request. intros r w' Hr.
  pose proof (clock_balance _ L (w3 ch) (account ch) w) as Hrc. proj_simpl.
  rewrite Hr in Hrc. cbn [snd] in Hrc.
  destruct r as [e|b]; [discriminate|].
  destruct (delta <=? b - before); [unfold post; simpl; discriminate|].
  apply post_bind. apply post_now. intros t' w'' Ht'.
  apply post_bind. apply post_sleep. proj_simpl.
  eapply post_mono; [apply IH|auto]. cbn [world].
  pose proof (clock_time_lo _ L w') as Hlo1.
  pose proof (clock_time_hi _ L w') as Hhi1.
  rewrite Ht' in Hlo1, Hhi1. cbn [fst snd] in Hlo1, Hhi1.
  pose proof (clock_sleep _ L (inject_Z 5) w'') as Hsl.
  change (inject_Z 5) with 5%Q in *. lra.
Qed.

Lemma wait_for_l2_credit_total clock (L : ClockLaws clock) fuel l2 before delta timeout st :
  (polls_within timeout 5 <= fuel)%nat →
  result (wait_for_l2_credit fuel l2 before delta timeout st) ≠ OutOfFuel.
Proof.
  intros Hf. destruct fuel as [|fuel]; [unfold polls_within in Hf; lia|].
  apply (polls_within_enough timeout 5 fuel ltac:(lia)) in Hf.
  change (post (wait_for_l2_credit (S fuel) l2 before delta timeout) st
            (fun r _ _ => r ≠ OutOfFuel)).
  unfold wait_for_l2_credit. apply post_bind. apply post_now. intros t w Ht.
  pose proof (clock_time_hi _ L (world st)) as Hhi.
  rewrite Ht in Hhi. cbn [fst snd] in Hhi.
  eapply post_mono; [eapply wait_for_l2_credit_loop_total; eauto|]; [|auto].
  cbn [world]. lra.
Qed.

Lemma wait_for_l2_credit_post fuel l2 ch before delta timeout st :
  chains st !! l2 = Some ch →
  let o := wait_for_l2_credit fuel l2 before delta timeout st in
  match result o with
  | Ok true =>
      ∃ pre b, balance_polls (trace o) = pre ++ [inr b] ∧ delta <= b - before ∧
               Forall (idle before delta) pre
  | Ok false =>
      Forall (idle before delta) (balance_polls (trace o)) ∧ timed_out timeout (trace o)
  | Exn e =>
      ∃ pre, balance_polls (trace o) = pre ++ [inl e] ∧ Forall (idle before delta) pre
  | OutOfFuel => Forall (idle before delta) (balance_polls (trace o))
  end.
Proof.
  intros Hc. cbn zeta.
  change (post (wait_for_l2_credit fuel l2 before delta timeout) st
            (fun r _ tr =>
               match r with
               | Ok true =>
                   ∃ pre b, balance_polls tr = pre ++ [inr b] ∧ delta <= b - before ∧
                            Forall (idle before delta) pre
               | Ok false =>
                   Forall (idle before delta) (balance_polls tr) ∧ timed_out timeout tr
               | Exn e =>
                   ∃ pre, balance_polls tr = pre ++ [inl e] ∧ Forall (idle before delta) pre
               | OutOfFuel => Forall (idle before delta) (balance_polls tr)
               end)).
  unfold wait_for_l2_credit. apply post_bind. apply post_now. intros t w _.
  eapply post_mono; [eapply wait_for_l2_credit_loop_post; exact Hc|]. cbn beta.
  intros r _ tr Hr. destruct r as [[|]|e|]; cbn [credit_loop_post] in Hr;
    cbn [app balance_polls]; try exact Hr.
  destruct Hr as [Hp (tl & Hl & Hle)]. split; [exact Hp|].
  exists t, tl. cbn [app clock_reads head]. rewrite last_cons, Hl. auto.
Qed.

End Polling.

(** * Fees and gas *)

Section FeesAndGas.
Context {W : Type} `{!Web3 W}.
Implicit Types st : state W.

Lemma int_mul_float_eq z f st :
  match int_times z f with
  | Some g => int_mul_float z f st = mkOut (Ok g) st []
  | None => ∃ e, int_mul_float z f st = mkOut (Exn e) st []
  end.
Proof.
  unfold int_times, int_mul_float, bind, float_of_int, int_of_float.
  destruct (PyFloat.of_int z) as [x|]; cbn; [|eauto].
  destruct (PyFloat.to_int (PyFloat.mul x f)); cbn; eauto.
Qed.

Lemma int_times_bump z : 0 <= z < 2 ^ 50 → int_times z REPLACE_BUMP = Some (5 * z / 4).
Proof.
  intros Hz. unfold int_times, REPLACE_BUMP.
  destruct (PyFloatFacts.bump_exact z Hz) as [-> ->]. reflexivity.
Qed.

(** Scaling by [1.15] does not fall below an integer that the exact product
    exceeds, for estimates up to 10^14. *)
Lemma int_times_1_15_ge est cap :
  0 <= est <= 10 ^ 14 → 100 * cap < 115 * est →
  ∃ gas, int_times est PyFloat.f1_15 = Some gas ∧ cap <= gas.
Proof.
  change (10 ^ 14) with 100000000000000.
  intros Hest Hcap. unfold int_times.
  rewrite PyFloatFacts.of_int_small by (change (2 ^ 53) with 9007199254740992; lia).
  unfold PyFloat.f1_15. cbn [PyFloat.mul]. change (0 + -51) with (-51).
  assert (H0 : at_least (Z.max cap 0)
                 (PyFloat.round (est * 2589569785738035) (-51))).
  { apply PyFloatFacts.at_least_round;
      [change (2 ^ 53) with 9007199254740992; lia | lia |].
    unfold at_least. change (0 <=? -51) with false. cbv iota.
    change (2 ^ (- -51)) with 2251799813685248. lia. }
  destruct (PyFloatFacts.round_finite (est * 2589569785738035) (-51))
    as (q & e' & Hr & Hq); [lia | |].
  { destruct (Z.eq_dec est 0) as [->|Hne]; [reflexivity|].
    enough (Z.log2 (est * 2589569785738035) < 100) by lia.
    apply Z.log2_lt_pow2; [lia|].
    change (2 ^ 100) with 1267650600228229401496703205376. lia. }
  rewrite Hr in *. eexists. split; [reflexivity|].
  assert (Z.max cap 0 <= if 0 <=? e' then q * 2 ^ e' else q ÷ 2 ^ (- e')).
  { apply (PyFloatFacts.at_least_to_int _ (PyFloat.Fin q e')); [lia|exact H0|reflexivity]. }
  lia.
Qed.

Lemma estimate_and_cap_gas_out n tx cap st :
  let o := estimate_and_cap_gas n tx cap st in
  ∃ g, result o = Ok g ∧ g <= cap ∧
    trace o = [EvEstimateGas n tx (fst (estimate_gas n tx (world st)))] ∧
    match fst (estimate_gas n tx (world st)) with
    | inl _ => g = cap
    | inr est =>
        match int_times est PyFloat.f1_15 with
        | Some gas => g = Z.min gas cap ∧ (cap < gas → g = cap)
        | None => g = cap
        end ∧
        (0 <= est <= 10 ^ 14 → 100 * cap < 115 * est → g = cap)
    end.
Proof.
  cbn zeta. unfold estimate_and_cap_gas, try_except, bind, rpc_estimate_gas, request.
  destruct (estimate_gas n tx (world st)) as [[e|est] w]; cbn.
  { exists cap. repeat split; lia. }
  pose proof (int_mul_float_eq est PyFloat.f1_15 (mkState w (chains st) (next_chain st)))
    as Hmul.
  pose proof (int_times_1_15_ge est cap) as Hge.
  destruct (int_times est PyFloat.f1_15) as [gas|].
  - rewrite Hmul. cbn. exists (Z.min gas cap). repeat split; try lia;
      intros Hest Hcap; destruct (Hge Hest Hcap) as (gas' & [= <-] & Hle); lia.
  - destruct Hmul as [e ->]. cbn. exists cap. repeat split; try lia;
      intros Hest Hcap; destruct (Hge Hest Hcap) as (gas' & [=] & _).
Qed.

(** C5. The gas limit [estimate_and_cap_gas] returns never exceeds the cap:
    it always returns, with [min(int(est * 1.15), cap)] when the node gives
    an estimate [est] (hence the cap itself as soon as the scaled estimate
    exceeds it, also with the scaling read exactly, for estimates up to
    10^14), and with the cap when the estimation (or the scaling) raises. *)
Theorem estimate_and_cap_gas_capped n tx cap st :
  let o := estimate_and_cap_gas n tx cap st in
  ∃ g, result o = Ok g ∧ g <= cap ∧
    match fst (estimate_gas n tx (world st)) with
    | inl _ => g = cap
    | inr est =>
        match int_times est PyFloat.f1_15 with
        | Some gas => g = Z.min gas cap ∧ (cap < gas → g = cap)
        | None => g = cap
        end ∧
        (0 <= est <= 10 ^ 14 → 100 * cap < 115 * est → g = cap)
    end.
Proof.
  cbn zeta. destruct (estimate_and_cap_gas_out n tx cap st) as (g & Hr & Hle & _ & Hg).
  exists g. auto.
Qed.

(** ** The fee quote *)

Lemma fee_profile_cases chain_name :
  fee_profile chain_name = (PyFloat.f2_0, PyFloat.f2_5) ∧ String.prefix "GIWA" chain_name = true ∨
  fee_profile chain_name = (PyFloat.f8_0, PyFloat.f4_0) ∧ String.prefix "GIWA" chain_name = false.
Proof. unfold fee_profile. destruct (String.prefix "GIWA" chain_name); auto. Qed.

Lemma to_wei_gwei_2 st : to_wei_gwei PyFloat.f2_0 st = mkOut (Ok (2 * 10 ^ 9)) st [].
Proof. reflexivity. Qed.

Lemma to_wei_gwei_8 st : to_wei_gwei PyFloat.f8_0 st = mkOut (Ok (8 * 10 ^ 9)) st [].
Proof. reflexivity. Qed.

Lemma quote_max_fee_ge base priority m e max_fee :
  0 <= base → 0 <= priority * 2 < 2 ^ 53 → 0 < m →
  quote_max_fee base priority (PyFloat.Fin m e) = Some max_fee →
  priority * 2 <= max_fee.
Proof.
  intros Hb Hp Hm. unfold quote_max_fee.
  destruct (PyFloat.of_int base) as [x|] eqn:Ex; [|discriminate].
  rewrite PyFloatFacts.of_int_small by lia.
  apply PyFloatFacts.at_least_to_int; [lia|].
  apply PyFloatFacts.at_least_add; [lia|].
  apply PyFloatFacts.at_least_zero_mul; [lia|].
  eapply PyFloatFacts.at_least_of_int; [| |exact Ex]; lia.
Qed.

Lemma quote_max_fee_2_5 base priority :
  0 <= base < 2 ^ 50 → 0 <= priority * 2 < 2 ^ 50 →
  quote_max_fee base priority PyFloat.f2_5 = Some (5 * base / 2 + priority * 2).
Proof.
  intros Hb Hp. unfold quote_max_fee.
  rewrite !PyFloatFacts.of_int_small by lia.
  unfold PyFloat.f2_5, PyFloat.mul. rewrite PyFloatFacts.round_small by lia.
  unfold PyFloat.add. change (Z.min (0 + -1) 0) with (-1).
  change (2 ^ (0 + -1 - -1)) with 1. change (2 ^ (0 - -1)) with 2.
  rewrite PyFloatFacts.round_small by lia.
  cbn [PyFloat.to_int]. change (0 <=? -1) with false. cbv iota.
  change (2 ^ (- -1)) with 2. f_equal.
  rewrite Z.quot_div_nonneg by lia.
  replace (base * 5 * 1 + priority * 2 * 2) with (5 * base + priority * 2 * 2) by lia.
  rewrite Z.div_add by lia. reflexivity.
Qed.

Lemma quote_max_fee_4_0 base priority :
  0 <= base < 2 ^ 50 → 0 <= priority * 2 < 2 ^ 50 →
  quote_max_fee base priority PyFloat.f4_0 = Some (4 * base + priority * 2).
Proof.
  intros Hb Hp. unfold quote_max_fee.
  rewrite !PyFloatFacts.of_int_small by lia.
  unfold PyFloat.f4_0, PyFloat.mul. rewrite PyFloatFacts.round_small by lia.
  unfold PyFloat.add. change (Z.min (0 + 0) 0) with 0.
  change (2 ^ (0 + 0 - 0)) with 1. change (2 ^ (0 - 0)) with 1.
  rewrite PyFloatFacts.round_small by lia.
  cbn [PyFloat.to_int]. change (0 <=? 0) with true. cbv iota.
  f_equal. change (2 ^ 0) with 1. lia.
Qed.

Lemma to_wei_gwei_pure tip : ∃ r, ∀ st, to_wei_gwei tip st = mkOut r st [].
Proof.
  unfold to_wei_gwei. destruct tip as [m e|neg].
  - destruct (_ && _).
    + destruct (_ <? 0); eexists; intros st; reflexivity.
    + destruct (to_wei_gwei_decimal _); eexists; intros st; reflexivity.
  - destruct (to_wei_gwei_decimal _); eexists; intros st; reflexivity.
Qed.

Lemma get_eip1559_fees_out n tip mult st base priority max_fee :
  result (get_eip1559_fees n tip mult st) = Ok (base, priority, max_fee) →
  (∀ st', to_wei_gwei tip st' = mkOut (Ok priority) st' []) ∧
  quote_max_fee base priority mult = Some max_fee ∧
  match fst (fee_history_base n (world st)) with
  | inl _ => base = two_gwei
  | inr b => base = b
  end.
Proof.
  destruct (to_wei_gwei_pure tip) as [r Hr].
  unfold get_eip1559_fees, bind, try_except, rpc_fee_history, request.
  destruct (fee_history_base n (world st)) as [[e|b] w];
    cbn [result final trace ret fst]; rewrite !Hr; cbn [result final trace];
    (destruct r as [p| |]; [|discriminate|discriminate]);
    unfold float_of_int, int_of_float, quote_max_fee;
    match goal with
    | |- context [PyFloat.of_int ?z] =>
        destruct (PyFloat.of_int z) as [x|] eqn:Ex; cbn [result final trace ret raise];
          [|discriminate]
    end;
    (destruct (PyFloat.of_int (p * 2)) as [y|] eqn:Ey;
       cbn [result final trace ret raise]; [|discriminate]);
    (destruct (PyFloat.to_int (PyFloat.add (PyFloat.mul x mult) y)) as [z|] eqn:Ez;
       cbn [result final trace ret raise]; [|discriminate]);
    intros [= <- <- <-]; rewrite Ex, Ey, Ez; auto.
Qed.

(** C6. Every fee quote [get_eip1559_fees] produces for a network profile,
    from a base fee that is not negative (read from the fee history, or the
    2 gwei put in its place when the read fails), has
    [max_fee >= priority * 2]; the priority is the profile's tip in wei, and
    for a base fee below 2^50 the max fee is the integer part of
    [base * multiplier + priority * 2]. *)
Theorem get_eip1559_fees_floor chain_name n st base priority max_fee :
  result (get_eip1559_fees n (fee_profile chain_name).1 (fee_profile chain_name).2 st)
    = Ok (base, priority, max_fee) →
  0 <= base →
  priority * 2 <= max_fee ∧
  priority = (if String.prefix "GIWA" chain_name then 2 else 8) * 10 ^ 9 ∧
  match fst (fee_history_base n (world st)) with
  | inl _ => base = two_gwei
  | inr b => base = b
  end ∧
  (base < 2 ^ 50 →
   max_fee = (if String.prefix "GIWA" chain_name then 5 * base / 2 else 4 * base)
             + priority * 2).
Proof.
  intros Hres Hbase.
  apply get_eip1559_fees_out in Hres. destruct Hres as (Hp & Hq & Hb).
  specialize (Hp st).
  destruct (fee_profile_cases chain_name) as [[Hf Hg]|[Hf Hg]];
    rewrite Hf in *; rewrite Hg; cbn [fst snd] in *.
  - rewrite to_wei_gwei_2 in Hp. injection Hp as <-.
    split; [|split; [reflexivity|split; [exact Hb|]]].
    + eapply (quote_max_fee_ge base _ 5 (-1)); [exact Hbase| |lia|exact Hq].
      cbn. lia.
    + intros Hlt. rewrite quote_max_fee_2_5 in Hq; [congruence|lia|cbn; lia].
  - rewrite to_wei_gwei_8 in Hp. injection Hp as <-.
    split; [|split; [reflexivity|split; [exact Hb|]]].
    + eapply (quote_max_fee_ge base _ 4 0); [exact Hbase| |lia|exact Hq].
      cbn. lia.
    + intros Hlt. rewrite quote_max_fee_4_0 in Hq; [congruence|lia|cbn; lia].
Qed.

End FeesAndGas.

(** * The underpriced retry *)
Section RetryFacts.
Context {W : Type} `{!Web3 W}.
Implicit Types st : state W.

Lemma post_conj {A} (m : M W A) st (Q1 Q2 : res A → state W → list event → Prop) :
  post m st Q1 → post m st Q2 → post m st (fun r s t => Q1 r s t ∧ Q2 r s t).
Proof. unfold post. auto. Qed.

Lemma bump_fee_small k (tx : tx_dict) z st :
  tx !! k = Some (VInt z) → 0 <= z < 2 ^ 50 →
  bump_fee k tx st = mkOut (Ok (<[k := VInt (5 * z / 4)]> tx)) st [].
Proof.
  intros Hk Hz. unfold bump_fee, bind, dict_item. rewrite Hk.
  cbn [ret as_int result final trace app].
  pose proof (int_mul_float_eq z REPLACE_BUMP st) as Hm.
  rewrite int_times_bump in Hm by exact Hz. rewrite Hm. reflexivity.
Qed.

Lemma submit_signs_first c ch tx sp st :
  post (submit c ch tx sp) st (fun _ _ tr => ∃ s more, signings tr = (tx, s) :: more).
Proof.
  unfold submit. apply post_bind. apply post_request. intros s w _.
  destruct s as [e|raw]; [cbn [signings]; eauto|].
  unfold post. rewrite signings_app. cbn [signings app]. eauto.
Qed.

Lemma post_eq {A} (m : M W A) st r st' tr (Q : res A → state W → list event → Prop) :
  m st = mkOut r st' tr → Q r st' tr → post m st Q.
Proof. unfold post. intros ->. auto. Qed.

Lemma submit_retried c ch tx st p f :
  chains st !! c = Some ch →
  tx !! "maxPriorityFeePerGas" = Some (VInt p) → tx !! "maxFeePerGas" = Some (VInt f) →
  0 <= p < 2 ^ 50 → 0 <= f < 2 ^ 50 →
  post (submit c ch tx true) st (fun r st' tr =>
    ∀ raw1 e1 rest, sendings tr = (raw1, inl e1) :: rest → is_underpriced e1 = true →
      retried c ch st tx p f raw1 e1 r st' tr).
Proof.
  intros Hc Hp Hf Hpr Hfr.
  assert (Hf' : <["maxPriorityFeePerGas" := VInt (5 * p / 4)]> tx !! "maxFeePerGas"
                = Some (VInt f)) by (rewrite lookup_insert_ne; [exact Hf|discriminate]).
  unfold submit. apply post_bind. apply post_request. intros [e|raw] w _.
  { intros ? ? ? [=]. }
  apply post_try. apply post_bind. apply post_request. intros [e1|h] w1 _.
  2:{ apply post_bind. eapply post_incr_nonce; [exact Hc|].
      unfold post. tr_simpl. intros ? ? ? [=]. }
  cbn [andb]. destruct (is_underpriced e1) eqn:Hu.
  2:{ unfold post. tr_simpl. intros ? ? ? [= <- <- <-]. congruence. }
  apply post_bind. eapply post_eq; [apply (bump_fee_small _ _ _ _ Hp Hpr)|].
  apply post_bind. eapply post_eq; [apply (bump_fee_small _ _ _ _ Hf' Hfr)|].
  fold (bumped tx p f).
  apply post_bind. apply post_request. intros [e|raw2] w2 [= Es <-].
  { tr_simpl. intros ? ? ? [= <- <- <-] _.
    exists (inl e). tr_simpl. auto. }
  apply post_bind. apply post_request. intros [e2|h] w3 _.
  - tr_simpl. intros ? ? ? [= <- <- <-] _.
    exists (inr raw2). tr_simpl. split; [reflexivity|]. exists (inl e2). auto.
  - apply post_bind. eapply post_incr_nonce; [exact Hc|].
    unfold post. tr_simpl. intros ? ? ? [= <- <- <-] _.
    exists (inr raw2). tr_simpl. split; [reflexivity|]. exists (inr h). auto.
Qed.

End RetryFacts.

Section SubmitterClaims.
Context {W : Type} `{!Web3 W}.
Implicit Types st : state W.

Lemma build_and_send_retried fuel c ch tx st :
  chains st !! c = Some ch →
  post (build_and_send fuel c tx true) st (fun r st' tr =>
    ∀ tx1 s1 more p f raw1 e1 rest,
      signings tr = (tx1, s1) :: more →
      tx1 !! "maxPriorityFeePerGas" = Some (VInt p) →
      tx1 !! "maxFeePerGas" = Some (VInt f) →
      0 <= p < 2 ^ 50 → 0 <= f < 2 ^ 50 →
      sendings tr = (raw1, inl e1) :: rest → is_underpriced e1 = true →
      retried c ch st tx1 p f raw1 e1 r st' tr).
Proof.
  intros Hc. unfold build_and_send.
  apply post_bind. unfold post at 1, get_chain. rewrite Hc. proj_simpl.
  apply post_bind. apply post_quiet; [apply quiet_fill_transaction|].
  intros r1 s1 t1 Hc1 Hn1 Ht1. apply silent_no_submission in Ht1.
  destruct Ht1 as (_ & Hsg1 & Hsd1).
  destruct r1 as [txf| |];
    try (intros ? ? ? ? ? ? ? ?; cbn [app]; rewrite Hsg1; discriminate).
  apply post_bind. apply post_quiet; [apply quiet_guard_l2_balance|].
  intros r2 s2 t2 Hc2 Hn2 Ht2. apply silent_no_submission in Ht2.
  destruct Ht2 as (_ & Hsg2 & Hsd2).
  destruct r2 as [[]| |];
    try (intros ? ? ? ? ? ? ? ?; cbn [app]; rewrite signings_app, Hsg1, Hsg2; discriminate).
  assert (Hc' : chains s2 !! c = Some ch) by (rewrite Hc2, Hc1; exact Hc).
  eapply post_mono.
  { apply post_conj; [apply submit_signs_first|].
    apply (post_conj _ _ (fun r s t => ∀ p f,
             txf !! "maxPriorityFeePerGas" = Some (VInt p) →
             txf !! "maxFeePerGas" = Some (VInt f) →
             0 <= p < 2 ^ 50 → 0 <= f < 2 ^ 50 →
             ∀ raw1 e1 rest, sendings t = (raw1, inl e1) :: rest →
               is_underpriced e1 = true → retried c ch s2 txf p f raw1 e1 r s t)
             (fun _ _ _ => True)); [|exact I].
    unfold post. intros p f Hp Hf Hpr Hfr.
    apply (submit_retried c ch txf s2 p f Hc' Hp Hf Hpr Hfr). }
  cbn beta. intros r3 s3 t3 ((sf & moref & Hsg3) & Hret & _).
  intros tx1 s1' more p f raw1 e1 rest. unfold retried. cbn [app].
  rewrite !signings_app, !sendings_app, Hsg1, Hsg2, Hsd1, Hsd2. cbn [app].
  rewrite Hsg3. intros [= <- <- <-] Hp Hf Hpr Hfr Hsd Hu.
  specialize (Hret p f Hp Hf Hpr Hfr raw1 e1 rest Hsd Hu).
  destruct Hret as (sg2 & Hsgs & Hcase). exists sg2.
  split; [rewrite <- Hsg3; exact Hsgs|].
  destruct sg2 as [e|raw2].
  - destruct Hcase as (? & ? & ?). repeat split; congruence.
  - destruct Hcase as (r2 & ? & Hr2). exists r2. split; [assumption|].
    destruct r2; destruct Hr2; split; congruence.
Qed.

End SubmitterClaims.

(** * Computations that build no transaction *)
Section UnbuiltRules.
Context {W : Type} `{!Web3 W}.
Implicit Types st : state W.

Lemma unbuilt_ret {A} (a : A) : unbuilt (ret (W := W) a).
Proof. intros st. reflexivity. Qed.

Lemma unbuilt_raise {A} e : unbuilt (raise (W := W) (A := A) e).
Proof. intros st. reflexivity. Qed.

Lemma unbuilt_out_of_fuel {A} : unbuilt (out_of_fuel (W := W) (A := A)).
Proof. intros st. reflexivity. Qed.

Lemma unbuilt_lift {A} (r : exn + A) : unbuilt (lift (W := W) r).
Proof. destruct r; intros st; reflexivity. Qed.

Lemma unbuilt_bind {A B} (m : M W A) (k : A → M W B) :
  unbuilt m → (∀ a, unbuilt (k a)) → unbuilt (bind m k).
Proof.
  intros Hm Hk st. apply post_bind. eapply post_mono; [apply Hm|].
  intros r s t Ht. destruct r; auto.
  eapply post_mono; [apply Hk|]. cbn beta.
  intros r' s' t' Ht'. rewrite builds_app, Ht, Ht'. reflexivity.
Qed.

Lemma unbuilt_try {A} (m : M W A) (h : exn → M W A) :
  unbuilt m → (∀ e, unbuilt (h e)) → unbuilt (try_except m h).
Proof.
  intros Hm Hh st. apply post_try. eapply post_mono; [apply Hm|].
  intros r s t Ht. destruct r; auto.
  eapply post_mono; [apply Hh|]. cbn beta.
  intros r' s' t' Ht'. rewrite builds_app, Ht, Ht'. reflexivity.
Qed.

Lemma unbuilt_request {A} (op : W → (exn + A) * W) (ev : exn + A → event) :
  (∀ r, builds [ev r] = []) → unbuilt (request op ev).
Proof.
  intros Hev st. red. unfold request.
  destruct (op (world st)) as [[e|a] w]; cbn [trace]; auto.
Qed.

Lemma unbuilt_now : unbuilt now.
Proof. intros st. red. unfold now. destruct (time_time (world st)); reflexivity. Qed.

Lemma unbuilt_sleep d : unbuilt (sleep d).
Proof. intros st. reflexivity. Qed.

Lemma unbuilt_get_chain c : unbuilt (W := W) (get_chain c).
Proof. intros st. red. unfold get_chain. destruct (chains st !! c); reflexivity. Qed.

Lemma unbuilt_incr_nonce c : unbuilt (W := W) (incr_nonce c).
Proof. intros st. red. unfold incr_nonce. destruct (chains st !! c); reflexivity. Qed.

Lemma unbuilt_new_chain ch : unbuilt (W := W) (new_chain ch).
Proof. intros st. reflexivity. Qed.

Lemma unbuilt_as_int v : unbuilt (W := W) (as_int v).
Proof. destruct v; intros st; reflexivity. Qed.

Lemma unbuilt_dict_item k (tx : tx_dict) : unbuilt (W := W) (dict_item k tx).
Proof. unfold dict_item. destruct (tx !! k); intros st; reflexivity. Qed.

Lemma unbuilt_float_of_int z : unbuilt (W := W) (float_of_int z).
Proof. unfold float_of_int. destruct (PyFloat.of_int z); intros st; reflexivity. Qed.

Lemma unbuilt_int_of_float f : unbuilt (W := W) (int_of_float f).
Proof. unfold int_of_float. destruct (PyFloat.to_int f); intros st; reflexivity. Qed.

End UnbuiltRules.

Create HintDb unbuilt.
#[export] Hint Resolve unbuilt_ret unbuilt_raise unbuilt_out_of_fuel unbuilt_lift
  unbuilt_now unbuilt_sleep unbuilt_get_chain unbuilt_incr_nonce unbuilt_new_chain
  unbuilt_as_int unbuilt_dict_item unbuilt_float_of_int unbuilt_int_of_float : unbuilt.

Ltac unbuilt_step :=
  match goal with
  | |- unbuilt (bind _ _) => apply unbuilt_bind; [|intros ?]
  | |- unbuilt (try_except _ _) => apply unbuilt_try; [|intros ?]
  | |- unbuilt (request _ _) => apply unbuilt_request; intros ?; reflexivity
  | |- unbuilt (if ?b then _ else _) => destruct b
  | |- unbuilt (match ?x with _ => _ end) => destruct x
  | |- unbuilt (let '(_, _) := ?x in _) => destruct x
  | |- unbuilt _ => solve [auto with unbuilt]
  end.

Ltac unbuilt_tac := repeat unbuilt_step.

Section UnbuiltEngine.
Context {W : Type} `{!Web3 W}.

Lemma unbuilt_int_mul_float z f : unbuilt (W := W) (int_mul_float z f).
Proof. unfold int_mul_float. unbuilt_tac. Qed.

Lemma unbuilt_to_wei_gwei x : unbuilt (to_wei_gwei x).
Proof. unfold to_wei_gwei. unbuilt_tac. Qed.

Lemma unbuilt_get_eip1559_fees n tip mult : unbuilt (get_eip1559_fees n tip mult).
Proof.
  unfold get_eip1559_fees, rpc_fee_history.
  pose proof unbuilt_to_wei_gwei. unbuilt_tac.
Qed.

Lemma unbuilt_wait_receipt_loop fuel n h timeout start last_err :
  unbuilt (wait_receipt_loop fuel n h timeout start last_err).
Proof.
  revert last_err. induction fuel as [|fuel IH]; intros last_err; simpl.
  - unbuilt_tac.
  - unfold rpc_get_transaction_receipt. unbuilt_tac.
Qed.

Lemma unbuilt_wait_receipt_with_progress fuel n h timeout :
  unbuilt (wait_receipt_with_progress fuel n h timeout).
Proof.
  unfold wait_receipt_with_progress. pose proof unbuilt_wait_receipt_loop. unbuilt_tac.
Qed.

Lemma unbuilt_estimate_and_cap_gas n tx cap : unbuilt (estimate_and_cap_gas n tx cap).
Proof.
  unfold estimate_and_cap_gas, rpc_estimate_gas.
  pose proof unbuilt_int_mul_float. unbuilt_tac.
Qed.

Lemma unbuilt_rpc_get_balance n a : unbuilt (rpc_get_balance n a).
Proof. unfold rpc_get_balance. unbuilt_tac. Qed.

Lemma unbuilt_rpc_call n c f : unbuilt (rpc_call n c f).
Proof. unfold rpc_call. unbuilt_tac. Qed.

Lemma unbuilt_ensure_funds_for_tx n a v g f : unbuilt (ensure_funds_for_tx n a v g f).
Proof. unfold ensure_funds_for_tx. pose proof unbuilt_rpc_get_balance. unbuilt_tac. Qed.

Lemma unbuilt_wait_for_l2_credit_loop fuel l2 before expect timeout start :
  unbuilt (wait_for_l2_credit_loop fuel l2 before expect timeout start).
Proof.
  induction fuel as [|fuel IH]; simpl.
  - unbuilt_tac.
  - pose proof unbuilt_rpc_get_balance. unbuilt_tac.
Qed.

Lemma unbuilt_wait_for_l2_credit fuel l2 before expect timeout :
  unbuilt (wait_for_l2_credit fuel l2 before expect timeout).
Proof.
  unfold wait_for_l2_credit. pose proof unbuilt_wait_for_l2_credit_loop. unbuilt_tac.
Qed.

Lemma unbuilt_default_gas_cap tx : unbuilt (W := W) (default_gas_cap tx).
Proof. unfold default_gas_cap. unbuilt_tac. Qed.

Lemma unbuilt_fill_transaction ch tx : unbuilt (fill_transaction ch tx).
Proof.
  unfold fill_transaction, rpc_chain_id.
  pose proof unbuilt_get_eip1559_fees. pose proof unbuilt_default_gas_cap.
  pose proof unbuilt_estimate_and_cap_gas. unbuilt_tac.
Qed.

Lemma unbuilt_guard_l2_balance fuel c ch tx : unbuilt (guard_l2_balance fuel c ch tx).
Proof.
  unfold guard_l2_balance.
  pose proof unbuilt_ensure_funds_for_tx. pose proof unbuilt_rpc_get_balance.
  pose proof unbuilt_wait_for_l2_credit. unbuilt_tac.
Qed.

Lemma unbuilt_bump_fee k tx : unbuilt (W := W) (bump_fee k tx).
Proof. unfold bump_fee. pose proof unbuilt_int_mul_float. unbuilt_tac. Qed.

Lemma unbuilt_submit c ch tx sp : unbuilt (submit c ch tx sp).
Proof.
  unfold submit, sign, rpc_send_raw_transaction.
  pose proof unbuilt_bump_fee. unbuilt_tac.
Qed.

Lemma unbuilt_build_and_send fuel c tx sp : unbuilt (build_and_send fuel c tx sp).
Proof.
  unfold build_and_send.
  pose proof unbuilt_fill_transaction. pose proof unbuilt_guard_l2_balance.
  pose proof unbuilt_submit. unbuilt_tac.
Qed.

Lemma unbuilt_get_erc20_balance c token : unbuilt (get_erc20_balance c token).
Proof. unfold get_erc20_balance. pose proof unbuilt_rpc_call. unbuilt_tac. Qed.

End UnbuiltEngine.

(** * The allowance *)
Section AllowanceFacts.
Context {W : Type} `{!Web3 W}.
Implicit Types st : state W.

Lemma post_calm {A} (m : M W A) st (Q : res A → state W → list event → Prop) :
  quiet m → unbuilt m →
  (∀ r st' tr, chains st' = chains st → next_chain st' = next_chain st →
     Forall (fun ev => submits ev = false) tr → builds tr = [] → Q r st' tr) →
  post m st Q.
Proof.
  intros Hq Hu HQ. pose proof (Hq st) as (? & ? & ?). pose proof (Hu st).
  apply HQ; assumption.
Qed.

Lemma post_get_chain c ch st (Q : res Chain → state W → list event → Prop) :
  chains st !! c = Some ch → Q (Ok ch) st [] → post (get_chain c) st Q.
Proof. intros Hc HQ. unfold post, get_chain. rewrite Hc. exact HQ. Qed.

Lemma post_decimals n token st (Q : res Z → state W → list event → Prop) :
  (∀ d r w, Q (Ok d) (mkState w (chains st) (next_chain st)) [EvCall n token Decimals r]) →
  post (try_except (rpc_call n token Decimals) (fun _ => ret 18)) st Q.
Proof.
  intros HQ. unfold post, try_except, rpc_call, request.
  destruct (contract_call n token Decimals (world st)) as [[e|d] w]; tr_simpl; apply HQ.
Qed.

(** A transaction sent through [build_and_send] and awaited. *)
Lemma post_send_and_wait {B} fuel c ch tx sp n timeout
    (k : txhash → option receipt → M W B) st (Q : res B → state W → list event → Prop) :
  chains st !! c = Some ch →
  (∀ h rc st' tr, next_chain st' = next_chain st → builds tr = [] →
     broadcasts tr = [h] → chains st' = <[c := bump_nonce ch]> (chains st) →
     post (k h rc) st' (fun r s t => Q r s (tr ++ t))) →
  (∀ st' tr, next_chain st' = next_chain st → builds tr = [] →
     (broadcasts tr = [] ∧ chains st' = chains st) ∨
     (∃ h, broadcasts tr = [h] ∧ chains st' = <[c := bump_nonce ch]> (chains st)) →
     (∀ e, Q (Exn e) st' tr) ∧ Q OutOfFuel st' tr) →
  post (tx_hash <- build_and_send fuel c tx sp ;;
        rcpt <- wait_receipt_with_progress fuel n tx_hash timeout ;;
        k tx_hash rcpt) st Q.
Proof.
  intros Hc Hok Hfail. apply post_bind. eapply post_mono.
  { apply post_conj; [apply build_and_send_sent_once; exact Hc|].
    apply unbuilt_build_and_send. }
  cbn beta. intros r1 s1 t1 ((Hn1 & Hr1) & Hb1).
  destruct r1 as [h|e|]; try (apply Hfail; tauto).
  destruct Hr1 as [Hbr1 Hc1].
  apply post_bind.
  apply post_calm;
    [apply quiet_wait_receipt_with_progress|apply unbuilt_wait_receipt_with_progress|].
  intros r2 s2 t2 Hc2 Hn2 Ht2 Hb2. apply silent_broadcasts in Ht2.
  assert (Hb12 : builds (t1 ++ t2) = []) by (rewrite builds_app, Hb1, Hb2; reflexivity).
  assert (Hbr12 : broadcasts (t1 ++ t2) = [h])
    by (rewrite broadcasts_app, Hbr1, Ht2; reflexivity).
  destruct r2 as [rc|e|].
  - eapply post_mono; [apply (Hok h rc s2 (t1 ++ t2)); congruence|].
    cbn beta. intros r s t. rewrite app_assoc. auto.
  - apply Hfail; [congruence|assumption|]. right. exists h. split; congruence.
  - apply Hfail; [congruence|assumption|]. right. exists h. split; congruence.
Qed.

Lemma ensure_allowance_post fuel c ch token spender m st :
  chains st !! c = Some ch →
  post (ensure_allowance fuel c token spender m) st (fun r st' tr =>
    next_chain st' = next_chain st ∧
    ∃ r0 tr', tr = EvCall (w3 ch) token (Allowance (account ch) spender) r0 :: tr' ∧
      match r with
      | Ok None =>
          ∃ a, r0 = inr a ∧ m <= a ∧ chains st' = chains st ∧
               Forall (fun ev => submits ev = false) tr ∧ builds tr = []
      | Ok (Some h) =>
          ∃ a, r0 = inr a ∧ a < m ∧ chains st' = <[c := bump_nonce ch]> (chains st) ∧
               broadcasts tr = [h] ∧ builds tr = [Approve spender (approve_amount m)]
      | Exn _ | OutOfFuel =>
          (∀ a, r0 = inr a → a < m) ∧ (length (broadcasts tr) <= 1)%nat
      end).
Proof.
  intros Hc. unfold ensure_allowance.
  apply post_bind. apply post_get_chain with ch; [exact Hc|].
  apply post_bind. apply post_request. intros r0 w _.
  destruct r0 as [e|a].
  { split; [reflexivity|]. eexists _, []. split; [reflexivity|].
    split; [discriminate|cbn; lia]. }
  apply post_bind. apply post_decimals. intros d rd wd.
  destruct (m <=? a) eqn:Ema; [apply Z.leb_le in Ema|apply Z.leb_gt in Ema].
  { unfold post. tr_simpl. split; [reflexivity|]. eexists _, _. split; [reflexivity|].
    exists a. repeat split; auto. }
  apply post_bind. apply post_request. intros rb wb _.
  destruct rb as [e|txa].
  { tr_simpl. split; [reflexivity|]. eexists _, _. split; [reflexivity|].
    split; [intros ? [= <-]; exact Ema|cbn; lia]. }
  apply post_send_and_wait with ch; [exact Hc| |].
  - intros h rc s t Hn Hb Hbr Hcs.
    destruct (receipt_ok rc); unfold post; tr_simpl.
    + split; [exact Hn|]. eexists _, _. split; [reflexivity|].
      exists a. rewrite app_nil_r, Hbr, Hb. repeat split; auto.
    + split; [exact Hn|]. eexists _, _. split; [reflexivity|].
      rewrite app_nil_r, Hbr. split; [intros ? [= <-]; exact Ema|cbn; lia].
  - intros s t Hn Hb Hcase. tr_simpl.
    assert (Hlen : (length (broadcasts t) <= 1)%nat).
    { destruct Hcase as [[-> _]|(h & -> & _)]; cbn; lia. }
    split; intros; (split; [exact Hn|]); eexists _, _; (split; [reflexivity|]);
      (split; [intros ? [= <-]; exact Ema|exact Hlen]).
Qed.

Lemma approve_amount_ge m : m <= approve_amount m.
Proof.
  unfold approve_amount, approve_floor_wei.
  change (10 ^ 6 * 10 ^ 18) with 1000000000000000000000000. lia.
Qed.

(** C7, amended. When a first [ensure_allowance] returns, and the allowance
    the second one reads is what the token then holds (at least the amount
    just approved, or at least what the first call read when it approved
    nothing), the second call submits nothing and returns no transaction:
    the two calls broadcast at most one approval, of
    [max(min_amount * 10, 10^24)], which is at least the amount asked for. *)
Theorem ensure_allowance_idempotent fuel c ch token spender m st r1 a2 :
  chains st !! c = Some ch →
  let read := EvCall (w3 ch) token (Allowance (account ch) spender) in
  let o1 := ensure_allowance fuel c token spender m st in
  let o2 := ensure_allowance fuel c token spender m (final o1) in
  result o1 = Ok r1 →
  head (trace o2) = Some (read (inr a2)) →
  match r1 with
  | Some _ => approve_amount m <= a2
  | None => ∀ a1, head (trace o1) = Some (read (inr a1)) → a1 <= a2
  end →
  result o2 = Ok None ∧
  Forall (fun ev => submits ev = false) (trace o2) ∧ builds (trace o2) = [] ∧
  (length (broadcasts (trace o1 ++ trace o2)) <= 1)%nat ∧
  (length (builds (trace o1 ++ trace o2)) <= 1)%nat ∧
  match r1 with
  | None => broadcasts (trace o1) = [] ∧ builds (trace o1) = []
  | Some h =>
      broadcasts (trace o1) = [h] ∧
      builds (trace o1) = [Approve spender (approve_amount m)] ∧
      m <= approve_amount m
  end.
Proof.
  intros Hc read o1 o2 Hr1 Hhead Hledger.
  pose proof (ensure_allowance_post fuel c ch token spender m st Hc) as H1.
  unfold post in H1. fold o1 in H1. rewrite Hr1 in H1.
  destruct H1 as (Hn1 & r0 & tr1 & Htr1 & H1).
  assert (Hfirst : ∃ ch', chains (final o1) !! c = Some ch' ∧
                     w3 ch' = w3 ch ∧ account ch' = account ch ∧ m <= a2 ∧
                     match r1 with
                     | None => broadcasts (trace o1) = [] ∧ builds (trace o1) = []
                     | Some h =>
                         broadcasts (trace o1) = [h] ∧
                         builds (trace o1) = [Approve spender (approve_amount m)]
                     end).
  { destruct r1 as [h|].
    - destruct H1 as (a & -> & Ha & Hcs & Hbr & Hbu).
      exists (bump_nonce ch). rewrite Hcs, lookup_insert_eq.
      pose proof (approve_amount_ge m). repeat split; auto; lia.
    - destruct H1 as (a & -> & Ha & Hcs & Hsil & Hbu).
      exists ch. rewrite Hcs. specialize (Hledger a). rewrite Htr1 in Hledger.
      specialize (Hledger eq_refl).
      repeat split; auto; [lia|]. apply silent_broadcasts. exact Hsil. }
  destruct Hfirst as (ch' & Hc' & Hw & Ha & Hm & Hfirst).
  pose proof (ensure_allowance_post fuel c ch' token spender m (final o1) Hc') as H2.
  unfold post in H2. fold o2 in H2. rewrite Hw, Ha in H2.
  destruct H2 as (Hn2 & r0' & tr2 & Htr2 & H2).
  rewrite Htr2 in Hhead. cbn [head] in Hhead. injection Hhead as ->.
  destruct (result o2) as [[h2|]|e|].
  - destruct H2 as (a & [= <-] & Hlt & _). lia.
  - destruct H2 as (a & _ & _ & _ & Hsil & Hbu).
    pose proof (silent_broadcasts _ Hsil) as Hbr2.
    rewrite broadcasts_app, builds_app, Hbr2, Hbu, !app_nil_r.
    split; [reflexivity|]. split; [exact Hsil|]. split; [reflexivity|].
    pose proof (approve_amount_ge m).
    destruct r1 as [h|]; destruct Hfirst as [-> ->]; cbn [length]; repeat split; auto.
  - destruct H2 as [H2 _]. specialize (H2 a2 eq_refl). lia.
  - destruct H2 as [H2 _]. specialize (H2 a2 eq_refl). lia.
Qed.

End AllowanceFacts.

(** * Token withdrawal *)
Section WithdrawFacts.
Context {W : Type} `{!Web3 W}.
Implicit Types st : state W.

Lemma post_true {A} (m : M W A) st : post m st (fun _ _ _ => True).
Proof. exact I. Qed.

(** C8. When [withdraw_erc20_to_l1] reads a zero token balance on the
    destination chain and then a native balance below 0.01 ether on the
    source chain, it raises the recovery-failed error, having made those
    reads only: it builds, signs and broadcasts no transaction and leaves
    every [Chain] object as it was. *)
Theorem withdraw_erc20_recovery_impossible fuel l2 l1 ch1 ch2 l2_token amount st b :
  chains st !! l1 = Some ch1 → chains st !! l2 = Some ch2 →
  let o := withdraw_erc20_to_l1 fuel l2 l1 l2_token amount st in
  head (trace o) = Some (EvCall (w3 ch2) l2_token (BalanceOf (account ch2)) (inr 0)) →
  head (balance_polls (trace o)) = Some (inr b) →
  b < recovery_threshold_wei →
  result o = Exn (RuntimeError "L2 ERC-20 代币余额不足，已尝试自动获取但失败") ∧
  (∃ rd, trace o = [EvCall (w3 ch2) l2_token (BalanceOf (account ch2)) (inr 0);
                    EvCall (w3 ch2) l2_token Decimals rd;
                    EvGetBalance (w3 ch1) (account ch2) (inr b)]) ∧
  Forall (fun ev => submits ev = false) (trace o) ∧
  builds (trace o) = [] ∧
  chains (final o) = chains st ∧ next_chain (final o) = next_chain st.
Proof.
  intros Hc1 Hc2. cbn zeta.
  change (post (withdraw_erc20_to_l1 fuel l2 l1 l2_token amount) st (fun r st' tr =>
    head tr = Some (EvCall (w3 ch2) l2_token (BalanceOf (account ch2)) (inr 0)) →
    head (balance_polls tr) = Some (inr b) →
    b < recovery_threshold_wei →
    r = Exn (RuntimeError "L2 ERC-20 代币余额不足，已尝试自动获取但失败") ∧
    (∃ rd, tr = [EvCall (w3 ch2) l2_token (BalanceOf (account ch2)) (inr 0);
                 EvCall (w3 ch2) l2_token Decimals rd;
                 EvGetBalance (w3 ch1) (account ch2) (inr b)]) ∧
    Forall (fun ev => submits ev = false) tr ∧
    builds tr = [] ∧
    chains st' = chains st ∧ next_chain st' = next_chain st)).
  unfold withdraw_erc20_to_l1, get_erc20_balance.
  apply post_bind. apply post_bind. apply post_get_chain with ch2; [exact Hc2|].
  apply post_bind. apply post_request. intros r0 w0 _.
  destruct r0 as [e|bal]; [intros [=]|].
  apply post_bind. apply post_decimals. intros d rd wd.
  unfold post at 1. tr_simpl.
  destruct (bal =? 0) eqn:Ebal.
  2:{ eapply post_mono; [apply post_true|]. cbn beta.
      intros ? ? ? _ [= ->]. discriminate. }
  apply Z.eqb_eq in Ebal. subst bal.
  apply post_bind. apply post_try. unfold auto_acquire.
  apply post_bind. apply post_get_chain with ch1; [exact Hc1|].
  apply post_bind. apply post_get_chain with ch2; [exact Hc2|].
  apply post_bind. apply post_request. intros rb wb _.
  destruct rb as [e|bb].
  { unfold post. tr_simpl. intros _ [=]. }
  destruct (bb <? recovery_threshold_wei) eqn:Ebb.
  2:{ apply Z.ltb_ge in Ebb. eapply post_mono; [apply post_true|]. cbn beta.
      intros r s t _. destruct r as [[|]|e|].
      - tr_simpl. intros _ [= ->]. lia.
      - unfold post. tr_simpl. intros _ [= ->]. lia.
      - unfold post. tr_simpl. intros _ [= ->]. lia.
      - tr_simpl. intros _ [= ->]. lia. }
  unfold post. tr_simpl. intros _ [= ->] _.
  split; [reflexivity|]. split; [exists rd; reflexivity|].
  split; [repeat constructor|]. auto.
Qed.

End WithdrawFacts.

(** * Nonces never go down *)
Section NonceRules.
Context {W : Type} `{!Web3 W}.
Implicit Types st : state W.

Lemma nonces_grow_refl st : nonces_grow st st.
Proof. intros c ch Hc. exists ch. auto with lia. Qed.

Lemma nonces_grow_trans st1 st2 st3 :
  nonces_grow st1 st2 → nonces_grow st2 st3 → nonces_grow st1 st3.
Proof.
  intros H12 H23 c ch Hc.
  destruct (H12 c ch Hc) as (ch2 & Hc2 & ? & ? & ? & ?).
  destruct (H23 c ch2 Hc2) as (ch3 & Hc3 & ? & ? & ? & ?).
  exists ch3. repeat split; [exact Hc3|lia|congruence..].
Qed.

Lemma keeps_same {A} (m : M W A) :
  (∀ st, post m st (fun _ st' _ =>
     chains st' = chains st ∧ next_chain st' = next_chain st)) →
  keeps_nonces m.
Proof.
  intros Hm st Hf. eapply post_mono; [apply Hm|]. cbn beta.
  intros _ s _ (Hc & Hn). split; [|split].
  - intros c. rewrite Hc, Hn. apply Hf.
  - lia.
  - intros c ch. rewrite Hc. intros Hch. exists ch. auto with lia.
Qed.

Lemma keeps_quiet {A} (m : M W A) : quiet m → keeps_nonces m.
Proof.
  intros Hq. apply keeps_same. intros st. eapply post_mono; [apply Hq|].
  cbn beta. tauto.
Qed.

Lemma keeps_request {A} (op : W → (exn + A) * W) (ev : exn + A → event) :
  keeps_nonces (request op ev).
Proof.
  apply keeps_same. intros st. apply post_request. intros [e|a] w _; auto.
Qed.

Lemma keeps_bind {A B} (m : M W A) (k : A → M W B) :
  keeps_nonces m → (∀ a, keeps_nonces (k a)) → keeps_nonces (bind m k).
Proof.
  intros Hm Hk st Hf. apply post_bind. eapply post_mono; [apply Hm; exact Hf|].
  intros r s t (Hfs & Hn & Hg). destruct r; auto.
  eapply post_mono; [apply Hk; exact Hfs|]. cbn beta.
  intros r' s' t' (Hfs' & Hn' & Hg'). split; [exact Hfs'|]. split; [lia|].
  eapply nonces_grow_trans; eassumption.
Qed.

Lemma keeps_try {A} (m : M W A) (h : exn → M W A) :
  keeps_nonces m → (∀ e, keeps_nonces (h e)) → keeps_nonces (try_except m h).
Proof.
  intros Hm Hh st Hf. apply post_try. eapply post_mono; [apply Hm; exact Hf|].
  intros r s t (Hfs & Hn & Hg). destruct r; auto.
  eapply post_mono; [apply Hh; exact Hfs|]. cbn beta.
  intros r' s' t' (Hfs' & Hn' & Hg'). split; [exact Hfs'|]. split; [lia|].
  eapply nonces_grow_trans; eassumption.
Qed.

Lemma keeps_incr_nonce c : keeps_nonces (W := W) (incr_nonce c).
Proof.
  intros st Hf. unfold post, incr_nonce.
  destruct (chains st !! c) as [ch|] eqn:Hc; proj_simpl.
  2:{ split; [exact Hf|]. split; [lia|apply nonces_grow_refl]. }
  split; [|split; [lia|]].
  - intros c' Hle. proj_simpl. rewrite lookup_insert_ne; [apply Hf; exact Hle|].
    intros ->. rewrite Hf in Hc by exact Hle. discriminate.
  - intros c' ch' Hc'. proj_simpl. destruct (decide (c = c')) as [<-|Hne].
    + rewrite lookup_insert_eq. exists (bump_nonce ch).
      assert (ch' = ch) as -> by congruence. cbn. auto with lia.
    + rewrite lookup_insert_ne by exact Hne. exists ch'. auto with lia.
Qed.

Lemma keeps_new_chain ch : keeps_nonces (W := W) (new_chain ch).
Proof.
  intros st Hf. unfold post, new_chain. proj_simpl. split; [|split; [lia|]].
  - intros c Hle. proj_simpl. rewrite lookup_insert_ne by lia. apply Hf. lia.
  - intros c ch' Hc. proj_simpl.
    assert (c ≠ next_chain st) by (intros ->; rewrite Hf in Hc by lia; discriminate).
    rewrite lookup_insert_ne by congruence. exists ch'. auto with lia.
Qed.

End NonceRules.

Ltac keeps_step :=
  match goal with
  | |- keeps_nonces (bind _ _) => apply keeps_bind; [|intros ?]
  | |- keeps_nonces (try_except _ _) => apply keeps_try; [|intros ?]
  | |- keeps_nonces (request _ _) => apply keeps_request
  | |- keeps_nonces (incr_nonce _) => apply keeps_incr_nonce
  | |- keeps_nonces (new_chain _) => apply keeps_new_chain
  | |- keeps_nonces (if ?b then _ else _) => destruct b
  | |- keeps_nonces (match ?x with _ => _ end) => destruct x
  | |- keeps_nonces _ => solve [apply keeps_quiet; auto with quiet]
  | |- keeps_nonces _ => solve [auto]
  end.

Ltac keeps_tac := repeat keeps_step.

Section NonceEngine.
Context {W : Type} `{!Web3 W}.

Lemma keeps_submit c ch tx sp : keeps_nonces (submit c ch tx sp).
Proof.
  unfold submit, sign, rpc_send_raw_transaction.
  pose proof (fun k t => keeps_quiet _ (quiet_bump_fee (W := W) k t)). keeps_tac.
Qed.

Lemma keeps_build_and_send fuel c tx sp : keeps_nonces (build_and_send fuel c tx sp).
Proof.
  unfold build_and_send.
  pose proof (fun ch t => keeps_quiet _ (quiet_fill_transaction ch t)).
  pose proof (fun f c ch t => keeps_quiet _ (quiet_guard_l2_balance f c ch t)).
  pose proof keeps_submit. keeps_tac.
Qed.

Lemma keeps_wait_receipt fuel n h timeout :
  keeps_nonces (wait_receipt_with_progress fuel n h timeout).
Proof. apply keeps_quiet, quiet_wait_receipt_with_progress. Qed.

Lemma keeps_check_and_claim fuel c token required token_name :
  keeps_nonces (check_and_claim_erc20_balance fuel c token required token_name).
Proof.
  unfold check_and_claim_erc20_balance, rpc_call, rpc_build_transaction.
  pose proof keeps_build_and_send. pose proof keeps_wait_receipt. keeps_tac.
Qed.

Lemma keeps_get_erc20_balance c token : keeps_nonces (get_erc20_balance c token).
Proof. apply keeps_quiet, quiet_get_erc20_balance. Qed.

Lemma keeps_ensure_allowance fuel c token spender m :
  keeps_nonces (ensure_allowance fuel c token spender m).
Proof.
  unfold ensure_allowance, rpc_call, rpc_build_transaction.
  pose proof keeps_build_and_send. pose proof keeps_wait_receipt. keeps_tac.
Qed.

Lemma keeps_deposit_erc20_to_l2 fuel l1 l2 l1_token l2_token amount :
  keeps_nonces (deposit_erc20_to_l2 fuel l1 l2 l1_token l2_token amount).
Proof.
  unfold deposit_erc20_to_l2, rpc_build_transaction.
  pose proof keeps_build_and_send. pose proof keeps_wait_receipt.
  pose proof keeps_check_and_claim. pose proof keeps_get_erc20_balance.
  pose proof keeps_ensure_allowance. keeps_tac.
Qed.

Lemma keeps_auto_acquire fuel l2 l1 l2_token amount :
  keeps_nonces (auto_acquire fuel l2 l1 l2_token amount).
Proof.
  unfold auto_acquire, rpc_get_balance, rpc_get_transaction_count.
  pose proof keeps_check_and_claim. pose proof keeps_get_erc20_balance.
  pose proof keeps_deposit_erc20_to_l2. keeps_tac.
Qed.

Lemma keeps_withdraw_erc20_to_l1 fuel l2 l1 l2_token amount :
  keeps_nonces (withdraw_erc20_to_l1 fuel l2 l1 l2_token amount).
Proof.
  unfold withdraw_erc20_to_l1, rpc_build_transaction.
  pose proof keeps_build_and_send. pose proof keeps_wait_receipt.
  pose proof keeps_get_erc20_balance. pose proof keeps_auto_acquire. keeps_tac.
Qed.

End NonceEngine.

(** * The default gas cap *)
Section GasCap.
Context {W : Type} `{!Web3 W}.
Implicit Types st : state W.

Lemma setdefault_lookup_ne k k' v (tx : tx_dict) :
  k ≠ k' → setdefault k v tx !! k' = tx !! k'.
Proof.
  intros Hne. unfold setdefault. destruct (tx !! k); [reflexivity|].
  apply lookup_insert_ne. exact Hne.
Qed.

Lemma len_gt_2 n : (2 <? Z.of_nat n) = (2 <? n)%nat.
Proof.
  destruct (2 <? n)%nat eqn:E; [apply Nat.ltb_lt in E|apply Nat.ltb_ge in E]; lia.
Qed.

Lemma default_gas_cap_eq (tx : tx_dict) st :
  (∀ z, tx !! "data" = Some (VInt z) → z = 0) →
  default_gas_cap tx st = mkOut (Ok (payload_cap tx)) st [].
Proof.
  intros Hint. unfold default_gas_cap, payload_cap, dict_get.
  destruct (tx !! "data") as [[|z|s|s]|]; unfold default, from_option, id;
    try reflexivity.
  - rewrite (Hint z eq_refl). reflexivity.
  - destruct s as [|a s]; [reflexivity|].
    unfold truthy, py_len, lift, bind, ret.
    cbn [String.length Nat.eqb negb result final trace app].
    rewrite len_gt_2. reflexivity.
  - destruct s as [|a s]; [reflexivity|].
    unfold truthy, py_len, lift, bind, ret.
    cbn [String.length Nat.eqb negb result final trace app].
    rewrite len_gt_2. reflexivity.
Qed.

Lemma payload_cap_same_data (tx tx' : tx_dict) :
  tx' !! "data" = tx !! "data" → payload_cap tx' = payload_cap tx.
Proof. unfold payload_cap. intros ->. reflexivity. Qed.

Lemma payload_cap_cases (tx : tx_dict) :
  (payload_cap tx = 700000 ∧
   ∃ s, (tx !! "data" = Some (VStr s) ∨ tx !! "data" = Some (VBytes s)) ∧
        (2 < String.length s)%nat) ∨
  (payload_cap tx = 300000 ∧
   ∀ s, tx !! "data" = Some (VStr s) ∨ tx !! "data" = Some (VBytes s) →
        (String.length s <= 2)%nat).
Proof.
  unfold payload_cap.
  destruct (tx !! "data") as [[|z|s|s]|];
    try (right; split; [reflexivity|]; intros ? [[=]|[=]]; fail).
  all: destruct (2 <? String.length s)%nat eqn:E;
    [apply Nat.ltb_lt in E; left; split; [reflexivity|]; exists s; auto|
     apply Nat.ltb_ge in E; right; split; [reflexivity|];
     intros ? [[= <-]|[= <-]]; exact E].
Qed.

Lemma pure_ret {A} (a : A) : pure_comp (ret (W := W) a).
Proof. intros st. auto. Qed.

Lemma pure_raise {A} e : pure_comp (raise (W := W) (A := A) e).
Proof. intros st. auto. Qed.

Lemma pure_lift {A} (r : exn + A) : pure_comp (lift (W := W) r).
Proof. destruct r; intros st; auto. Qed.

Lemma pure_bind {A B} (m : M W A) (k : A → M W B) :
  pure_comp m → (∀ a, pure_comp (k a)) → pure_comp (bind m k).
Proof.
  intros Hm Hk st. destruct (Hm st) as [Hf Ht]. unfold bind.
  destruct (result (m st)) as [a| |]; proj_simpl; auto.
  destruct (Hk a (final (m st))) as [Hf' Ht']. rewrite Hf', Ht', Ht, Hf. auto.
Qed.

Lemma pure_to_wei_gwei tip : pure_comp (to_wei_gwei tip).
Proof. destruct (to_wei_gwei_pure tip) as [r Hr]. intros st. rewrite Hr. auto. Qed.

Lemma pure_float_of_int z : pure_comp (W := W) (float_of_int z).
Proof. unfold float_of_int. destruct (PyFloat.of_int z); intros st; auto. Qed.

Lemma pure_int_of_float f : pure_comp (W := W) (int_of_float f).
Proof. unfold int_of_float. destruct (PyFloat.to_int f); intros st; auto. Qed.

Lemma get_eip1559_fees_trace n tip mult st :
  ∃ r, trace (get_eip1559_fees n tip mult st) = [EvFeeHistory n r].
Proof.
  assert (Hk : ∀ base, pure_comp (
            priority <- to_wei_gwei tip ;;
            b <- float_of_int base ;;
            p2 <- float_of_int (priority * 2) ;;
            max_fee <- int_of_float (PyFloat.add (PyFloat.mul b mult) p2) ;;
            ret (W := W) (base, priority, max_fee))).
  { intros base. repeat (apply pure_bind; [|intros ?]);
      auto using pure_to_wei_gwei, pure_float_of_int, pure_int_of_float, pure_ret. }
  unfold get_eip1559_fees. unfold bind at 1.
  unfold try_except, rpc_fee_history, request.
  destruct (fee_history_base n (world st)) as [[e|b] w]; tr_simpl.
  - destruct (Hk two_gwei (mkState w (chains st) (next_chain st))) as [_ ->]. eauto.
  - destruct (Hk b (mkState w (chains st) (next_chain st))) as [_ ->]. eauto.
Qed.

(** The transaction [fill_transaction] returns when the caller set no gas:
    the gas is at most the cap, and the cap itself when estimation raised. *)
Lemma fill_transaction_gas ch (tx : tx_dict) st :
  tx !! "gas" = None →
  (∀ z, tx !! "data" = Some (VInt z) → z = 0) →
  post (fill_transaction ch tx) st (fun r _ tr =>
    ∀ tx', r = Ok tx' →
      ∃ g, tx' !! "gas" = Some (VInt g) ∧ g <= payload_cap tx ∧
           (∀ n t e, EvEstimateGas n t (inl e) ∈ tr → g = payload_cap tx)).
Proof.
  intros Hgas Hdata. unfold fill_transaction.
  destruct (fee_profile (name ch)) as [tip mult].
  apply post_bind. unfold post at 1.
  destruct (get_eip1559_fees_trace (w3 ch) tip mult st) as [rf ->].
  destruct (result _) as [[[base tp] mf]| |]; [|intros ? [=]|intros ? [=]].
  set (s1 := final _).
  apply post_bind. apply post_request. intros [e|cid] w _; [intros ? [=]|].
  set (tx4 := setdefault "nonce" _ (setdefault "chainId" _ (setdefault "maxFeePerGas" _
                (setdefault "maxPriorityFeePerGas" _ tx)))).
  assert (H4 : ∀ k, k = "gas" ∨ k = "data" → tx4 !! k = tx !! k).
  { intros k Hk. subst tx4.
    rewrite !setdefault_lookup_ne; [reflexivity|..];
      intros <-; destruct Hk; discriminate. }
  rewrite (H4 "gas") by auto. rewrite Hgas.
  apply post_bind. eapply post_eq.
  { apply default_gas_cap_eq. rewrite (H4 "data") by auto. exact Hdata. }
  rewrite (payload_cap_same_data tx tx4) by (apply H4; auto).
  apply post_bind. apply post_try.
  pose proof (estimate_and_cap_gas_out (w3 ch) (<["from" := VStr (account ch)]> tx4)
                (payload_cap tx) (mkState w (chains s1) (next_chain s1)))
    as (g & Hr & Hle & Htr & Hg).
  unfold post at 1. rewrite Hr, Htr.
  unfold post. tr_simpl. intros tx' [= <-].
  exists g. rewrite lookup_insert_eq. split; [reflexivity|]. split; [exact Hle|].
  intros n t e Hin. cbn [app] in Hin.
  repeat (apply elem_of_cons in Hin; destruct Hin as [Hin|Hin]; try discriminate).
  - injection Hin as _ _ Hin. cbn [world] in Hg.
    rewrite <- Hin in Hg. exact Hg.
  - apply elem_of_nil in Hin. contradiction.
Qed.

Lemma bump_fee_keeps k (tx : tx_dict) st :
  post (bump_fee k tx) st (fun r st' tr =>
    st' = st ∧ tr = [] ∧
    ∀ tx1, r = Ok tx1 → ∀ k', k ≠ k' → tx1 !! k' = tx !! k').
Proof.
  unfold post, bump_fee, bind, dict_item, as_int.
  destruct (tx !! k) as [[|z|b|b]|]; tr_simpl; try (repeat split; auto; discriminate).
  pose proof (int_mul_float_eq z REPLACE_BUMP st) as Hm.
  destruct (int_times z REPLACE_BUMP) as [z'|].
  - rewrite Hm. tr_simpl. repeat split; auto.
    intros tx1 [= <-] k' Hne. apply lookup_insert_ne. exact Hne.
  - destruct Hm as [e ->]. tr_simpl. repeat split; auto; discriminate.
Qed.

Lemma submit_signings_gas c ch (tx : tx_dict) sp st :
  chains st !! c = Some ch →
  post (submit c ch tx sp) st (fun _ _ tr =>
    ∀ tx' r, (tx', r) ∈ signings tr → tx' !! "gas" = tx !! "gas").
Proof.
  intros Hc.
  assert (Hone : ∀ (tx' : tx_dict) (r r0 : exn + rawtx),
            (tx', r) ∈ [(tx, r0)] → tx' !! "gas" = tx !! "gas").
  { intros tx' r r0 Hin. apply list_elem_of_singleton in Hin. congruence. }
  unfold submit. apply post_bind. apply post_request. intros [e|raw] w _.
  { tr_simpl. intros tx' r. apply Hone. }
  apply post_try. apply post_bind. apply post_request. intros [e1|h] w1 _.
  2:{ apply post_bind. eapply post_incr_nonce; [exact Hc|].
      unfold post; tr_simpl; intros tx' r; apply Hone. }
  destruct (sp && is_underpriced e1).
  2:{ unfold post. tr_simpl. intros tx' r. apply Hone. }
  apply post_bind. eapply post_mono; [apply bump_fee_keeps|]. cbn beta.
  intros r1 s1 t1 (-> & -> & Hk1).
  destruct r1 as [tx1| |]; try (tr_simpl; intros tx' r; apply Hone).
  apply post_bind. eapply post_mono; [apply bump_fee_keeps|]. cbn beta.
  intros r2 s2 t2 (-> & -> & Hk2).
  destruct r2 as [tx2| |]; try (tr_simpl; intros tx' r; apply Hone).
  assert (Htx2 : tx2 !! "gas" = tx !! "gas").
  { rewrite (Hk2 tx2 eq_refl) by discriminate. apply (Hk1 tx1 eq_refl). discriminate. }
  assert (Htwo : ∀ (tx' : tx_dict) (r r0 r3 : exn + rawtx),
            (tx', r) ∈ [(tx, r0); (tx2, r3)] → tx' !! "gas" = tx !! "gas").
  { intros tx' r r0 r3 Hin. apply elem_of_cons in Hin. destruct Hin as [[= -> _]|Hin];
      [reflexivity|]. apply list_elem_of_singleton in Hin. congruence. }
  apply post_bind. apply post_request. intros [e|raw2] w2 _.
  { tr_simpl. intros tx' r. apply Htwo. }
  apply post_bind. apply post_request. intros [e2|h] w3 _.
  { tr_simpl. intros tx' r. apply Htwo. }
  apply post_bind. eapply post_incr_nonce; [exact Hc|].
  unfold post; tr_simpl; intros tx' r; apply Htwo.
Qed.

Lemma build_and_send_gas fuel c ch (tx : tx_dict) sp st :
  chains st !! c = Some ch →
  tx !! "gas" = None →
  (∀ z, tx !! "data" = Some (VInt z) → z = 0) →
  post (build_and_send fuel c tx sp) st (fun _ _ tr =>
    ∀ tx' r, (tx', r) ∈ signings tr →
      ∃ g, tx' !! "gas" = Some (VInt g) ∧ g <= payload_cap tx).
Proof.
  intros Hc Hgas Hdata. unfold build_and_send.
  apply post_bind. apply post_get_chain with ch; [exact Hc|].
  apply post_bind. eapply post_mono.
  { apply post_conj; [apply fill_transaction_gas; assumption|].
    apply quiet_fill_transaction. }
  cbn beta. intros r1 s1 t1 (Hfill & Hc1 & _ & Ht1).
  apply silent_no_submission in Ht1. destruct Ht1 as (_ & Hsg1 & _).
  destruct r1 as [txf| |];
    try (tr_simpl; rewrite Hsg1; intros ? ? Hin; apply elem_of_nil in Hin; contradiction).
  destruct (Hfill txf eq_refl) as (g & Hg & Hle & _).
  apply post_bind. apply post_quiet; [apply quiet_guard_l2_balance|].
  intros r2 s2 t2 Hc2 _ Ht2.
  apply silent_no_submission in Ht2. destruct Ht2 as (_ & Hsg2 & _).
  destruct r2 as [[]| |];
    try (tr_simpl; rewrite signings_app, Hsg1, Hsg2; intros ? ? Hin;
         apply elem_of_nil in Hin; contradiction).
  eapply post_mono; [apply submit_signings_gas; rewrite Hc2, Hc1; exact Hc|]. cbn beta.
  intros r3 s3 t3 Hsub tx' r. tr_simpl.
  rewrite !signings_app, Hsg1, Hsg2. cbn [app]. intros Hin.
  exists g. rewrite (Hsub tx' r Hin). auto.
Qed.

(** C10. When the caller of [build_and_send] sets no gas, the default cap
    is 700,000 exactly when the transaction carries a [data] entry (a string
    or bytes) longer than 2, and 300,000 otherwise: ["0x"] gets 300,000.
    [default_gas_cap] computes that cap for every [data] that is not a
    non-zero integer (on which [len] raises), and every transaction the call
    signs carries a gas limit no higher than the cap. *)
Theorem default_gas_cap_by_payload fuel c ch (tx : tx_dict) sp st :
  chains st !! c = Some ch →
  tx !! "gas" = None →
  (∀ z, tx !! "data" = Some (VInt z) → z = 0) →
  default_gas_cap tx st = mkOut (Ok (payload_cap tx)) st [] ∧
  ((payload_cap tx = 700000 ∧
    ∃ s, (tx !! "data" = Some (VStr s) ∨ tx !! "data" = Some (VBytes s)) ∧
         (2 < String.length s)%nat) ∨
   (payload_cap tx = 300000 ∧
    ∀ s, tx !! "data" = Some (VStr s) ∨ tx !! "data" = Some (VBytes s) →
         (String.length s <= 2)%nat)) ∧
  (tx !! "data" = Some (VStr "0x") → payload_cap tx = 300000) ∧
  (∀ tx' r, (tx', r) ∈ signings (trace (build_and_send fuel c tx sp st)) →
     ∃ g, tx' !! "gas" = Some (VInt g) ∧ g <= payload_cap tx).
Proof.
  intros Hc Hgas Hdata.
  split; [apply default_gas_cap_eq; exact Hdata|].
  split; [apply payload_cap_cases|].
  split; [intros H0x; unfold payload_cap; rewrite H0x; reflexivity|].
  exact (build_and_send_gas fuel c ch tx sp st Hc Hgas Hdata).
Qed.

End GasCap.

(** * The faucet *)
Section FaucetFacts.
Context {W : Type} `{!Web3 W}.
Implicit Types st : state W.

(** What [check_and_claim_erc20_balance] does after reading the balance:
    with enough balance it succeeds at once and submits nothing; short of
    it, it never raises, and it fails only on a balance that is not positive
    or after having broadcast the claim. *)
Lemma check_and_claim_post fuel c ch token required token_name st :
  chains st !! c = Some ch →
  post (check_and_claim_erc20_balance fuel c token required token_name) st
    (fun r st' tr =>
       ∃ r0 tr', tr = EvCall (w3 ch) token (BalanceOf (account ch)) r0 :: tr' ∧
         match r0 with
         | inl e => r = Exn e
         | inr bal =>
             (required <= bal →
              r = Ok true ∧ builds tr = [] ∧ chains st' = chains st ∧
              Forall (fun ev => submits ev = false) tr) ∧
             (bal < required →
              match r with
              | Ok false => bal <= 0 ∨ broadcasts tr ≠ []
              | Ok true | OutOfFuel => True
              | Exn _ => False
              end)
         end).
Proof.
  intros Hc. unfold check_and_claim_erc20_balance.
  apply post_bind. apply post_get_chain with ch; [exact Hc|].
  apply post_bind. apply post_request. intros r0 w _.
  destruct r0 as [e|bal]; [eexists _, []; split; reflexivity|].
  apply post_bind. apply post_decimals. intros d rd wd.
  destruct (required <=? bal) eqn:Er; [apply Z.leb_le in Er|apply Z.leb_gt in Er].
  { unfold post. tr_simpl. eexists _, _. split; [reflexivity|].
    split; [|lia]. intros _. repeat split; auto. }
  assert (Hfallback : ∀ s,
            post (if 0 <? bal then ret (W := W) true else ret false) s
              (fun r _ _ => match r with
                            | Ok false => bal <= 0
                            | Ok true => True
                            | Exn _ | OutOfFuel => False
                            end)).
  { intros s. destruct (0 <? bal) eqn:E0; unfold post; tr_simpl; [exact I|].
    apply Z.ltb_ge in E0. exact E0. }
  apply post_mono with (Q := fun r _ t =>
      match r with
      | Ok false => bal <= 0 ∨ broadcasts t ≠ []
      | Ok true | OutOfFuel => True
      | Exn _ => False
      end).
  2:{ intros r s t Hr. eexists _, _. split; [reflexivity|].
      split; [lia|]. intros _. exact Hr. }
  apply post_try. apply post_bind. apply post_request. intros rb wb _.
  destruct rb as [e|txc].
  { eapply post_mono; [apply Hfallback|]. cbn beta.
    intros r s t Hr. destruct r as [[|]| |]; auto. }
  apply post_send_and_wait with ch; [exact Hc| |].
  - intros h rc s t Hn Hb Hbr Hcs.
    assert (Hne : ∀ ev t', broadcasts ((ev :: t) ++ t') ≠ []).
    { intros ev t'. rewrite broadcasts_app. intros Happ.
      apply app_eq_nil in Happ. destruct Happ as [Happ _].
      destruct ev; cbn [broadcasts] in Happ; try destruct r; congruence. }
    destruct (receipt_ok rc).
    + apply post_bind. apply post_sleep.
      apply post_bind. apply post_request. intros [e|nb] wn _.
      * eapply post_mono; [apply Hfallback|]. cbn beta.
        intros r s' t' Hr. destruct r as [[|]| |]; auto.
      * destruct (required <=? nb); [|destruct (0 <? nb)]; unfold post;
          cbn [ret result final trace]; try exact I.
        right. apply Hne.
    + unfold post. cbn [ret result final trace]. right. apply Hne.
  - intros s t Hn Hb Hcase. split.
    + intros e. eapply post_mono; [apply Hfallback|]. cbn beta.
      intros r s' t' Hr. destruct r as [[|]| |]; auto.
    + exact I.
Qed.

End FaucetFacts.

(** * The claims on nonces, retries and polling *)
Section Claims.
Context {W : Type} `{!Web3 W}.
Implicit Types st : state W.

(** C1. A call of [build_and_send] on a [Chain] object advances its nonce by
    the number of transactions it broadcast with success: by exactly 1 when
    the call returns (one broadcast accepted, at the first attempt or at the
    bumped retry), and not at all when it raises.  The other [Chain] objects
    are untouched, and no operation of the engine ever decrements a nonce. *)
Theorem build_and_send_nonce fuel c ch tx sp st :
  chains st !! c = Some ch →
  let o := build_and_send fuel c tx sp st in
  (∃ ch', chains (final o) !! c = Some ch' ∧
     nonce ch' = nonce ch + Z.of_nat (length (broadcasts (trace o))) ∧
     match result o with
     | Ok h => broadcasts (trace o) = [h] ∧ nonce ch' = nonce ch + 1
     | Exn _ | OutOfFuel => broadcasts (trace o) = [] ∧ nonce ch' = nonce ch
     end) ∧
  (∀ c', c' ≠ c → chains (final o) !! c' = chains st !! c') ∧
  ((∀ fuel' c' tx' sp', keeps_nonces (build_and_send (W := W) fuel' c' tx' sp')) ∧
   (∀ fuel' c' token required token_name,
      keeps_nonces
        (check_and_claim_erc20_balance (W := W) fuel' c' token required token_name)) ∧
   (∀ fuel' c' token spender m,
      keeps_nonces (ensure_allowance (W := W) fuel' c' token spender m)) ∧
   (∀ fuel' l1 l2 l1_token l2_token amount,
      keeps_nonces (deposit_erc20_to_l2 (W := W) fuel' l1 l2 l1_token l2_token amount)) ∧
   (∀ fuel' l2 l1 l2_token amount,
      keeps_nonces (withdraw_erc20_to_l1 (W := W) fuel' l2 l1 l2_token amount))).
Proof.
  intros Hc o.
  pose proof (build_and_send_sent_once fuel c ch tx sp st Hc) as Hs.
  unfold post in Hs. fold o in Hs. destruct Hs as [_ Hs].
  split; [|split].
  - destruct (result o) as [h|e|]; destruct Hs as [Hb Hcs]; rewrite Hb, Hcs.
    + exists (bump_nonce ch). rewrite lookup_insert_eq. cbn. auto.
    + exists ch. cbn. rewrite Z.add_0_r. auto.
    + exists ch. cbn. rewrite Z.add_0_r. auto.
  - intros c' Hne.
    destruct (result o); destruct Hs as [_ ->]; try reflexivity.
    apply lookup_insert_ne. congruence.
  - split; [|split; [|split; [|split]]]; intros.
    + apply keeps_build_and_send.
    + apply keeps_check_and_claim.
    + apply keeps_ensure_allowance.
    + apply keeps_deposit_erc20_to_l2.
    + apply keeps_withdraw_erc20_to_l1.
Qed.

(** C2, amended. With auto-retry on, when the first broadcast of
    [build_and_send] is rejected with an "underpriced" message (the fee
    fields signed being integers below 2^50), the call signs exactly one more
    transaction, equal to the first but for both fee fields, which are the
    integer parts of 1.25 times their first values (1.25 times exactly when
    the value is a multiple of 4); it keeps the nonce field; it broadcasts it
    once, and that answer is final: accepted, the call returns and the
    [Chain] nonce has advanced by 1; rejected, the error propagates and the
    nonce is unchanged. *)
Theorem build_and_send_underpriced_retry fuel c ch tx st tx1 s1 more p f raw1 e1 rest :
  chains st !! c = Some ch →
  let o := build_and_send fuel c tx true st in
  signings (trace o) = (tx1, s1) :: more →
  tx1 !! "maxPriorityFeePerGas" = Some (VInt p) →
  tx1 !! "maxFeePerGas" = Some (VInt f) →
  0 <= p < 2 ^ 50 → 0 <= f < 2 ^ 50 →
  sendings (trace o) = (raw1, inl e1) :: rest →
  is_underpriced e1 = true →
  retried c ch st tx1 p f raw1 e1 (result o) (final o) (trace o) ∧
  bumped tx1 p f !! "maxPriorityFeePerGas" = Some (VInt (5 * p / 4)) ∧
  bumped tx1 p f !! "maxFeePerGas" = Some (VInt (5 * f / 4)) ∧
  (∀ k, k ≠ "maxPriorityFeePerGas" → k ≠ "maxFeePerGas" →
        bumped tx1 p f !! k = tx1 !! k) ∧
  (4 * (5 * p / 4) = 5 * p ↔ p mod 4 = 0) ∧
  (4 * (5 * f / 4) = 5 * f ↔ f mod 4 = 0).
Proof.
  intros Hc o Hsg Hp Hf Hpr Hfr Hsd Hu.
  split.
  { exact (build_and_send_retried fuel c ch tx st Hc tx1 s1 more p f raw1 e1 rest
             Hsg Hp Hf Hpr Hfr Hsd Hu). }
  unfold bumped. split; [|split; [|split]].
  - rewrite lookup_insert_ne by discriminate. apply lookup_insert_eq.
  - apply lookup_insert_eq.
  - intros k Hk1 Hk2. rewrite !lookup_insert_ne by congruence. reflexivity.
  - split; split; intros Hm.
    + pose proof (Z.div_mod (5 * p) 4 ltac:(lia)) as Hd.
      assert ((5 * p) mod 4 = 0) as H0 by lia.
      pose proof (Z.mod_pos_bound p 4 ltac:(lia)).
      pose proof (Z.div_mod p 4 ltac:(lia)). 
      assert (5 * p = 4 * (5 * (p / 4) + p mod 4) + p mod 4) as Hq by lia.
      rewrite Hq in H0.
      rewrite Z.add_comm, Z.mul_comm, Z.mod_add in H0 by lia.
      rewrite Z.mod_mod in H0 by lia. exact H0.
    + apply Z.mod_divide in Hm; [|lia]. destruct Hm as [q ->].
      replace (5 * (q * 4)) with (5 * q * 4) by lia.
      rewrite Z.div_mul by lia. lia.
    + pose proof (Z.div_mod (5 * f) 4 ltac:(lia)) as Hd.
      assert ((5 * f) mod 4 = 0) as H0 by lia.
      pose proof (Z.mod_pos_bound f 4 ltac:(lia)).
      pose proof (Z.div_mod f 4 ltac:(lia)). 
      assert (5 * f = 4 * (5 * (f / 4) + f mod 4) + f mod 4) as Hq by lia.
      rewrite Hq in H0.
      rewrite Z.add_comm, Z.mul_comm, Z.mod_add in H0 by lia.
      rewrite Z.mod_mod in H0 by lia. exact H0.
    + apply Z.mod_divide in Hm; [|lia]. destruct Hm as [q ->].
      replace (5 * (q * 4)) with (5 * q * 4) by lia.
      rewrite Z.div_mul by lia. lia.
Qed.

(** C3. Under the clock laws and with enough fuel, for a balance [before]
    and a minimum credit [delta] that are not negative (amounts of wei, so
    that the credit found can be displayed), [wait_for_l2_credit] returns
    true exactly when one of the balances it polled shows the credit
    ([balance - before >= delta]), the last one it polled; it returns false
    exactly when every poll answered without showing it, and then the
    timeout has elapsed; it raises only the error of a balance read that
    raised, never on timeout. *)
Theorem wait_for_l2_credit_spec fuel l2 ch before delta timeout st clock :
  ClockLaws clock →
  chains st !! l2 = Some ch →
  (polls_within timeout 5 <= fuel)%nat →
  0 <= before → 0 <= delta →
  let o := wait_for_l2_credit fuel l2 before delta timeout st in
  let polls := balance_polls (trace o) in
  (result o = Ok true ↔ Exists (fun p => credited before delta p = true) polls) ∧
  (result o = Ok true →
   ∃ pre b, polls = pre ++ [inr b] ∧ delta <= b - before ∧ Forall (idle before delta) pre) ∧
  (result o = Ok false ↔ Forall (idle before delta) polls) ∧
  (result o = Ok false → timed_out timeout (trace o)) ∧
  (∀ e, result o = Exn e → last polls = Some (inl e)) ∧
  result o ≠ OutOfFuel.
Proof.
  intros L Hc Hf _ _ o polls.
  pose proof (wait_for_l2_credit_post fuel l2 ch before delta timeout st Hc) as Hp.
  pose proof (wait_for_l2_credit_total clock L fuel l2 before delta timeout st Hf) as Ht.
  cbn zeta in Hp. fold o in Hp, Ht. fold polls in Hp.
  assert (Hidle : ∀ l, Forall (idle before delta) l →
                       ¬ Exists (fun p => credited before delta p = true) l).
  { intros l Hl Hex. apply Exists_exists in Hex. destruct Hex as (p & Hin & Hcr).
    rewrite Forall_forall in Hl. destruct (Hl p Hin) as [Hn _]. congruence. }
  destruct (result o) as [[|]|e|].
  - destruct Hp as (pre & b & Hpolls & Hb & Hpre).
    repeat split; try discriminate; try congruence; eauto.
    + intros _. rewrite Hpolls. apply Exists_app. right. constructor.
      cbn. apply Z.leb_le. exact Hb.
    + intros Hall. exfalso. rewrite Hpolls in Hall.
      apply Forall_app in Hall. destruct Hall as [_ Hall].
      apply Forall_inv in Hall. destruct Hall as [Hcr _].
      cbn in Hcr. apply Z.leb_gt in Hcr. lia.
  - destruct Hp as [Hall Hto].
    repeat split; try discriminate; try congruence; auto.
    intros Hex. exfalso. exact (Hidle _ Hall Hex).
  - destruct Hp as (pre & Hpolls & Hpre).
    repeat split; try discriminate; try congruence.
    + intros Hex. exfalso. rewrite Hpolls in Hex. apply Exists_app in Hex.
      destruct Hex as [Hex|Hex]; [exact (Hidle _ Hpre Hex)|].
      apply Exists_cons in Hex. destruct Hex as [Hex|Hex]; [discriminate|].
      apply Exists_nil in Hex. exact Hex.
    + intros Hall. exfalso. rewrite Hpolls in Hall.
      apply Forall_app in Hall. destruct Hall as [_ Hall].
      apply Forall_inv in Hall. destruct Hall as [_ Hr]. discriminate.
    + intros e' [= <-]. rewrite Hpolls. apply last_snoc.
  - congruence.
Qed.

(** C9. Under the clock laws and with enough fuel,
    [wait_receipt_with_progress] never raises: it returns a receipt, of any
    status, exactly at the first poll that finds one, which is then its last
    request (polls that raised or found nothing came before), and it
    returns nothing when the timeout has elapsed with no receipt found. *)
Theorem wait_receipt_with_progress_spec fuel n h timeout st clock :
  ClockLaws clock →
  (polls_within timeout 2 <= fuel)%nat →
  let o := wait_receipt_with_progress fuel n h timeout st in
  match result o with
  | Ok (Some rc) =>
      (∃ pre, receipt_polls (trace o) = pre ++ [inr (Some rc)] ∧
              Forall (fun p => present p = false) pre) ∧
      (∃ tr', trace o = tr' ++ [EvGetReceipt n h (inr (Some rc))])
  | Ok None =>
      Forall (fun p => present p = false) (receipt_polls (trace o)) ∧
      timed_out timeout (trace o)
  | Exn _ | OutOfFuel => False
  end.
Proof.
  intros L Hf o.
  pose proof (wait_receipt_post fuel n h timeout st) as Hp.
  pose proof (wait_receipt_total clock L fuel n h timeout st Hf) as Ht.
  cbn zeta in Hp. fold o in Hp, Ht.
  destruct (result o) as [[rc|]|e|]; auto.
Qed.

End Claims.

(** * The key file *)
Section KeyFileFacts.
Variable strip : string → string.
Variable from_key : string → exn + address.
Variable files : string → option (list string).

Lemma omap_account_cons line rest :
  omap (account_of_line strip from_key) (line :: rest)
  = match account_of_line strip from_key line with
    | Some acct => acct :: omap (account_of_line strip from_key) rest
    | None => omap (account_of_line strip from_key) rest
    end.
Proof. reflexivity. Qed.

Lemma all_keys_omap lines accts :
  all_keys strip from_key lines accts
  = accts ++ omap (account_of_line strip from_key) lines.
Proof.
  revert accts. induction lines as [|line rest IH]; intros accts.
  - cbn. rewrite app_nil_r. reflexivity.
  - rewrite omap_account_cons. cbn [all_keys]. unfold account_of_line.
    destruct (key_of_line strip line) as [s|]; [|apply IH].
    destruct (from_key s) as [e|acct]; [apply IH|].
    rewrite IH, <- app_assoc. reflexivity.
Qed.

Lemma first_key_skips pre lines :
  Forall (fun l => key_of_line strip l = None) pre →
  first_key strip from_key (pre ++ lines) = first_key strip from_key lines.
Proof.
  induction 1 as [|l pre Hl _ IH]; [reflexivity|].
  cbn [app first_key]. rewrite Hl. exact IH.
Qed.

(** X1. [load_all_accounts] raises [FileNotFoundError] exactly when the file
    is missing; otherwise the accounts it finds are those of the lines that
    hold a key [Account.from_key] accepts, in the order of the file (blank
    lines, comment lines and refused keys count for nothing), and it returns
    them when they are at least two and raises [RuntimeError] when they are
    fewer: it never returns fewer than two accounts. *)
Theorem load_all_accounts_spec path :
  match load_all_accounts strip from_key files path with
  | inr accts =>
      ∃ lines, files path = Some lines ∧
        accts = omap (account_of_line strip from_key) lines ∧ (2 <= length accts)%nat
  | inl e =>
      (files path = None ∧ e = FileNotFoundError ("未找到私钥文件 " +:+ path)) ∨
      (∃ lines, files path = Some lines ∧
         (length (omap (account_of_line strip from_key) lines) < 2)%nat ∧
         e = RuntimeError "需要至少两个私钥（第一个为源账户，其余为接收账户）")
  end.
Proof.
  unfold load_all_accounts. destruct (files path) as [lines|]; [|left; auto].
  rewrite all_keys_omap. cbn [app].
  destruct (length _ <? 2)%nat eqn:E;
    [apply Nat.ltb_lt in E|apply Nat.ltb_ge in E].
  - right. exists lines. auto.
  - exists lines. auto.
Qed.

(** X2. [load_first_private_key] looks no further than the first line that
    holds a key: it returns the account [Account.from_key] makes of it, or
    raises what [Account.from_key] raises, whatever the lines after it
    hold.  (A key that is refused is skipped by [load_all_accounts], not by
    this function.) *)
Theorem load_first_private_key_first path pre line rest s :
  files path = Some (pre ++ line :: rest) →
  Forall (fun l => key_of_line strip l = None) pre →
  key_of_line strip line = Some s →
  load_first_private_key strip from_key files path = from_key s.
Proof.
  intros Hf Hpre Hline. unfold load_first_private_key. rewrite Hf.
  rewrite first_key_skips by exact Hpre.
  cbn [first_key]. rewrite Hline. reflexivity.
Qed.

Lemma first_key_head lines a :
  first_key strip from_key lines = inr a →
  head (omap (account_of_line strip from_key) lines) = Some a.
Proof.
  induction lines as [|line rest IH]; [discriminate|].
  rewrite omap_account_cons. cbn [first_key]. unfold account_of_line.
  destruct (key_of_line strip line) as [s|]; [|exact IH].
  intros ->. reflexivity.
Qed.

(** X3. When both readers of the key file return, the account of
    [load_first_private_key] is the first of [load_all_accounts]: the source
    account of [main] is [accounts_all[0]], so [all_accounts[1:]] are the
    other accounts. *)
Theorem load_first_is_head_of_all path a accts :
  load_first_private_key strip from_key files path = inr a →
  load_all_accounts strip from_key files path = inr accts →
  ∃ others, accts = a :: others ∧ others ≠ [].
Proof.
  unfold load_first_private_key, load_all_accounts.
  destruct (files path) as [lines|]; [|discriminate].
  rewrite all_keys_omap. cbn [app]. intros Hfirst.
  apply first_key_head in Hfirst.
  destruct (length _ <? 2)%nat eqn:E; [discriminate|]. apply Nat.ltb_ge in E.
  intros [= <-].
  destruct (omap _ lines) as [|a' [|b others]]; cbn in *; try lia.
  injection Hfirst as ->. exists (b :: others). split; [reflexivity|discriminate].
Qed.

End KeyFileFacts.

(** * Effects, part by part *)
Section EffectRules.
Context {W : Type} `{!Web3 W}.
Context (E : state W → state W → list event → Prop) `{!Effect E}.

Lemma within_ret {A} (a : A) : within E (ret a).
Proof. intros st. apply effect_nil. Qed.

Lemma within_raise {A} e : within E (raise (A := A) e).
Proof. intros st. apply effect_nil. Qed.

Lemma within_out_of_fuel {A} : within E (out_of_fuel (A := A)).
Proof. intros st. apply effect_nil. Qed.

Lemma within_lift {A} (r : exn + A) : within E (lift r).
Proof. destruct r; intros st; apply effect_nil. Qed.

Lemma within_bind {A B} (m : M W A) (k : A → M W B) :
  within E m → (∀ a, within E (k a)) → within E (bind m k).
Proof.
  intros Hm Hk st. specialize (Hm st). unfold bind.
  destruct (result (m st)) as [a| |]; proj_simpl; auto.
  eapply effect_app; [exact Hm|apply Hk].
Qed.

Lemma within_try {A} (m : M W A) (h : exn → M W A) :
  within E m → (∀ e, within E (h e)) → within E (try_except m h).
Proof.
  intros Hm Hh st. specialize (Hm st). unfold try_except.
  destruct (result (m st)) as [a|e|]; proj_simpl; auto.
  eapply effect_app; [exact Hm|apply Hh].
Qed.

Lemma within_request {A} (op : W → (exn + A) * W) (ev : exn + A → event) :
  (∀ r, allows E (ev r)) → within E (request op ev).
Proof.
  intros Hev st. unfold request.
  destruct (op (world st)) as [[e|a] w]; proj_simpl; apply Hev.
Qed.

Lemma within_now : (∀ t, allows E (EvTime t)) → within E now.
Proof.
  intros Hev st. unfold now. destruct (time_time (world st)); proj_simpl. apply Hev.
Qed.

Lemma within_sleep d : allows E (EvSleep d) → within E (sleep d).
Proof. intros Hev st. apply Hev. Qed.

Lemma within_get_chain c : within E (get_chain c).
Proof. intros st. unfold get_chain. destruct (chains st !! c); apply effect_nil. Qed.

Lemma within_as_int v : within E (as_int v).
Proof. destruct v; intros st; apply effect_nil. Qed.

Lemma within_dict_item k (tx : tx_dict) : within E (dict_item k tx).
Proof. unfold dict_item. destruct (tx !! k); intros st; apply effect_nil. Qed.

Lemma within_float_of_int z : within E (float_of_int z).
Proof. unfold float_of_int. destruct (PyFloat.of_int z); intros st; apply effect_nil. Qed.

Lemma within_int_of_float f : within E (int_of_float f).
Proof. unfold int_of_float. destruct (PyFloat.to_int f); intros st; apply effect_nil. Qed.

Lemma post_within {A} (m : M W A) st (Q : res A → state W → list event → Prop) :
  within E m → (∀ r st' tr, E st st' tr → Q r st' tr) → post m st Q.
Proof. intros Hm HQ. apply HQ. apply Hm. Qed.

End EffectRules.

Ltac within_side :=
  match goal with
  | |- Effect _ => apply _
  | |- ∀ _, _ => intros ?
  | |- _ => idtac
  end.

Section EffectInstances.
Context {W : Type} `{!Web3 W}.

#[export] Instance framed_effect c : Effect (W := W) (framed c).
Proof.
  split.
  - intros s. split; auto.
  - intros s1 s2 s3 t1 t2 [Hn1 Hc1] [Hn2 Hc2]. split; [congruence|].
    intros c' Hne. rewrite Hc2, Hc1 by exact Hne. reflexivity.
Qed.

#[export] Instance emitting_effect P : Effect (W := W) (emitting P).
Proof.
  split.
  - intros s. constructor.
  - intros s1 s2 s3 t1 t2 H1 H2. apply Forall_app. split; assumption.
Qed.

#[export] Instance building_effect S : Effect (W := W) (building S).
Proof.
  split.
  - intros s. constructor.
  - intros s1 s2 s3 t1 t2 H1 H2. unfold building. rewrite builds_app.
    apply Forall_app. split; assumption.
Qed.

Lemma framed_allows c ev : allows (W := W) (framed c) ev.
Proof. intros s w. split; reflexivity. Qed.

Lemma emitting_allows (P : event → Prop) ev : P ev → allows (W := W) (emitting P) ev.
Proof. intros HP s w. constructor; [exact HP|constructor]. Qed.

Lemma building_allows S ev : builds [ev] = [] → allows (W := W) (building S) ev.
Proof. intros Hb s w. unfold building. rewrite Hb. constructor. Qed.

Lemma building_allows_build (S : fncall → Prop) n c f p r :
  S f → allows (W := W) (building S) (EvBuild n c f p r).
Proof. intros HS s w. unfold building. cbn [builds]. constructor; [exact HS|constructor]. Qed.

Lemma emits_request (P : event → Prop) {A} (op : W → (exn + A) * W) (ev : exn + A → event) :
  (∀ r, P (ev r)) → within (emitting P) (request op ev).
Proof.
  intros HP. apply within_request; within_side. apply emitting_allows, HP.
Qed.

Lemma framed_quiet c {A} (m : M W A) : quiet m → within (framed c) m.
Proof. intros Hq st. destruct (Hq st) as (Hc & Hn & _). split; [exact Hn|]. rewrite Hc. auto. Qed.

Lemma building_unbuilt S {A} (m : M W A) : unbuilt m → within (building S) m.
Proof. intros Hu st. unfold building. rewrite (Hu st). constructor. Qed.

Lemma framed_incr_nonce c : within (W := W) (framed c) (incr_nonce c).
Proof.
  intros st. unfold incr_nonce. destruct (chains st !! c); proj_simpl.
  - split; [reflexivity|]. intros c' Hne. apply lookup_insert_ne. congruence.
  - split; auto.
Qed.

End EffectInstances.

Create HintDb within.
#[export] Hint Resolve within_ret within_raise within_out_of_fuel within_lift
  within_get_chain within_as_int within_dict_item within_float_of_int
  within_int_of_float framed_allows framed_incr_nonce framed_effect emitting_effect
  building_effect : within.
#[export] Hint Extern 1 (allows (emitting _) _) =>
  apply emitting_allows; exact I : within.
#[export] Hint Extern 1 (allows (building _) _) =>
  apply building_allows; reflexivity : within.

Ltac unfold_rpc :=
  unfold rpc_fee_history, rpc_chain_id, rpc_estimate_gas, rpc_get_balance,
    rpc_get_transaction_count, rpc_get_transaction_receipt, rpc_send_raw_transaction,
    rpc_call, rpc_build_transaction, sign.

Ltac within_step :=
  match goal with
  | |- within _ (bind _ _) => apply within_bind; within_side
  | |- within _ (try_except _ _) => apply within_try; within_side
  | |- within _ (request _ _) =>
      apply within_request; within_side; solve [auto with within]
  | |- within _ now => apply within_now; within_side; solve [auto with within]
  | |- within _ (sleep _) => apply within_sleep; within_side; solve [auto with within]
  | |- within _ (if ?b then _ else _) => destruct b
  | |- within _ (match ?x with _ => _ end) => destruct x
  | |- within _ (let '(_, _) := ?x in _) => destruct x
  | |- within _ _ => solve [auto with within]
  end.

Ltac within_tac := unfold_rpc; repeat within_step.

(** * Computations that end *)
Section EndsRules.
Context {W : Type} `{!Web3 W}.

Lemma ends_ret {A} (a : A) : ends (ret (W := W) a).
Proof. intros st. discriminate. Qed.

Lemma ends_raise {A} e : ends (raise (W := W) (A := A) e).
Proof. intros st. discriminate. Qed.

Lemma ends_lift {A} (r : exn + A) : ends (lift (W := W) r).
Proof. destruct r; intros st; discriminate. Qed.

Lemma ends_bind {A B} (m : M W A) (k : A → M W B) :
  ends m → (∀ a, ends (k a)) → ends (bind m k).
Proof.
  intros Hm Hk st. specialize (Hm st). unfold bind.
  destruct (result (m st)) as [a| |]; proj_simpl; [apply Hk|discriminate|congruence].
Qed.

Lemma ends_try {A} (m : M W A) (h : exn → M W A) :
  ends m → (∀ e, ends (h e)) → ends (try_except m h).
Proof.
  intros Hm Hh st. specialize (Hm st). unfold try_except.
  destruct (result (m st)) as [a|e|] eqn:Er; proj_simpl;
    [rewrite Er; discriminate|apply Hh|congruence].
Qed.

Lemma ends_request {A} (op : W → (exn + A) * W) (ev : exn + A → event) :
  ends (request op ev).
Proof. intros st. unfold request. destruct (op (world st)) as [[e|a] w]; discriminate. Qed.

Lemma ends_now : ends now.
Proof. intros st. unfold now. destruct (time_time (world st)); discriminate. Qed.

Lemma ends_sleep d : ends (sleep d).
Proof. intros st. discriminate. Qed.

Lemma ends_get_chain c : ends (W := W) (get_chain c).
Proof. intros st. unfold get_chain. destruct (chains st !! c); discriminate. Qed.

Lemma ends_incr_nonce c : ends (W := W) (incr_nonce c).
Proof. intros st. unfold incr_nonce. destruct (chains st !! c); discriminate. Qed.

Lemma ends_new_chain ch : ends (W := W) (new_chain ch).
Proof. intros st. discriminate. Qed.

Lemma ends_as_int v : ends (W := W) (as_int v).
Proof. destruct v; intros st; discriminate. Qed.

Lemma ends_dict_item k (tx : tx_dict) : ends (W := W) (dict_item k tx).
Proof. unfold dict_item. destruct (tx !! k); intros st; discriminate. Qed.

Lemma ends_float_of_int z : ends (W := W) (float_of_int z).
Proof. unfold float_of_int. destruct (PyFloat.of_int z); intros st; discriminate. Qed.

Lemma ends_int_of_float f : ends (W := W) (int_of_float f).
Proof. unfold int_of_float. destruct (PyFloat.to_int f); intros st; discriminate. Qed.

End EndsRules.

Create HintDb ends.
#[export] Hint Resolve ends_ret ends_raise ends_lift ends_request ends_now ends_sleep
  ends_get_chain ends_incr_nonce ends_new_chain ends_as_int ends_dict_item
  ends_float_of_int ends_int_of_float : ends.

Ltac ends_step :=
  match goal with
  | |- ends (bind _ _) => apply ends_bind; [|intros ?]
  | |- ends (try_except _ _) => apply ends_try; [|intros ?]
  | |- ends (if ?b then _ else _) => destruct b
  | |- ends (match ?x with _ => _ end) => destruct x
  | |- ends (let '(_, _) := ?x in _) => destruct x
  | |- ends _ => solve [auto with ends]
  end.

Ltac ends_tac := unfold_rpc; repeat ends_step.

(** * The engine ends *)
Section EndsEngine.
Context {W : Type} `{!Web3 W}.
Variable clock : W → Q.
Hypothesis L : ClockLaws clock.
Variable fuel : nat.
Hypothesis Hfuel : (polls_within TX_WAIT_TIMEOUT 2 <= fuel)%nat.

Lemma ends_int_mul_float z f : ends (W := W) (int_mul_float z f).
Proof. unfold int_mul_float. ends_tac. Qed.

Lemma ends_to_wei_gwei x : ends (to_wei_gwei x).
Proof. unfold to_wei_gwei. ends_tac. Qed.

Lemma ends_get_eip1559_fees n tip mult : ends (get_eip1559_fees n tip mult).
Proof. unfold get_eip1559_fees. pose proof ends_to_wei_gwei. ends_tac. Qed.

Lemma ends_estimate_and_cap_gas n tx cap : ends (estimate_and_cap_gas n tx cap).
Proof. unfold estimate_and_cap_gas. pose proof ends_int_mul_float. ends_tac. Qed.

Lemma ends_ensure_funds_for_tx n a v g f : ends (ensure_funds_for_tx n a v g f).
Proof. unfold ensure_funds_for_tx. ends_tac. Qed.

Lemma ends_default_gas_cap tx : ends (W := W) (default_gas_cap tx).
Proof. unfold default_gas_cap. ends_tac. Qed.

Lemma ends_fill_transaction ch tx : ends (fill_transaction ch tx).
Proof.
  unfold fill_transaction.
  pose proof ends_get_eip1559_fees. pose proof ends_default_gas_cap.
  pose proof ends_estimate_and_cap_gas. ends_tac.
Qed.

Lemma ends_bump_fee k tx : ends (W := W) (bump_fee k tx).
Proof. unfold bump_fee. pose proof ends_int_mul_float. ends_tac. Qed.

Lemma ends_submit c ch tx sp : ends (submit c ch tx sp).
Proof. unfold submit. pose proof ends_bump_fee. ends_tac. Qed.

Lemma ends_get_erc20_balance c token : ends (get_erc20_balance c token).
Proof. unfold get_erc20_balance. ends_tac. Qed.

Lemma ends_wait_receipt n h : ends (wait_receipt_with_progress fuel n h TX_WAIT_TIMEOUT).
Proof. intros st. apply (wait_receipt_total clock L). exact Hfuel. Qed.

Lemma ends_wait_for_l2_credit l2 before delta :
  ends (wait_for_l2_credit fuel l2 before delta 300).
Proof.
  intros st. apply (wait_for_l2_credit_total clock L).
  etransitivity; [|exact Hfuel]. vm_compute. lia.
Qed.

Lemma ends_guard_l2_balance c ch tx : ends (guard_l2_balance fuel c ch tx).
Proof.
  unfold guard_l2_balance.
  pose proof ends_ensure_funds_for_tx. pose proof ends_wait_for_l2_credit. ends_tac.
Qed.

Lemma ends_build_and_send c tx sp : ends (build_and_send fuel c tx sp).
Proof.
  unfold build_and_send.
  pose proof ends_fill_transaction. pose proof ends_guard_l2_balance.
  pose proof ends_submit. ends_tac.
Qed.

Lemma ends_check_and_claim c token required token_name :
  ends (check_and_claim_erc20_balance fuel c token required token_name).
Proof.
  unfold check_and_claim_erc20_balance.
  pose proof ends_build_and_send. pose proof ends_wait_receipt. ends_tac.
Qed.

Lemma ends_ensure_allowance c token spender m :
  ends (ensure_allowance fuel c token spender m).
Proof.
  unfold ensure_allowance.
  pose proof ends_build_and_send. pose proof ends_wait_receipt. ends_tac.
Qed.

Lemma ends_deposit_erc20_to_l2 l1 l2 l1_token l2_token amount :
  ends (deposit_erc20_to_l2 fuel l1 l2 l1_token l2_token amount).
Proof.
  unfold deposit_erc20_to_l2.
  pose proof ends_check_and_claim. pose proof ends_get_erc20_balance.
  pose proof ends_ensure_allowance.
  pose proof ends_build_and_send. pose proof ends_wait_receipt. ends_tac.
Qed.

Lemma ends_auto_acquire l2 l1 l2_token amount :
  ends (auto_acquire fuel l2 l1 l2_token amount).
Proof.
  unfold auto_acquire.
  pose proof ends_check_and_claim. pose proof ends_get_erc20_balance.
  pose proof ends_deposit_erc20_to_l2. ends_tac.
Qed.

Lemma ends_withdraw_erc20_to_l1 l2 l1 l2_token amount :
  ends (withdraw_erc20_to_l1 fuel l2 l1 l2_token amount).
Proof.
  unfold withdraw_erc20_to_l1.
  pose proof ends_auto_acquire. pose proof ends_get_erc20_balance.
  pose proof ends_build_and_send. pose proof ends_wait_receipt. ends_tac.
Qed.

Lemma ends_claim_test_tokens_generic c token explorer_tx network_name :
  ends (claim_test_tokens_generic fuel c token explorer_tx network_name).
Proof.
  unfold claim_test_tokens_generic.
  pose proof ends_get_erc20_balance.
  pose proof ends_build_and_send. pose proof ends_wait_receipt. ends_tac.
Qed.

Lemma ends_l2_self_transfer_eth l2 amount_wei :
  ends (l2_self_transfer_eth fuel l2 amount_wei).
Proof.
  unfold l2_self_transfer_eth.
  pose proof ends_build_and_send. pose proof ends_wait_receipt. ends_tac.
Qed.

End EndsEngine.

(** * What the engine leaves alone *)
Section FrameEngine.
Context {W : Type} `{!Web3 W}.

Lemma framed_submit c ch tx sp : within (framed c) (submit c ch tx sp).
Proof.
  unfold submit.
  pose proof (fun k tx => framed_quiet c _ (quiet_bump_fee (W := W) k tx)).
  within_tac.
Qed.

Lemma framed_build_and_send fuel c tx sp : within (framed c) (build_and_send fuel c tx sp).
Proof.
  unfold build_and_send.
  pose proof (fun ch tx => framed_quiet c _ (quiet_fill_transaction (W := W) ch tx)).
  pose proof (fun ch tx => framed_quiet c _ (quiet_guard_l2_balance (W := W) fuel c ch tx)).
  pose proof (framed_submit c). within_tac.
Qed.

Lemma framed_wait_receipt c fuel n h timeout :
  within (framed c) (wait_receipt_with_progress fuel n h timeout).
Proof. apply framed_quiet, quiet_wait_receipt_with_progress. Qed.

Lemma framed_get_erc20_balance c c' token : within (framed c) (get_erc20_balance c' token).
Proof. apply framed_quiet, quiet_get_erc20_balance. Qed.

Lemma framed_check_and_claim fuel c token required token_name :
  within (framed c) (check_and_claim_erc20_balance fuel c token required token_name).
Proof.
  unfold check_and_claim_erc20_balance.
  pose proof (framed_build_and_send fuel c). pose proof (framed_wait_receipt c fuel).
  within_tac.
Qed.

Lemma framed_ensure_allowance fuel c token spender m :
  within (framed c) (ensure_allowance fuel c token spender m).
Proof.
  unfold ensure_allowance.
  pose proof (framed_build_and_send fuel c). pose proof (framed_wait_receipt c fuel).
  within_tac.
Qed.

Lemma framed_deposit_erc20_to_l2 fuel l1 l2 l1_token l2_token amount :
  within (framed l1) (deposit_erc20_to_l2 fuel l1 l2 l1_token l2_token amount).
Proof.
  unfold deposit_erc20_to_l2.
  pose proof (framed_check_and_claim fuel l1). pose proof (framed_get_erc20_balance l1 l1).
  pose proof (framed_ensure_allowance fuel l1).
  pose proof (framed_build_and_send fuel l1). pose proof (framed_wait_receipt l1 fuel).
  within_tac.
Qed.

Lemma framed_claim_test_tokens_generic fuel c token explorer_tx network_name :
  within (framed c) (claim_test_tokens_generic fuel c token explorer_tx network_name).
Proof.
  unfold claim_test_tokens_generic.
  pose proof (framed_get_erc20_balance c c).
  pose proof (framed_build_and_send fuel c). pose proof (framed_wait_receipt c fuel).
  within_tac.
Qed.

End FrameEngine.

(** * Waiting: the edges *)
Section WaitingEdges.
Context {W : Type} `{!Web3 W}.
Implicit Types st : state W.

(** One turn of a polling loop whose timeout is not positive: the second
    reading of the clock is not before the first, so the loop is not
    entered. *)
Lemma expired_at_once clock (L : ClockLaws clock) st t w t' w' timeout :
  time_time (world st) = (t, w) → time_time w = (t', w') → timeout <= 0 →
  Qltb (t' - t) (inject_Z timeout) = false.
Proof.
  intros Ht Ht' Hto.
  pose proof (clock_time_hi _ L (world st)) as H1. rewrite Ht in H1.
  pose proof (clock_time_lo _ L w) as H2. rewrite Ht' in H2. cbn [fst snd] in *.
  destruct (Qltb (t' - t) (inject_Z timeout)) eqn:E; [|reflexivity].
  apply Qltb_true in E.
  assert (inject_Z timeout <= 0)%Q by (change 0%Q with (inject_Z 0); rewrite <- Zle_Qle; lia).
  lra.
Qed.

(** X4. With a timeout that is not positive, [wait_receipt_with_progress]
    returns [None] after reading the clock twice: it does not look the
    receipt up even once, whether the transaction is mined or not. *)
Theorem wait_receipt_zero_timeout fuel n h timeout st clock :
  ClockLaws clock → timeout <= 0 → (0 < fuel)%nat →
  let o := wait_receipt_with_progress fuel n h timeout st in
  result o = Ok None ∧ receipt_polls (trace o) = [] ∧
  ∃ t t', trace o = [EvTime t; EvTime t'].
Proof.
  intros L Hto Hf. destruct fuel as [|fuel]; [lia|]. cbn zeta.
  change (post (wait_receipt_with_progress (S fuel) n h timeout) st (fun r _ tr =>
            r = Ok None ∧ receipt_polls tr = [] ∧ ∃ t t', tr = [EvTime t; EvTime t'])).
  unfold wait_receipt_with_progress. apply post_bind. apply post_now. intros t w Ht.
  cbn [wait_receipt_loop]. apply post_bind. apply post_now. intros t' w' Ht'.
  proj_simpl. rewrite (expired_at_once clock L st t w t' w' timeout Ht Ht' Hto).
  unfold post. tr_simpl. eauto.
Qed.

(** X5. With a timeout that is not positive, [wait_for_l2_credit] returns
    [False] after reading the clock twice: it reads no balance, so a credit
    that is already there goes unseen. *)
Theorem wait_for_l2_credit_zero_timeout fuel l2 before delta timeout st clock :
  ClockLaws clock → timeout <= 0 → (0 < fuel)%nat →
  let o := wait_for_l2_credit fuel l2 before delta timeout st in
  result o = Ok false ∧ balance_polls (trace o) = [] ∧
  ∃ t t', trace o = [EvTime t; EvTime t'].
Proof.
  intros L Hto Hf. destruct fuel as [|fuel]; [lia|]. cbn zeta.
  change (post (wait_for_l2_credit (S fuel) l2 before delta timeout) st (fun r _ tr =>
            r = Ok false ∧ balance_polls tr = [] ∧ ∃ t t', tr = [EvTime t; EvTime t'])).
  unfold wait_for_l2_credit. apply post_bind. apply post_now. intros t w Ht.
  cbn [wait_for_l2_credit_loop]. apply post_bind. apply post_now. intros t' w' Ht'.
  proj_simpl. rewrite (expired_at_once clock L st t w t' w' timeout Ht Ht' Hto).
  unfold post. tr_simpl. eauto.
Qed.

(** ** The countdown *)

Lemma countdown_loop_spec n st :
  post (countdown_loop n) st (fun r st' tr =>
    r = Ok tt ∧ tr = replicate n (EvSleep (inject_Z 1)) ∧
    chains st' = chains st ∧ next_chain st' = next_chain st ∧
    ∀ clock, ClockLaws clock →
      (clock (world st) + inject_Z (Z.of_nat n) <= clock (world st'))%Q).
Proof.
  revert st. induction n as [|n IH]; intros st.
  - unfold post. cbn [countdown_loop ret result final trace replicate].
    repeat split; auto.
    intros clock _. change (inject_Z (Z.of_nat 0)) with 0%Q. lra.
  - cbn [countdown_loop]. apply post_bind. apply post_sleep.
    eapply post_mono; [apply IH|]. cbn beta. proj_simpl.
    intros r s t (Hr & Ht & Hc & Hn & Hk). rewrite Hr, Ht, Hc, Hn.
    cbn [app replicate]. repeat split; auto.
    intros clock L. specialize (Hk clock L).
    pose proof (clock_sleep _ L (inject_Z 1) (world st)) as Hs.
    rewrite Nat2Z.inj_succ. unfold Z.succ. rewrite inject_Z_plus. lra.
Qed.

Lemma countdown_fields_exact remaining :
  let '(hours, minutes, seconds) := countdown_fields remaining in
  hours * 3600 + minutes * 60 + seconds = remaining ∧
  0 <= minutes < 60 ∧ 0 <= seconds < 60.
Proof.
  unfold countdown_fields.
  pose proof (Z.div_mod remaining 3600 ltac:(lia)).
  pose proof (Z.mod_pos_bound remaining 3600 ltac:(lia)).
  pose proof (Z.div_mod (remaining mod 3600) 60 ltac:(lia)).
  pose proof (Z.mod_pos_bound (remaining mod 3600) 60 ltac:(lia)).
  pose proof (Z.mod_pos_bound remaining 60 ltac:(lia)).
  pose proof (Z.div_mod remaining 60 ltac:(lia)).
  assert (0 <= (remaining mod 3600) / 60 < 60).
  { split; [apply Z.div_pos; lia|apply Z.div_lt_upper_bound; lia]. }
  lia.
Qed.

(** X6. [countdown_24_hours] sleeps 86400 times one second and does
    nothing else: it asks nothing of the nodes and leaves the [Chain]
    objects alone, and under the clock laws at least 24 hours have passed
    when it returns.  The hours, minutes and seconds it shows at each turn
    add up to the seconds that remain. *)
Theorem countdown_24_hours_waits st clock :
  ClockLaws clock →
  let o := countdown_24_hours st in
  result o = Ok tt ∧
  trace o = replicate (Z.to_nat 86400) (EvSleep (inject_Z 1)) ∧
  chains (final o) = chains st ∧
  (clock (world st) + inject_Z 86400 <= clock (world (final o)))%Q ∧
  ∀ remaining,
    let '(hours, minutes, seconds) := countdown_fields remaining in
    hours * 3600 + minutes * 60 + seconds = remaining ∧
    0 <= minutes < 60 ∧ 0 <= seconds < 60.
Proof.
  intros L. cbn zeta. unfold countdown_24_hours.
  change (24 * 60 * 60) with 86400.
  pose proof (countdown_loop_spec (Z.to_nat 86400) st) as (Hr & Ht & Hc & _ & Hk).
  split; [exact Hr|]. split; [exact Ht|]. split; [exact Hc|].
  split; [|exact countdown_fields_exact].
  specialize (Hk clock L). rewrite Z2Nat.id in Hk by lia. exact Hk.
Qed.

End WaitingEdges.

(** * Submission: fields, attempts, the balance guard *)

Lemma setdefault_keeps k v k' v' (tx : tx_dict) :
  tx !! k = Some v → setdefault k' v' tx !! k = Some v.
Proof.
  intros Hk. unfold setdefault. destruct (tx !! k') eqn:Ek'; [exact Hk|].
  rewrite lookup_insert_ne; [exact Hk|]. intros ->. congruence.
Qed.

Lemma setdefault_absent k v (tx : tx_dict) :
  tx !! k = None → setdefault k v tx !! k = Some v.
Proof. intros Hk. unfold setdefault. rewrite Hk. apply lookup_insert_eq. Qed.

Section SubmissionFacts.
Context {W : Type} `{!Web3 W}.
Implicit Types st : state W.

Lemma post_any {A} (m : M W A) st (Q : res A → state W → list event → Prop) :
  (∀ r st' tr, Q r st' tr) → post m st Q.
Proof. intros HQ. apply HQ. Qed.

(** What [fill_transaction] returns holds every field the caller set, with
    the caller's value, and the nonce of the [Chain] object when the caller
    set none. *)
Lemma fill_transaction_fields ch (tx : tx_dict) st :
  post (fill_transaction ch tx) st (fun r _ _ =>
    ∀ tx', r = Ok tx' →
      (∀ k v, tx !! k = Some v → tx' !! k = Some v) ∧
      (tx !! "nonce" = None → tx' !! "nonce" = Some (VInt (nonce ch)))).
Proof.
  unfold fill_transaction. destruct (fee_profile (name ch)) as [tip mult].
  apply post_bind. apply post_any. intros [[[base tp] mf]| |] s1 t1;
    [|intros ? [=]|intros ? [=]].
  apply post_bind. apply post_request. intros [e|cid] w _; [intros ? [=]|].
  set (tx4 := setdefault "nonce" _ (setdefault "chainId" _ (setdefault "maxFeePerGas" _
                (setdefault "maxPriorityFeePerGas" _ tx)))).
  assert (Hkeep : ∀ k v, tx !! k = Some v → tx4 !! k = Some v).
  { intros k v Hk. subst tx4. repeat apply setdefault_keeps. exact Hk. }
  assert (Hnonce : tx !! "nonce" = None → tx4 !! "nonce" = Some (VInt (nonce ch))).
  { intros Hn. subst tx4. apply setdefault_absent.
    rewrite !setdefault_lookup_ne by discriminate. exact Hn. }
  destruct (tx4 !! "gas") as [g|] eqn:Eg.
  { unfold post. tr_simpl. intros tx' [= <-]. auto. }
  apply post_bind. apply post_any. intros [cap| |] s2 t2; [|intros ? [=]|intros ? [=]].
  apply post_bind. apply post_any. intros [gas| |] s3 t3; [|intros ? [=]|intros ? [=]].
  unfold post. tr_simpl. intros tx' [= <-]. split.
  - intros k v Hk. rewrite lookup_insert_ne; [auto|].
    intros <-. apply Hkeep in Hk. congruence.
  - intros Hn. rewrite lookup_insert_ne by discriminate. auto.
Qed.

(** The transactions [submit] signs differ from [tx] in the two fee fields
    at most. *)
Lemma submit_signings_keep c ch (tx : tx_dict) sp st :
  chains st !! c = Some ch →
  post (submit c ch tx sp) st (fun _ _ tr =>
    ∀ tx' r, (tx', r) ∈ signings tr →
      ∀ k, k ≠ "maxPriorityFeePerGas" → k ≠ "maxFeePerGas" → tx' !! k = tx !! k).
Proof.
  intros Hc.
  assert (Hone : ∀ (tx' : tx_dict) (r r0 : exn + rawtx),
            (tx', r) ∈ [(tx, r0)] → ∀ k : string,
              k ≠ "maxPriorityFeePerGas" → k ≠ "maxFeePerGas" → tx' !! k = tx !! k).
  { intros tx' r r0 Hin k _ _. apply list_elem_of_singleton in Hin. congruence. }
  unfold submit. apply post_bind. apply post_request. intros [e|raw] w _.
  { tr_simpl. intros tx' r. apply Hone. }
  apply post_try. apply post_bind. apply post_request. intros [e1|h] w1 _.
  2:{ apply post_bind. eapply post_incr_nonce; [exact Hc|].
      unfold post; tr_simpl; intros tx' r; apply Hone. }
  destruct (sp && is_underpriced e1).
  2:{ unfold post. tr_simpl. intros tx' r. apply Hone. }
  apply post_bind. eapply post_mono; [apply bump_fee_keeps|]. cbn beta.
  intros r1 s1 t1 (-> & -> & Hk1).
  destruct r1 as [tx1| |]; try (tr_simpl; intros tx' r; apply Hone).
  apply post_bind. eapply post_mono; [apply bump_fee_keeps|]. cbn beta.
  intros r2 s2 t2 (-> & -> & Hk2).
  destruct r2 as [tx2| |]; try (tr_simpl; intros tx' r; apply Hone).
  assert (Htx2 : ∀ k : string, k ≠ "maxPriorityFeePerGas" → k ≠ "maxFeePerGas" →
                   tx2 !! k = tx !! k).
  { intros k H1 H2. rewrite (Hk2 tx2 eq_refl) by congruence.
    apply (Hk1 tx1 eq_refl). congruence. }
  assert (Htwo : ∀ (tx' : tx_dict) (r r0 r3 : exn + rawtx),
            (tx', r) ∈ [(tx, r0); (tx2, r3)] → ∀ k : string,
              k ≠ "maxPriorityFeePerGas" → k ≠ "maxFeePerGas" → tx' !! k = tx !! k).
  { intros tx' r r0 r3 Hin k H1 H2. apply elem_of_cons in Hin.
    destruct Hin as [[= -> _]|Hin]; [reflexivity|].
    apply list_elem_of_singleton in Hin. injection Hin as -> _. auto. }
  apply post_bind. apply post_request. intros [e|raw2] w2 _.
  { tr_simpl. intros tx' r. apply Htwo. }
  apply post_bind. apply post_request. intros [e2|h] w3 _.
  { tr_simpl. intros tx' r. apply Htwo. }
  apply post_bind. eapply post_incr_nonce; [exact Hc|].
  unfold post; tr_simpl; intros tx' r; apply Htwo.
Qed.

(** The signings of [build_and_send] are those of its [submit], on the
    transaction [fill_transaction] returned. *)
Lemma build_and_send_signed fuel c ch (tx : tx_dict) sp st :
  chains st !! c = Some ch →
  post (build_and_send fuel c tx sp) st (fun _ _ tr =>
    signings tr = [] ∨
    ∃ txf s more,
      signings tr = (txf, s) :: more ∧
      (∀ k v, tx !! k = Some v → txf !! k = Some v) ∧
      (tx !! "nonce" = None → txf !! "nonce" = Some (VInt (nonce ch))) ∧
      (∀ tx' r, (tx', r) ∈ signings tr →
         ∀ k, k ≠ "maxPriorityFeePerGas" → k ≠ "maxFeePerGas" → tx' !! k = txf !! k)).
Proof.
  intros Hc. unfold build_and_send.
  apply post_bind. apply post_get_chain with ch; [exact Hc|].
  apply post_bind. eapply post_mono.
  { apply post_conj; [apply fill_transaction_fields|apply quiet_fill_transaction]. }
  cbn beta. intros r1 s1 t1 (Hfill & Hc1 & _ & Ht1).
  apply silent_no_submission in Ht1. destruct Ht1 as (_ & Hsg1 & _).
  destruct r1 as [txf| |]; try (tr_simpl; left; exact Hsg1).
  destruct (Hfill txf eq_refl) as (Hkeep & Hnonce).
  apply post_bind. apply post_quiet; [apply quiet_guard_l2_balance|].
  intros r2 s2 t2 Hc2 _ Ht2.
  apply silent_no_submission in Ht2. destruct Ht2 as (_ & Hsg2 & _).
  destruct r2 as [[]| |];
    try (tr_simpl; left; rewrite signings_app, Hsg1, Hsg2; reflexivity).
  eapply post_mono.
  { apply post_conj; [apply submit_signs_first|].
    apply submit_signings_keep. rewrite Hc2, Hc1. exact Hc. }
  cbn beta. intros r3 s3 t3 ((s & more & Hsg3) & Hsub). right.
  exists txf, s, more. tr_simpl. rewrite !signings_app, Hsg1, Hsg2. cbn [app].
  split; [exact Hsg3|]. split; [exact Hkeep|]. split; [exact Hnonce|exact Hsub].
Qed.

End SubmissionFacts.

Section Emissions.
Context {W : Type} `{!Web3 W}.
Implicit Types st : state W.

Lemma within_int_mul_float E `{!Effect E} z f : within (W := W) E (int_mul_float z f).
Proof. unfold int_mul_float. within_tac. Qed.

Lemma within_to_wei_gwei E `{!Effect E} x : within E (to_wei_gwei x).
Proof. unfold to_wei_gwei. within_tac. Qed.

Lemma within_default_gas_cap E `{!Effect E} tx : within (W := W) E (default_gas_cap tx).
Proof. unfold default_gas_cap. within_tac. Qed.

Lemma within_bump_fee E `{!Effect E} k tx : within (W := W) E (bump_fee k tx).
Proof. unfold bump_fee. pose proof (within_int_mul_float E). within_tac. Qed.

Lemma emits_get_eip1559_fees (P : event → Prop) n tip mult :
  (∀ r, P (EvFeeHistory n r)) → within (emitting P) (get_eip1559_fees n tip mult).
Proof.
  intros HP. unfold get_eip1559_fees, rpc_fee_history.
  pose proof (within_to_wei_gwei (emitting P)).
  apply within_bind; within_side; [|within_tac].
  apply within_try; within_side; [|within_tac].
  apply emits_request, HP.
Qed.

Lemma emits_submit (P : event → Prop) c ch tx sp :
  (∀ a t r, P (EvSign a t r)) → (∀ n raw r, P (EvSend n raw r)) →
  within (emitting P) (submit c ch tx sp).
Proof.
  intros Hsign Hsend. unfold submit.
  pose proof (within_bump_fee (emitting P)).
  assert (∀ a t, within (emitting P) (sign a t)).
  { intros a t. apply emits_request, Hsign. }
  assert (∀ n raw, within (emitting P) (rpc_send_raw_transaction n raw)).
  { intros n raw. apply emits_request, Hsend. }
  assert (within (W := W) (emitting P) (incr_nonce c)).
  { intros st. unfold incr_nonce. destruct (chains st !! c); constructor. }
  repeat within_step.
Qed.

Lemma no_balance_reads tr : Forall no_balance_read tr → balance_polls tr = [].
Proof.
  induction 1 as [|ev tr Hev _ IH]; [reflexivity|].
  destruct ev; cbn [balance_polls]; try exact IH. destruct Hev.
Qed.

Lemma emits_fill_transaction_no_balance ch tx :
  within (emitting no_balance_read) (fill_transaction ch tx).
Proof.
  unfold fill_transaction, estimate_and_cap_gas.
  pose proof (within_default_gas_cap (emitting no_balance_read)).
  pose proof (within_int_mul_float (emitting no_balance_read)).
  assert (∀ n tip mult, within (emitting no_balance_read) (get_eip1559_fees n tip mult))
    by (intros; apply emits_get_eip1559_fees; intros; exact I).
  within_tac.
Qed.

Lemma emits_wait_for_l2_credit_no_estimate fuel l2 before delta timeout :
  within (emitting no_estimate) (wait_for_l2_credit fuel l2 before delta timeout).
Proof.
  unfold wait_for_l2_credit.
  assert (∀ start, within (emitting no_estimate)
            (wait_for_l2_credit_loop fuel l2 before delta timeout start)).
  { intros start. induction fuel as [|fuel' IH]; cbn [wait_for_l2_credit_loop];
      within_tac. }
  within_tac.
Qed.

Lemma emits_guard_no_estimate fuel c ch tx :
  within (emitting no_estimate) (guard_l2_balance fuel c ch tx).
Proof.
  unfold guard_l2_balance, ensure_funds_for_tx.
  pose proof (emits_wait_for_l2_credit_no_estimate fuel c).
  within_tac.
Qed.

Lemma emits_fill_transaction_no_estimate ch (tx : tx_dict) v :
  tx !! "gas" = Some v → within (emitting no_estimate) (fill_transaction ch tx).
Proof.
  intros Hgas. unfold fill_transaction. destruct (fee_profile (name ch)) as [tip mult].
  apply within_bind; within_side.
  { apply emits_get_eip1559_fees. intros; exact I. }
  destruct a as [[base tp] mf].
  apply within_bind; within_side.
  { unfold rpc_chain_id. apply emits_request. intros; exact I. }
  rewrite (setdefault_keeps "gas" v) by (repeat apply setdefault_keeps; exact Hgas).
  apply within_ret. apply _.
Qed.

End Emissions.

Section SubmissionExtras.
Context {W : Type} `{!Web3 W}.
Implicit Types st : state W.

Lemma emits_build_and_send_no_estimate fuel c (tx : tx_dict) sp v :
  tx !! "gas" = Some v → within (emitting no_estimate) (build_and_send fuel c tx sp).
Proof.
  intros Hgas. unfold build_and_send.
  pose proof (fun ch => emits_fill_transaction_no_estimate ch tx v Hgas).
  pose proof (emits_guard_no_estimate fuel c).
  assert (∀ ch t, within (emitting no_estimate) (submit c ch t sp))
    by (intros; apply emits_submit; intros; exact I).
  repeat within_step.
Qed.

(** X7. [build_and_send] never overrides a field the caller set: the first
    transaction it signs holds every such field with the caller's value,
    and so does the transaction of the retry but for the two fee fields.
    When the caller set the gas, no gas estimate is asked of the node. *)
Theorem build_and_send_keeps_fields fuel c ch (tx : tx_dict) sp st k v :
  chains st !! c = Some ch → tx !! k = Some v →
  let o := build_and_send fuel c tx sp st in
  (∀ tx1 s1 more, signings (trace o) = (tx1, s1) :: more → tx1 !! k = Some v) ∧
  (k ≠ "maxPriorityFeePerGas" → k ≠ "maxFeePerGas" →
   ∀ tx' r, (tx', r) ∈ signings (trace o) → tx' !! k = Some v) ∧
  (k = "gas" → Forall no_estimate (trace o)).
Proof.
  intros Hc Hk o.
  pose proof (build_and_send_signed fuel c ch tx sp st Hc) as Hs.
  unfold post in Hs. fold o in Hs.
  split; [|split].
  - intros tx1 s1 more Hsg. destruct Hs as [Hs|(txf & s & more' & Hs & Hkeep & _)];
      [congruence|].
    rewrite Hs in Hsg. injection Hsg as <- _ _. apply Hkeep, Hk.
  - intros Hk1 Hk2 tx' r Hin.
    destruct Hs as [Hs|(txf & s & more' & Hs & Hkeep & _ & Hall)].
    + rewrite Hs in Hin. apply elem_of_nil in Hin. contradiction.
    + rewrite (Hall tx' r Hin k Hk1 Hk2). apply Hkeep, Hk.
  - intros ->. apply (emits_build_and_send_no_estimate fuel c tx sp v Hk st).
Qed.

Lemma build_and_send_nonce_field fuel c ch (tx : tx_dict) sp st :
  chains st !! c = Some ch → tx !! "nonce" = None →
  ∀ tx' r, (tx', r) ∈ signings (trace (build_and_send fuel c tx sp st)) →
    tx' !! "nonce" = Some (VInt (nonce ch)).
Proof.
  intros Hc Hn tx' r Hin.
  pose proof (build_and_send_signed fuel c ch tx sp st Hc) as Hs. unfold post in Hs.
  destruct Hs as [Hs|(txf & s & more' & Hs & _ & Hnonce & Hall)].
  - rewrite Hs in Hin. apply elem_of_nil in Hin. contradiction.
  - rewrite (Hall tx' r Hin "nonce") by discriminate. apply Hnonce, Hn.
Qed.

(** X8. Two calls of [build_and_send] in a row on one [Chain] object, for
    transactions whose nonce the caller did not set: whatever the first call
    signs carries the nonce of the [Chain] object at entry, and whatever
    the second call signs carries that nonce plus 1 when the first call
    broadcast its transaction, and the same nonce again when it did not. *)
Theorem build_and_send_consecutive_nonces fuel c ch (tx1 tx2 : tx_dict) sp1 sp2 st :
  chains st !! c = Some ch → tx1 !! "nonce" = None → tx2 !! "nonce" = None →
  let o1 := build_and_send fuel c tx1 sp1 st in
  let o2 := build_and_send fuel c tx2 sp2 (final o1) in
  (∀ tx' r, (tx', r) ∈ signings (trace o1) → tx' !! "nonce" = Some (VInt (nonce ch))) ∧
  (∀ tx' r, (tx', r) ∈ signings (trace o2) →
     tx' !! "nonce" = Some (VInt (nonce ch + Z.of_nat (length (broadcasts (trace o1)))))) ∧
  match result o1 with
  | Ok _ => length (broadcasts (trace o1)) = 1%nat
  | Exn _ | OutOfFuel => length (broadcasts (trace o1)) = 0%nat
  end.
Proof.
  intros Hc Hn1 Hn2 o1 o2.
  pose proof (build_and_send_sent_once fuel c ch tx1 sp1 st Hc) as Hs.
  unfold post in Hs. fold o1 in Hs. destruct Hs as [_ Hs].
  split; [exact (build_and_send_nonce_field fuel c ch tx1 sp1 st Hc Hn1)|].
  assert (Hc' : ∃ ch', chains (final o1) !! c = Some ch' ∧
                  nonce ch' = nonce ch + Z.of_nat (length (broadcasts (trace o1)))).
  { destruct (result o1); destruct Hs as [-> ->].
    - exists (bump_nonce ch). rewrite lookup_insert_eq. auto.
    - exists ch. cbn. rewrite Z.add_0_r. auto.
    - exists ch. cbn. rewrite Z.add_0_r. auto. }
  destruct Hc' as (ch' & Hc' & Hnonce). split.
  - intros tx' r Hin. rewrite <- Hnonce.
    exact (build_and_send_nonce_field fuel c ch' tx2 sp2 (final o1) Hc' Hn2 tx' r Hin).
  - destruct (result o1); destruct Hs as [-> _]; reflexivity.
Qed.

Lemma submit_single c ch tx sp st :
  chains st !! c = Some ch →
  post (submit c ch tx sp) st (fun r st' tr =>
    ∀ raw1 e1 rest, sendings tr = (raw1, inl e1) :: rest →
      sp && is_underpriced e1 = false →
      rest = [] ∧ r = Exn e1 ∧ signings tr = [(tx, inr raw1)] ∧ chains st' = chains st).
Proof.
  intros Hc. unfold submit. apply post_bind. apply post_request. intros [e|raw] w _.
  { tr_simpl. intros ? ? ? [=]. }
  apply post_try. apply post_bind. apply post_request. intros [e1|h] w1 _.
  2:{ apply post_bind. eapply post_incr_nonce; [exact Hc|].
      unfold post. tr_simpl. intros ? ? ? [=]. }
  destruct (sp && is_underpriced e1) eqn:Hu.
  - apply post_any. intros r s t raw1 e1' rest. tr_simpl.
    rewrite ?sendings_app. cbn [sendings app]. intros [= <- <- <-] Hf. congruence.
  - unfold post. tr_simpl. intros raw1 e1' rest [= <- <- <-] _. auto.
Qed.

(** X9. When the first broadcast of [build_and_send] is rejected and
    auto-retry is off, or the rejection is not an underpriced one, that
    broadcast is the only one: one transaction was signed, the node's error
    is raised as it is, and the [Chain] objects are as before. *)
Theorem build_and_send_single_attempt fuel c ch tx sp st raw1 e1 rest :
  chains st !! c = Some ch →
  let o := build_and_send fuel c tx sp st in
  sendings (trace o) = (raw1, inl e1) :: rest →
  sp && is_underpriced e1 = false →
  rest = [] ∧ result o = Exn e1 ∧ length (signings (trace o)) = 1%nat ∧
  chains (final o) = chains st.
Proof.
  intros Hc. cbn zeta.
  change (post (build_and_send fuel c tx sp) st (fun r st' tr =>
    sendings tr = (raw1, inl e1) :: rest → sp && is_underpriced e1 = false →
    rest = [] ∧ r = Exn e1 ∧ length (signings tr) = 1%nat ∧ chains st' = chains st)).
  unfold build_and_send.
  apply post_bind. apply post_get_chain with ch; [exact Hc|].
  apply post_bind. apply post_quiet; [apply quiet_fill_transaction|].
  intros r1 s1 t1 Hc1 _ Ht1. apply silent_no_submission in Ht1.
  destruct Ht1 as (_ & Hsg1 & Hsd1).
  destruct r1 as [txf| |]; try (tr_simpl; rewrite Hsd1; discriminate).
  apply post_bind. apply post_quiet; [apply quiet_guard_l2_balance|].
  intros r2 s2 t2 Hc2 _ Ht2. apply silent_no_submission in Ht2.
  destruct Ht2 as (_ & Hsg2 & Hsd2).
  destruct r2 as [[]| |]; try (tr_simpl; rewrite sendings_app, Hsd1, Hsd2; discriminate).
  eapply post_mono; [apply submit_single; rewrite Hc2, Hc1; exact Hc|]. cbn beta.
  intros r3 s3 t3 Hsub. tr_simpl.
  rewrite !sendings_app, !signings_app, Hsd1, Hsd2, Hsg1, Hsg2. cbn [app].
  intros Hsd Hu. destruct (Hsub raw1 e1 rest Hsd Hu) as (-> & -> & -> & ->).
  repeat split; congruence.
Qed.

Lemma ensure_funds_for_tx_post n addr value gas max_fee st :
  post (ensure_funds_for_tx n addr value gas max_fee) st (fun r _ tr =>
    r = Ok true →
    ∃ v g f b, value = VInt v ∧ gas = VInt g ∧ max_fee = VInt f ∧
      tr = [EvGetBalance n addr (inr b)] ∧ v + g * f <= b).
Proof.
  unfold ensure_funds_for_tx. apply post_bind. apply post_request.
  intros [e|b] w _; [intros [=]|].
  destruct gas as [|g| |]; try (unfold post; tr_simpl; intros [=]; fail).
  destruct max_fee as [|f| |]; try (unfold post; tr_simpl; intros [=]; fail).
  destruct value as [|v| |]; try (unfold post; tr_simpl; intros [=]; fail).
  unfold post. tr_simpl. cbn [as_int bind ret result final trace app].
  intros [= Hle]. apply Z.leb_le in Hle. exists v, g, f, b. auto.
Qed.

Lemma guard_l2_balance_post fuel c ch (tx : tx_dict) st :
  String.prefix "GIWA" (name ch) = true →
  post (guard_l2_balance fuel c ch tx) st (fun r _ tr =>
    r = Ok tt →
    ∃ v g f b, dict_get "value" (VInt 0) tx = VInt v ∧ tx !! "gas" = Some (VInt g) ∧
      tx !! "maxFeePerGas" = Some (VInt f) ∧ inr b ∈ balance_polls tr ∧ v + g * f <= b).
Proof.
  intros Hg. unfold guard_l2_balance. rewrite Hg.
  unfold dict_item at 1 2.
  destruct (tx !! "gas") as [gas|]; [|intros [=]].
  apply post_bind. unfold post at 1. tr_simpl.
  destruct (tx !! "maxFeePerGas") as [max_fee|]; [|intros [=]].
  apply post_bind. unfold post at 1. tr_simpl.
  apply post_bind. eapply post_mono; [apply ensure_funds_for_tx_post|]. cbn beta.
  intros r1 s1 t1 H1. destruct r1 as [[|]| |]; try (intros [=]; fail).
  { unfold post. tr_simpl. intros _.
    destruct (H1 eq_refl) as (v & g & f & b & -> & -> & -> & -> & Hle).
    exists v, g, f, b. rewrite app_nil_r. cbn [balance_polls].
    repeat split; auto. apply list_elem_of_singleton. reflexivity. }
  apply post_bind. apply post_any. intros [bal| |] s2 t2; try (intros [=]; fail).
  apply post_bind. apply post_any. intros [waited| |] s3 t3; try (intros [=]; fail).
  apply post_bind. eapply post_mono; [apply ensure_funds_for_tx_post|]. cbn beta.
  intros r4 s4 t4 H4. destruct r4 as [[|]| |]; try (intros [=]; fail).
  unfold post. tr_simpl. intros _.
  destruct (H4 eq_refl) as (v & g & f & b & -> & -> & -> & -> & Hle).
  exists v, g, f, b. repeat split; auto.
  rewrite !balance_polls_app. cbn [balance_polls].
  rewrite !elem_of_app. right. right. right. left.
  apply list_elem_of_singleton. reflexivity.
Qed.

(** X10. On a chain whose name starts with GIWA, [build_and_send] signs
    nothing before a balance read has covered the worst cost of the
    transaction it is about to sign, [value + gas * maxFeePerGas] ([value]
    being 0 when the transaction has none). *)
Theorem build_and_send_giwa_guard fuel c ch (tx : tx_dict) sp st tx1 s1 more :
  chains st !! c = Some ch → String.prefix "GIWA" (name ch) = true →
  let o := build_and_send fuel c tx sp st in
  signings (trace o) = (tx1, s1) :: more →
  ∃ v g f b, dict_get "value" (VInt 0) tx1 = VInt v ∧ tx1 !! "gas" = Some (VInt g) ∧
    tx1 !! "maxFeePerGas" = Some (VInt f) ∧ inr b ∈ balance_polls (trace o) ∧
    v + g * f <= b.
Proof.
  intros Hc Hg. cbn zeta.
  change (post (build_and_send fuel c tx sp) st (fun _ _ tr =>
    signings tr = (tx1, s1) :: more →
    ∃ v g f b, dict_get "value" (VInt 0) tx1 = VInt v ∧ tx1 !! "gas" = Some (VInt g) ∧
      tx1 !! "maxFeePerGas" = Some (VInt f) ∧ inr b ∈ balance_polls tr ∧ v + g * f <= b)).
  unfold build_and_send.
  apply post_bind. apply post_get_chain with ch; [exact Hc|].
  apply post_bind. apply post_quiet; [apply quiet_fill_transaction|].
  intros r1 s1' t1 _ _ Ht1. apply silent_no_submission in Ht1.
  destruct Ht1 as (_ & Hsg1 & _).
  destruct r1 as [txf| |]; try (tr_simpl; rewrite Hsg1; discriminate).
  apply post_bind. eapply post_mono.
  { apply post_conj; [apply guard_l2_balance_post; exact Hg|apply quiet_guard_l2_balance]. }
  cbn beta. intros r2 s2 t2 (Hguard & _ & _ & Ht2).
  apply silent_no_submission in Ht2. destruct Ht2 as (_ & Hsg2 & _).
  destruct r2 as [[]| |]; try (tr_simpl; rewrite signings_app, Hsg1, Hsg2; discriminate).
  destruct (Hguard eq_refl) as (v & g & f & b & Hv & Hgas & Hfee & Hin & Hle).
  eapply post_mono; [apply submit_signs_first|]. cbn beta.
  intros r3 s3 t3 (s & more' & Hsg3). tr_simpl.
  rewrite !signings_app, Hsg1, Hsg2, Hsg3. cbn [app]. intros [= <- _ _].
  exists v, g, f, b. repeat split; auto.
  rewrite !balance_polls_app, !elem_of_app. right. left. exact Hin.
Qed.

(** X11. On any other chain [build_and_send] reads no balance: it signs
    and broadcasts without checking that the account can pay. *)
Theorem build_and_send_unguarded fuel c ch (tx : tx_dict) sp st :
  chains st !! c = Some ch → String.prefix "GIWA" (name ch) = false →
  let o := build_and_send fuel c tx sp st in
  Forall no_balance_read (trace o) ∧ balance_polls (trace o) = [].
Proof.
  intros Hc Hg o.
  assert (Hall : Forall no_balance_read (trace o)).
  { subst o.
    change (post (build_and_send fuel c tx sp) st (fun _ _ tr => Forall no_balance_read tr)).
    unfold build_and_send.
    apply post_bind. apply post_get_chain with ch; [exact Hc|].
    apply post_bind.
    eapply (post_within (emitting no_balance_read));
      [apply emits_fill_transaction_no_balance|].
    intros r1 s1 t1 Ht1. destruct r1 as [txf| |]; try exact Ht1.
    unfold guard_l2_balance. rewrite Hg.
    apply post_bind. unfold post at 1. tr_simpl.
    eapply (post_within (emitting no_balance_read));
      [apply emits_submit; intros; exact I|].
    intros r3 s3 t3 Ht3. rewrite ?app_nil_l. apply Forall_app. split; assumption. }
  split; [exact Hall|apply no_balance_reads, Hall].
Qed.

End SubmissionExtras.

(** * The callers of the engine *)

(** The broadcasts, the builds and the like of a trace put together from
    parts whose own are known. *)
Ltac trace_parts :=
  cbn [app broadcasts builds signings];
  rewrite ?broadcasts_app, ?builds_app, ?signings_app;
  cbn [app broadcasts builds signings];
  repeat match goal with
         | H : broadcasts _ = _ |- _ => rewrite H
         | H : builds _ = _ |- _ => rewrite H
         | H : signings _ = _ |- _ => rewrite H
         end;
  cbn [app]; rewrite ?app_nil_r; try reflexivity.

Tactic Notation "builds_of" constr(l) :=
  match goal with
  | |- Forall _ ?X =>
      let H := fresh in
      assert (H : X = l); [trace_parts|rewrite H; repeat constructor]
  end.

Section CallerFacts.
Context {W : Type} `{!Web3 W}.
Implicit Types st : state W.

(** The receipt [wait_receipt_with_progress] returns is one it polled. *)
Lemma wait_receipt_polled fuel n h timeout st :
  post (wait_receipt_with_progress fuel n h timeout) st (fun r _ tr =>
    ∀ rc, r = Ok (Some rc) → inr (Some rc) ∈ receipt_polls tr).
Proof.
  pose proof (wait_receipt_post fuel n h timeout st) as Hp. cbn zeta in Hp.
  unfold post. destruct (result _) as [[rc|]| |]; try (intros ? [=]; fail).
  intros rc' [= <-]. destruct Hp as [(pre & -> & _) _].
  apply elem_of_app. right. apply list_elem_of_singleton. reflexivity.
Qed.

(** [build_and_send] and the wait for its receipt, for the code that follows
    them: the wait never raises, and [build_and_send] has broadcast nothing
    when it raises. *)
Lemma post_send_wait {B} fuel c ch tx sp n timeout
    (k : txhash → option receipt → M W B) st (Q : res B → state W → list event → Prop) :
  chains st !! c = Some ch →
  (∀ h rc st' tr, next_chain st' = next_chain st → builds tr = [] →
     broadcasts tr = [h] → chains st' = <[c := bump_nonce ch]> (chains st) →
     signings tr = signings (trace (build_and_send fuel c tx sp st)) →
     (∀ rc', rc = Some rc' → inr (Some rc') ∈ receipt_polls tr) →
     post (k h rc) st' (fun r s t => Q r s (tr ++ t))) →
  (∀ st' tr, next_chain st' = next_chain st → builds tr = [] →
     broadcasts tr = [] → chains st' = chains st →
     signings tr = signings (trace (build_and_send fuel c tx sp st)) →
     (∀ e, Q (Exn e) st' tr) ∧ Q OutOfFuel st' tr) →
  (∀ h st' tr, next_chain st' = next_chain st → builds tr = [] →
     broadcasts tr = [h] → chains st' = <[c := bump_nonce ch]> (chains st) →
     signings tr = signings (trace (build_and_send fuel c tx sp st)) →
     Q OutOfFuel st' tr) →
  post (tx_hash <- build_and_send fuel c tx sp ;;
        rcpt <- wait_receipt_with_progress fuel n tx_hash timeout ;;
        k tx_hash rcpt) st Q.
Proof.
  intros Hc Hok Hfail Hcut. apply post_bind. unfold post at 1.
  pose proof (build_and_send_sent_once fuel c ch tx sp st Hc) as [Hn1 Hr1].
  pose proof (unbuilt_build_and_send fuel c tx sp st) as Hb1. unfold post in Hb1.
  set (o1 := build_and_send fuel c tx sp st) in *.
  destruct (result o1) as [h|e|].
  2,3: destruct Hr1 as [Hbr1 Hc1]; apply Hfail; auto.
  destruct Hr1 as [Hbr1 Hc1].
  apply post_bind. unfold post at 1.
  pose proof (wait_receipt_polled fuel n h timeout (final o1)) as Hpoll.
  pose proof (quiet_wait_receipt_with_progress fuel n h timeout (final o1))
    as (Hc2 & Hn2 & Ht2).
  pose proof (unbuilt_wait_receipt_with_progress fuel n h timeout (final o1)) as Hb2.
  pose proof (wait_receipt_post fuel n h timeout (final o1)) as Hw.
  unfold post in Hpoll, Hb2. cbn zeta in Hw.
  set (o2 := wait_receipt_with_progress fuel n h timeout (final o1)) in *.
  apply silent_no_submission in Ht2. destruct Ht2 as (Hbr2 & Hsg2 & _).
  assert (Hb12 : builds (trace o1 ++ trace o2) = [])
    by (rewrite builds_app, Hb1, Hb2; reflexivity).
  assert (Hbr12 : broadcasts (trace o1 ++ trace o2) = [h])
    by (rewrite broadcasts_app, Hbr1, Hbr2; reflexivity).
  assert (Hsg12 : signings (trace o1 ++ trace o2) = signings (trace o1))
    by (rewrite signings_app, Hsg2, app_nil_r; reflexivity).
  destruct (result o2) as [rc|e|].
  - eapply post_mono; [apply (Hok h rc (final o2) (trace o1 ++ trace o2)); try congruence|].
    + intros rc' ->. rewrite receipt_polls_app. apply elem_of_app. right.
      apply Hpoll. reflexivity.
    + cbn beta. intros r s t. rewrite app_assoc. auto.
  - destruct Hw.
  - apply (Hcut h); congruence.
Qed.

Lemma sent_or_not_nonce c ch st st' tr :
  chains st !! c = Some ch → sent_or_not c ch st st' tr →
  (length (broadcasts tr) <= 1)%nat ∧
  ∃ ch', chains st' !! c = Some ch' ∧
    nonce ch' = nonce ch + Z.of_nat (length (broadcasts tr)).
Proof.
  intros Hc [[-> ->]|(h & -> & ->)]; (split; [cbn; lia|]).
  - exists ch. cbn. rewrite Z.add_0_r. auto.
  - exists (bump_nonce ch). rewrite lookup_insert_eq. auto.
Qed.

Lemma quiet_after_claim c token :
  quiet (sleep (inject_Z 3) ;;; _ <- get_erc20_balance (W := W) c token ;; ret tt).
Proof. pose proof (quiet_get_erc20_balance (W := W)). quiet_tac. Qed.

Lemma unbuilt_after_claim c token :
  unbuilt (sleep (inject_Z 3) ;;; _ <- get_erc20_balance (W := W) c token ;; ret tt).
Proof. pose proof (unbuilt_get_erc20_balance (W := W)). unbuilt_tac. Qed.

(** What [claim_test_tokens_generic] does, loops cut short or not. *)
Lemma claim_test_tokens_generic_post fuel c ch token explorer_tx network_name st :
  chains st !! c = Some ch →
  post (claim_test_tokens_generic fuel c token explorer_tx network_name) st
    (fun r st' tr =>
       ∃ r0 tr', tr = EvCall (w3 ch) token (BalanceOf (account ch)) r0 :: tr' ∧
         match r0 with
         | inl e => r = Exn e ∧ tr' = []
         | inr _ => r = Ok tt ∨ r = OutOfFuel
         end ∧
         sent_or_not c ch st st' tr ∧
         Forall (fun f => f = ClaimFaucet) (builds tr)).
Proof.
  intros Hc. unfold claim_test_tokens_generic, get_erc20_balance.
  apply post_bind. apply post_bind. apply post_get_chain with ch; [exact Hc|].
  apply post_bind. apply post_request. intros r0 w _.
  destruct r0 as [e|bal].
  { eexists _, []. split; [reflexivity|]. split; [auto|].
    split; [left; auto|constructor]. }
  apply post_bind. apply post_decimals. intros d rd wd.
  unfold post at 1. tr_simpl.
  set (s0 := mkState wd (chains st) (next_chain st)).
  assert (Hc0 : chains s0 !! c = Some ch) by exact Hc.
  apply post_mono with (Q := fun r st' tr =>
      (r = Ok tt ∨ r = OutOfFuel) ∧ sent_or_not c ch s0 st' tr ∧
      Forall (fun f => f = ClaimFaucet) (builds tr)).
  2:{ intros r s t (Hr & Hs & Hb). eexists _, _. split; [reflexivity|].
      split; [exact Hr|]. split; [exact Hs|exact Hb]. }
  apply post_try. apply post_bind. apply post_get_chain with ch; [exact Hc0|].
  apply post_bind. apply post_request. intros rb wb _.
  destruct rb as [e|txc].
  { unfold post. tr_simpl. split; [auto|]. split; [left; auto|].
    repeat constructor. }
  apply post_send_wait with ch; [exact Hc0| | |].
  - intros h rc s t Hn Hb Hbr Hcs _ _. proj_simpl.
    destruct (receipt_ok rc).
    + apply post_calm; [apply quiet_after_claim|apply unbuilt_after_claim|].
      intros r s' t' Hc' Hn' Ht' Hb'. apply silent_broadcasts in Ht'.
      destruct r as [[]|e|]; unfold post; tr_simpl;
        (split; [auto|]); (split; [|builds_of [ClaimFaucet]]);
        right; exists h; (split; [trace_parts|congruence]).
    + unfold post. tr_simpl. split; [auto|].
      split; [|builds_of [ClaimFaucet]].
      right. exists h. split; [trace_parts|congruence].
  - intros s t Hn Hb Hbr Hcs _. proj_simpl. split.
    + intros e. unfold post. tr_simpl.
      split; [auto|]. split; [|builds_of [ClaimFaucet]].
      left. split; [trace_parts|congruence].
    + split; [auto|]. split; [|builds_of [ClaimFaucet]].
      left. split; [trace_parts|congruence].
  - intros h s t Hn Hb Hbr Hcs _. proj_simpl.
    split; [auto|]. split; [|builds_of [ClaimFaucet]].
    right. exists h. split; [trace_parts|congruence].
Qed.

End CallerFacts.

Section CallerTheorems.
Context {W : Type} `{!Web3 W}.
Implicit Types st : state W.

(** X12. [claim_test_tokens_generic] raises only what its first balance
    read raises, before it has done anything else.  Once that read has
    answered, the call returns whether the faucet claim was built, was
    broadcast, was confirmed or not: a failed claim is reported on the
    screen only.  It builds nothing but the faucet claim, broadcasts at most
    one transaction, and the nonce of the [Chain] object has advanced by the
    number of transactions broadcast. *)
Theorem claim_test_tokens_generic_swallows fuel c ch token explorer_tx network_name
    st clock :
  ClockLaws clock → (polls_within TX_WAIT_TIMEOUT 2 <= fuel)%nat →
  chains st !! c = Some ch →
  let o := claim_test_tokens_generic fuel c token explorer_tx network_name st in
  ∃ r0, head (trace o) = Some (EvCall (w3 ch) token (BalanceOf (account ch)) r0) ∧
    match r0 with
    | inl e => result o = Exn e ∧ length (trace o) = 1%nat
    | inr _ => result o = Ok tt
    end ∧
    Forall (fun f => f = ClaimFaucet) (builds (trace o)) ∧
    (length (broadcasts (trace o)) <= 1)%nat ∧
    ∃ ch', chains (final o) !! c = Some ch' ∧
      nonce ch' = nonce ch + Z.of_nat (length (broadcasts (trace o))).
Proof.
  intros L Hf Hc o.
  pose proof (claim_test_tokens_generic_post fuel c ch token explorer_tx network_name
                st Hc) as Hp.
  pose proof (ends_claim_test_tokens_generic clock L fuel Hf c token explorer_tx
                network_name st) as He.
  unfold post in Hp. fold o in Hp, He.
  destruct Hp as (r0 & tr' & Htr & Hr & Hs & Hb).
  exists r0. rewrite Htr at 1. split; [reflexivity|].
  split; [|split; [exact Hb|exact (sent_or_not_nonce c ch st _ _ Hc Hs)]].
  destruct r0 as [e|b].
  - destruct Hr as [Hr ->]. rewrite Htr. auto.
  - destruct Hr as [Hr|Hr]; [exact Hr|contradiction].
Qed.

Lemma self_transfer_fields a amount_wei :
  self_transfer a amount_wei !! "from" = Some (VStr a) ∧
  self_transfer a amount_wei !! "to" = Some (VStr a) ∧
  self_transfer a amount_wei !! "value" = Some (VInt amount_wei) ∧
  self_transfer a amount_wei !! "nonce" = None.
Proof.
  unfold self_transfer. repeat split.
Qed.

(** X13. For an amount of wei that can be displayed (a [uint256]),
    [l2_self_transfer_eth] signs nothing but a transfer of [amount_wei] from
    the account of the [Chain] object to itself, with the nonce of that
    object.  It returns only when the receipt of the transaction it
    broadcast was found with status 1; when it raises after a broadcast, it
    raises its own [RuntimeError], and the nonce has advanced all the
    same. *)
Theorem l2_self_transfer_eth_spec fuel l2 ch amount_wei st :
  chains st !! l2 = Some ch → 0 <= amount_wei < 2 ^ 256 →
  let o := l2_self_transfer_eth fuel l2 amount_wei st in
  (∀ tx' r, (tx', r) ∈ signings (trace o) →
     tx' !! "from" = Some (VStr (account ch)) ∧ tx' !! "to" = Some (VStr (account ch)) ∧
     tx' !! "value" = Some (VInt amount_wei) ∧ tx' !! "nonce" = Some (VInt (nonce ch))) ∧
  (result o = Ok tt →
   ∃ h rc, broadcasts (trace o) = [h] ∧ inr (Some rc) ∈ receipt_polls (trace o) ∧
           status rc = 1) ∧
  (∀ e, result o = Exn e → broadcasts (trace o) ≠ [] → e = RuntimeError "ETH 自转失败") ∧
  (length (broadcasts (trace o)) <= 1)%nat ∧
  ∃ ch', chains (final o) !! l2 = Some ch' ∧
    nonce ch' = nonce ch + Z.of_nat (length (broadcasts (trace o))).
Proof.
  intros Hc _. cbn zeta.
  change (post (l2_self_transfer_eth fuel l2 amount_wei) st (fun r st' tr =>
    (∀ tx' r, (tx', r) ∈ signings tr →
       tx' !! "from" = Some (VStr (account ch)) ∧ tx' !! "to" = Some (VStr (account ch)) ∧
       tx' !! "value" = Some (VInt amount_wei) ∧ tx' !! "nonce" = Some (VInt (nonce ch))) ∧
    (r = Ok tt →
     ∃ h rc, broadcasts tr = [h] ∧ inr (Some rc) ∈ receipt_polls tr ∧ status rc = 1) ∧
    (∀ e, r = Exn e → broadcasts tr ≠ [] → e = RuntimeError "ETH 自转失败") ∧
    (length (broadcasts tr) <= 1)%nat ∧
    ∃ ch', chains st' !! l2 = Some ch' ∧
      nonce ch' = nonce ch + Z.of_nat (length (broadcasts tr)))).
  unfold l2_self_transfer_eth.
  apply post_bind. apply post_get_chain with ch; [exact Hc|].
  destruct (self_transfer_fields (account ch) amount_wei) as (Hfrom & Hto & Hval & Hnon).
  assert (Hfields : ∀ tr,
            signings tr = signings (trace (build_and_send fuel l2
                             (self_transfer (account ch) amount_wei) true st)) →
            ∀ tx' r, (tx', r) ∈ signings tr →
              tx' !! "from" = Some (VStr (account ch)) ∧
              tx' !! "to" = Some (VStr (account ch)) ∧
              tx' !! "value" = Some (VInt amount_wei) ∧
              tx' !! "nonce" = Some (VInt (nonce ch))).
  { intros tr -> tx' r Hin.
    pose proof (build_and_send_signed fuel l2 ch (self_transfer (account ch) amount_wei)
                  true st Hc) as Hs. unfold post in Hs.
    destruct Hs as [Hs|(txf & s & more' & Hs & Hkeep & Hnonce & Hall)].
    { rewrite Hs in Hin. apply elem_of_nil in Hin. contradiction. }
    rewrite !(Hall tx' r Hin) by discriminate. auto. }
  apply post_send_wait with ch; [exact Hc| | |].
  - intros h rc s t Hn Hb Hbr Hcs Hsg Hpoll.
    assert (Hnonce : ∃ ch', chains s !! l2 = Some ch' ∧
              nonce ch' = nonce ch + Z.of_nat (length (broadcasts (t ++ [])))).
    { exists (bump_nonce ch). rewrite Hcs, lookup_insert_eq, app_nil_r, Hbr. auto. }
    destruct rc as [rc|]; cbn [receipt_ok].
    + destruct (status rc =? 1) eqn:Es; unfold post; tr_simpl.
      * apply Z.eqb_eq in Es. rewrite app_nil_r in *.
        split; [apply Hfields, Hsg|]. split; [|split; [discriminate|]].
        { intros _. exists h, rc. auto. }
        split; [cbv beta; cbn [app]; rewrite Hbr; cbn; lia|exact Hnonce].
      * rewrite app_nil_r in *.
        split; [apply Hfields, Hsg|]. split; [discriminate|].
        split; [intros e [= <-] _; reflexivity|].
        split; [cbv beta; cbn [app]; rewrite Hbr; cbn; lia|exact Hnonce].
    + unfold post. tr_simpl. rewrite app_nil_r in *.
      split; [apply Hfields, Hsg|]. split; [discriminate|].
      split; [intros e [= <-] _; reflexivity|].
      split; [cbv beta; cbn [app]; rewrite Hbr; cbn; lia|exact Hnonce].
  - intros s t Hn Hb Hbr Hcs Hsg.
    assert (Hnonce : ∃ ch', chains s !! l2 = Some ch' ∧
              nonce ch' = nonce ch + Z.of_nat (length (broadcasts t))).
    { exists ch. rewrite Hcs, Hbr. cbn. rewrite Z.add_0_r. auto. }
    split; [intros e|].
    + split; [apply Hfields, Hsg|]. split; [discriminate|].
      split; [intros e' _ Hne; exfalso; apply Hne; exact Hbr|].
      split; [cbv beta; cbn [app]; rewrite Hbr; cbn; lia|exact Hnonce].
    + split; [apply Hfields, Hsg|]. split; [discriminate|].
      split; [discriminate|].
      split; [cbv beta; cbn [app]; rewrite Hbr; cbn; lia|exact Hnonce].
  - intros h s t Hn Hb Hbr Hcs Hsg.
    split; [apply Hfields, Hsg|]. split; [discriminate|]. split; [discriminate|].
    split; [cbv beta; cbn [app]; rewrite Hbr; cbn; lia|].
    exists (bump_nonce ch). rewrite Hcs, lookup_insert_eq. cbn [app]. rewrite Hbr. auto.
Qed.

End CallerTheorems.

(** * What the bridge functions ask for *)

Section BridgeBuilds.
Context {W : Type} `{!Web3 W}.
Implicit Types st : state W.

Lemma within_bind_ret E {A B} (a : A) (k : A → M W B) :
  within E (k a) → within E (x <- ret a ;; k x).
Proof. intros Hk st. exact (Hk st). Qed.

Lemma within_bind_raise E `{!Effect E} {A B} e (k : A → M W B) :
  within E (x <- raise e ;; k x).
Proof. intros st. apply effect_nil. Qed.

Lemma building_build (S : fncall → Prop) n c f p :
  S f → within (building S) (rpc_build_transaction n c f p).
Proof.
  intros HS. unfold rpc_build_transaction. apply within_request; within_side.
  apply building_allows_build, HS.
Qed.

Lemma building_weaken (S S' : fncall → Prop) {A} (m : M W A) :
  (∀ f, S f → S' f) → within (building S) m → within (building S') m.
Proof. intros HS Hm st. eapply Forall_impl; [apply Hm|exact HS]. Qed.

Lemma building_build_and_send S fuel c tx sp :
  within (building S) (build_and_send fuel c tx sp).
Proof. apply building_unbuilt, unbuilt_build_and_send. Qed.

Lemma building_wait_receipt S fuel n h timeout :
  within (building S) (wait_receipt_with_progress fuel n h timeout).
Proof. apply building_unbuilt, unbuilt_wait_receipt_with_progress. Qed.

Lemma building_get_erc20_balance S c token :
  within (building S) (get_erc20_balance c token).
Proof. apply building_unbuilt, unbuilt_get_erc20_balance. Qed.

Lemma building_call S n c f : within (building S) (rpc_call n c f).
Proof. apply building_unbuilt, unbuilt_rpc_call. Qed.

Lemma building_check_and_claim S fuel c token required token_name :
  S ClaimFaucet →
  within (building S) (check_and_claim_erc20_balance fuel c token required token_name).
Proof.
  intros HS. unfold check_and_claim_erc20_balance.
  pose proof (building_build_and_send S fuel c).
  pose proof (building_wait_receipt S fuel).
  pose proof (building_call S).
  pose proof (fun n c p => building_build S n c ClaimFaucet p HS).
  repeat within_step.
Qed.

Lemma building_ensure_allowance S fuel c token spender m :
  S (Approve spender (approve_amount m)) →
  within (building S) (ensure_allowance fuel c token spender m).
Proof.
  intros HS. unfold ensure_allowance.
  pose proof (building_build_and_send S fuel c).
  pose proof (building_wait_receipt S fuel).
  pose proof (building_call S).
  pose proof (fun n c p => building_build S n c _ p HS).
  repeat within_step.
Qed.

Lemma approve_amount_floor m : approve_floor_wei <= approve_amount m.
Proof. unfold approve_amount. lia. Qed.

Lemma building_deposit_erc20_to_l2 fuel l1 l2 l1_token l2_token amount :
  within (building (deposit_call l1_token l2_token amount))
    (deposit_erc20_to_l2 fuel l1 l2 l1_token l2_token amount).
Proof.
  set (S := deposit_call l1_token l2_token amount).
  assert (Hrest : ∀ a, a <= amount →
    within (building S)
      (_ <- ensure_allowance fuel l1 l1_token ADDR_L1_STANDARD_BRIDGE a ;;
       ch1 <- get_chain l1 ;;
       ch2 <- get_chain l2 ;;
       tx <- rpc_build_transaction (w3 ch1) ADDR_L1_STANDARD_BRIDGE
               (DepositERC20To l1_token l2_token (account ch2) a DEFAULT_L2_GAS_LIMIT_MSG "")
               {["from" := VStr (account ch1)]} ;;
       tx_hash <- build_and_send fuel l1 tx true ;;
       rcpt <- wait_receipt_with_progress fuel (w3 ch1) tx_hash TX_WAIT_TIMEOUT ;;
       if receipt_ok rcpt then
         sleep (inject_Z 2) ;;;
         _ <- get_erc20_balance l1 l1_token ;;
         ret tt
       else raise (RuntimeError "ERC-20 桥接失败"))).
  { intros a Ha.
    pose proof (building_ensure_allowance S fuel l1 l1_token ADDR_L1_STANDARD_BRIDGE a
                  (conj eq_refl (approve_amount_floor a))).
    pose proof (building_build_and_send S fuel l1).
    pose proof (building_wait_receipt S fuel).
    pose proof (building_get_erc20_balance S l1 l1_token).
    assert (∀ n c to p, within (building S)
              (rpc_build_transaction n c
                 (DepositERC20To l1_token l2_token to a DEFAULT_L2_GAS_LIMIT_MSG "") p)).
    { intros. apply building_build. repeat split. exact Ha. }
    repeat within_step. }
  unfold deposit_erc20_to_l2.
  apply within_bind; within_side.
  { apply building_check_and_claim. exact I. }
  destruct (negb _); [auto with within|].
  apply within_bind; within_side; [apply building_get_erc20_balance|].
  destruct (fst _ <? amount) eqn:Elt.
  - destruct (fst _ =? 0).
    + apply within_bind_raise; apply _.
    + apply within_bind_ret, Hrest. apply Z.ltb_lt in Elt. lia.
  - apply within_bind_ret, Hrest. lia.
Qed.

(** X14. Whatever the node answers, [deposit_erc20_to_l2] builds no
    contract transaction but faucet claims, approvals of the L1 standard
    bridge for 1,000,000 tokens or more, and deposits of [l1_token] towards
    [l2_token] of at most the [amount] asked for, with the L2 gas limit
    200000 and no data: a balance below [amount] lowers the deposit, nothing
    raises it. *)
Theorem deposit_erc20_to_l2_at_most fuel l1 l2 l1_token l2_token amount st :
  Forall (deposit_call l1_token l2_token amount)
    (builds (trace (deposit_erc20_to_l2 fuel l1 l2 l1_token l2_token amount st))).
Proof. apply building_deposit_erc20_to_l2. Qed.

Lemma deposit_call_le l1_token l2_token a amount f :
  a <= amount → deposit_call l1_token l2_token a f → deposit_call l1_token l2_token amount f.
Proof.
  intros Ha. destruct f; cbn; auto.
  intros (? & ? & ? & ? & ?). repeat split; auto. lia.
Qed.

Lemma building_auto_acquire fuel l2 l1 l2_token amount :
  within (building (deposit_call ADDR_L1_ERC20 l2_token amount))
    (auto_acquire fuel l2 l1 l2_token amount).
Proof.
  set (S := deposit_call ADDR_L1_ERC20 l2_token amount).
  unfold auto_acquire.
  assert (Hbal : ∀ n a, within (building S) (rpc_get_balance n a))
    by (intros; apply building_unbuilt, unbuilt_rpc_get_balance).
  assert (Hnew : ∀ ch, within (W := W) (building S) (new_chain ch))
    by (intros; apply building_unbuilt, unbuilt_new_chain).
  assert (Hcount : ∀ n a, within (building S) (rpc_get_transaction_count n a)).
  { intros. unfold rpc_get_transaction_count. apply within_request; within_side.
    auto with within. }
  pose proof (fun c tok req nm =>
                building_check_and_claim S fuel c tok req nm I) as Hclaim.
  pose proof (building_get_erc20_balance S) as Hget.
  assert (Hdep : ∀ t1 t2 b, within (building S)
            (deposit_erc20_to_l2 fuel t1 t2 ADDR_L1_ERC20 l2_token (Z.min b amount))).
  { intros. eapply building_weaken; [|apply building_deposit_erc20_to_l2].
    intros f. apply deposit_call_le. lia. }
  repeat within_step.
Qed.

Lemma deposit_withdraw_call l2_token amount f :
  deposit_call ADDR_L1_ERC20 l2_token amount f → withdraw_call l2_token amount f.
Proof. destruct f; cbn; auto. contradiction. Qed.

Lemma building_withdraw_erc20_to_l1 fuel l2 l1 l2_token amount :
  within (building (withdraw_call l2_token amount))
    (withdraw_erc20_to_l1 fuel l2 l1 l2_token amount).
Proof.
  set (S := withdraw_call l2_token amount).
  unfold withdraw_erc20_to_l1.
  pose proof (building_weaken _ S _ (deposit_withdraw_call l2_token amount)
                (building_auto_acquire fuel l2 l1 l2_token amount)).
  pose proof (building_get_erc20_balance S).
  pose proof (building_build_and_send S fuel l2).
  pose proof (building_wait_receipt S fuel).
  assert (∀ n c a p, a <= amount → within (building S)
            (rpc_build_transaction n c (Withdraw l2_token a 0 "") p)).
  { intros. apply building_build. repeat split. assumption. }
  apply within_bind; within_side; [auto|].
  destruct (fst _ =? 0); [repeat within_step|].
  apply within_bind; within_side; [auto with within|].
  apply within_bind; within_side.
  { match goal with H : ∀ n c a p, _ |- _ => apply H end.
    destruct (fst _ <? amount) eqn:E; [apply Z.ltb_lt in E|]; lia. }
  repeat within_step.
Qed.

(** X15. Whatever the node answers, [withdraw_erc20_to_l1] builds no
    withdrawal but of [l2_token], for at most the [amount] asked for, with
    minimum gas limit 0 and no extra data; what else it builds belongs to
    the deposit of [ADDR_L1_ERC20] that is to fill an empty balance, and is
    bounded by [amount] too. *)
Theorem withdraw_erc20_to_l1_at_most fuel l2 l1 l2_token amount st :
  Forall (withdraw_call l2_token amount)
    (builds (trace (withdraw_erc20_to_l1 fuel l2 l1 l2_token amount st))).
Proof. apply building_withdraw_erc20_to_l1. Qed.

End BridgeBuilds.

(** * The withdrawal and its recovery *)

Section Sparing.
Context {W : Type} `{!Web3 W}.
Implicit Types st : state W.

#[export] Instance sparing_effect n : Effect (W := W) (sparing n).
Proof.
  split.
  - intros s Hn. auto.
  - intros s1 s2 s3 t1 t2 H1 H2 Hn.
    destruct (H1 Hn) as [Hn2 Hc1]. destruct (H2 Hn2) as [Hn3 Hc2].
    split; [exact Hn3|]. intros c Hc. rewrite Hc2, Hc1 by exact Hc. reflexivity.
Qed.

Lemma sparing_allows n ev : allows (W := W) (sparing n) ev.
Proof. intros s w Hn. cbn. auto. Qed.

Lemma sparing_framed n c {A} (m : M W A) :
  (n <= c)%nat → within (framed c) m → within (sparing n) m.
Proof.
  intros Hle Hm st Hn. destruct (Hm st) as [Hnext Hc].
  split; [lia|]. intros c' Hlt. apply Hc. lia.
Qed.

(** The handle [Chain(...)] gives out is a new one. *)
Lemma sparing_new_chain n ch {B} (k : nat → M W B) :
  (∀ x, (n <= x)%nat → within (sparing n) (k x)) →
  within (sparing n) (x <- new_chain ch ;; k x).
Proof.
  intros Hk st Hn.
  set (st1 := mkState (world st) (<[next_chain st := ch]> (chains st)) (S (next_chain st))).
  assert (H1 : sparing n st st1 []).
  { intros _. split; [cbn; lia|]. intros c Hc. cbn. apply lookup_insert_ne. lia. }
  pose proof (Hk (next_chain st) Hn st1) as H2.
  exact (effect_app _ _ _ _ _ H1 H2 Hn).
Qed.

Lemma sparing_auto_acquire n fuel l2 l1 l2_token amount :
  within (sparing n) (auto_acquire fuel l2 l1 l2_token amount).
Proof.
  unfold auto_acquire. pose proof (sparing_allows n) as Hal.
  pose proof (sparing_effect n) as Heff.
  unfold_rpc.
  apply within_bind; within_side; [auto with within|].
  apply within_bind; within_side; [auto with within|].
  apply within_bind; within_side; [within_step|].
  within_step; [auto with within|].
  apply within_bind; within_side; [within_step|].
  apply sparing_new_chain. intros x Hx.
  apply within_bind; within_side.
  { apply sparing_framed with x; [exact Hx|apply framed_check_and_claim]. }
  within_step; [|auto with within].
  apply within_bind; within_side.
  { apply sparing_framed with x; [exact Hx|apply framed_get_erc20_balance]. }
  within_step; [|auto with within].
  apply within_bind; within_side; [within_step|].
  apply sparing_new_chain. intros y Hy.
  apply within_bind; within_side; [|auto with within].
  apply sparing_framed with x; [exact Hx|apply framed_deposit_erc20_to_l2].
Qed.

(** The empty-balance branch of [withdraw_erc20_to_l1]. *)
Lemma within_recovery E `{!Effect E} fuel l2 l1 l2_token amount :
  within E (auto_acquire fuel l2 l1 l2_token amount) →
  within E
    (returned <- try_except (auto_acquire fuel l2 l1 l2_token amount) (fun _ => ret false) ;;
     if returned then ret tt
     else raise (RuntimeError "L2 ERC-20 代币余额不足，已尝试自动获取但失败")).
Proof. intros Ha. repeat within_step. Qed.

End Sparing.

Section WithdrawCases.
Context {W : Type} `{!Web3 W}.
Implicit Types st : state W.

Lemma quiet_after_send d c token :
  quiet (sleep d ;;; _ <- get_erc20_balance (W := W) c token ;; ret tt).
Proof. pose proof (quiet_get_erc20_balance (W := W)). quiet_tac. Qed.

Lemma unbuilt_after_send d c token :
  unbuilt (sleep d ;;; _ <- get_erc20_balance (W := W) c token ;; ret tt).
Proof. pose proof (unbuilt_get_erc20_balance (W := W)). unbuilt_tac. Qed.

Lemma receipt_ok_status rc :
  receipt_ok rc = true → ∃ rc', rc = Some rc' ∧ status rc' = 1.
Proof.
  destruct rc as [rc'|]; [|discriminate]. cbn. intros E%Z.eqb_eq. eauto.
Qed.

Lemma min_of_test amount b : (if b <? amount then b else amount) = Z.min amount b.
Proof. destruct (b <? amount) eqn:E; [apply Z.ltb_lt in E|apply Z.ltb_ge in E]; lia. Qed.

(** X16. For a [uint256] amount: when the balance [withdraw_erc20_to_l1]
    reads is not zero, it builds one contract transaction, the withdrawal of
    the smaller of [amount] and that balance, and makes no [Chain] object;
    it returns only when the receipt of the one transaction it broadcast was
    found with status 1, and the nonce of the L2 [Chain] object has advanced
    by the number of transactions broadcast. *)
Theorem withdraw_erc20_to_l1_funded fuel l2 l1 ch2 l2_token amount st b :
  chains st !! l2 = Some ch2 → 0 <= amount < 2 ^ 256 →
  let o := withdraw_erc20_to_l1 fuel l2 l1 l2_token amount st in
  head (trace o) = Some (EvCall (w3 ch2) l2_token (BalanceOf (account ch2)) (inr b)) →
  b ≠ 0 →
  builds (trace o) = [Withdraw l2_token (Z.min amount b) 0 ""] ∧
  (result o = Ok tt →
   ∃ h rc, broadcasts (trace o) = [h] ∧ inr (Some rc) ∈ receipt_polls (trace o) ∧
           status rc = 1) ∧
  next_chain (final o) = next_chain st ∧
  (length (broadcasts (trace o)) <= 1)%nat ∧
  ∃ ch', chains (final o) !! l2 = Some ch' ∧
    nonce ch' = nonce ch2 + Z.of_nat (length (broadcasts (trace o))).
Proof.
  intros Hc2 _. cbn zeta.
  change (post (withdraw_erc20_to_l1 fuel l2 l1 l2_token amount) st (fun r st' tr =>
    head tr = Some (EvCall (w3 ch2) l2_token (BalanceOf (account ch2)) (inr b)) →
    b ≠ 0 →
    builds tr = [Withdraw l2_token (Z.min amount b) 0 ""] ∧
    (r = Ok tt →
     ∃ h rc, broadcasts tr = [h] ∧ inr (Some rc) ∈ receipt_polls tr ∧ status rc = 1) ∧
    next_chain st' = next_chain st ∧
    (length (broadcasts tr) <= 1)%nat ∧
    ∃ ch', chains st' !! l2 = Some ch' ∧
      nonce ch' = nonce ch2 + Z.of_nat (length (broadcasts tr)))).
  unfold withdraw_erc20_to_l1, get_erc20_balance.
  apply post_bind. apply post_bind. apply post_get_chain with ch2; [exact Hc2|].
  apply post_bind. apply post_request. intros r0 w0 _.
  destruct r0 as [e|bal]; [intros [=]|].
  apply post_bind. apply post_decimals. intros d rd wd.
  unfold post at 1. tr_simpl.
  destruct (bal =? 0) eqn:Ebal.
  { apply Z.eqb_eq in Ebal. subst bal. eapply post_mono; [apply post_true|]. cbn beta.
    intros ? ? ? _ [= <-] Hb. contradiction. }
  set (s0 := mkState wd (chains st) (next_chain st)).
  assert (Hc0 : chains s0 !! l2 = Some ch2) by exact Hc2.
  rewrite min_of_test.
  apply post_mono with (Q := fun r st' tr =>
    builds tr = [Withdraw l2_token (Z.min amount bal) 0 ""] ∧
    (r = Ok tt →
     ∃ h rc, broadcasts tr = [h] ∧ inr (Some rc) ∈ receipt_polls tr ∧ status rc = 1) ∧
    next_chain st' = next_chain st ∧
    sent_or_not l2 ch2 s0 st' tr).
  2:{ intros r s t (Hb & Hok & Hn & Hs) [= <-] _. tr_simpl.
      pose proof (sent_or_not_nonce l2 ch2 s0 s t Hc0 Hs) as Hnonce.
      split; [exact Hb|]. split; [exact Hok|]. split; [exact Hn|exact Hnonce]. }
  apply post_bind. apply post_get_chain with ch2; [exact Hc0|].
  apply post_bind. apply post_request. intros rb wb _.
  destruct rb as [e|txw].
  { unfold post. tr_simpl. split; [reflexivity|]. split; [discriminate|].
    split; [reflexivity|]. left. auto. }
  apply post_send_wait with ch2; [exact Hc0| | |].
  - intros h rc s t Hn Hb Hbr Hcs _ Hpoll. proj_simpl.
    destruct (receipt_ok rc) eqn:Eok.
    + apply receipt_ok_status in Eok. destruct Eok as (rc' & -> & Hst).
      apply post_calm; [apply quiet_after_send|apply unbuilt_after_send|].
      intros r s' t' Hc' Hn' Ht' Hb'.
      pose proof Ht' as Hbr'. apply silent_broadcasts in Hbr'.
      assert (Hrp : inr (Some rc') ∈ receipt_polls (t ++ t')).
      { rewrite receipt_polls_app. apply elem_of_app. left. apply Hpoll. reflexivity. }
      split; [trace_parts|]. split.
      { intros _. exists h, rc'. split; [trace_parts|]. tr_simpl. auto. }
      split; [rewrite Hn'; exact Hn|]. right. exists h. split; [trace_parts|congruence].
    + unfold post. tr_simpl. split; [trace_parts|]. split; [discriminate|].
      split; [exact Hn|]. right. exists h. split; [trace_parts|congruence].
  - intros s t Hn Hb Hbr Hcs _. proj_simpl.
    assert (Hq : ∀ r : res unit, r ≠ Ok tt →
      builds ([] ++ [EvBuild (w3 ch2) ADDR_L2_STANDARD_BRIDGE
                       (Withdraw l2_token (Z.min amount bal) 0 "")
                       {["from" := VStr (account ch2)]} (inr txw)] ++ t)
        = [Withdraw l2_token (Z.min amount bal) 0 ""] ∧
      (r = Ok tt → ∃ h rc, broadcasts ([] ++ [EvBuild (w3 ch2) ADDR_L2_STANDARD_BRIDGE
                       (Withdraw l2_token (Z.min amount bal) 0 "")
                       {["from" := VStr (account ch2)]} (inr txw)] ++ t) = [h] ∧
          inr (Some rc) ∈ receipt_polls ([] ++ [EvBuild (w3 ch2) ADDR_L2_STANDARD_BRIDGE
                       (Withdraw l2_token (Z.min amount bal) 0 "")
                       {["from" := VStr (account ch2)]} (inr txw)] ++ t) ∧ status rc = 1) ∧
      next_chain s = next_chain st ∧
      sent_or_not l2 ch2 s0 s ([] ++ [EvBuild (w3 ch2) ADDR_L2_STANDARD_BRIDGE
                       (Withdraw l2_token (Z.min amount bal) 0 "")
                       {["from" := VStr (account ch2)]} (inr txw)] ++ t)).
    { intros r Hr. split; [trace_parts|]. split; [intros; contradiction|].
      split; [exact Hn|]. left. split; [trace_parts|congruence]. }
    split; [intros e|]; apply Hq; discriminate.
  - intros h s t Hn Hb Hbr Hcs _. proj_simpl.
    split; [trace_parts|]. split; [discriminate|].
    split; [exact Hn|]. right. exists h. split; [trace_parts|congruence].
Qed.

(** X17. When the balance [withdraw_erc20_to_l1] reads is zero, it builds
    no withdrawal, whether it returns or raises: what it builds belongs to
    the deposit of [ADDR_L1_ERC20], of at most [amount].  The deposit works
    on [Chain] objects of its own: those the caller holds, [l1] and [l2]
    among them, keep the nonce they had. *)
Theorem withdraw_erc20_to_l1_empty fuel l2 l1 ch2 l2_token amount st :
  chains st !! l2 = Some ch2 →
  let o := withdraw_erc20_to_l1 fuel l2 l1 l2_token amount st in
  head (trace o) = Some (EvCall (w3 ch2) l2_token (BalanceOf (account ch2)) (inr 0)) →
  Forall (deposit_call ADDR_L1_ERC20 l2_token amount) (builds (trace o)) ∧
  (next_chain st <= next_chain (final o))%nat ∧
  ∀ c, (c < next_chain st)%nat → chains (final o) !! c = chains st !! c.
Proof.
  intros Hc2. cbn zeta.
  change (post (withdraw_erc20_to_l1 fuel l2 l1 l2_token amount) st (fun r st' tr =>
    head tr = Some (EvCall (w3 ch2) l2_token (BalanceOf (account ch2)) (inr 0)) →
    Forall (deposit_call ADDR_L1_ERC20 l2_token amount) (builds tr) ∧
    (next_chain st <= next_chain st')%nat ∧
    ∀ c, (c < next_chain st)%nat → chains st' !! c = chains st !! c)).
  unfold withdraw_erc20_to_l1, get_erc20_balance.
  apply post_bind. apply post_bind. apply post_get_chain with ch2; [exact Hc2|].
  apply post_bind. apply post_request. intros r0 w0 _.
  destruct r0 as [e|bal]; [intros [=]|].
  apply post_bind. apply post_decimals. intros d rd wd.
  unfold post at 1. tr_simpl.
  destruct (bal =? 0) eqn:Ebal.
  2:{ eapply post_mono; [apply post_true|]. cbn beta.
      intros ? ? ? _ [= ->]. discriminate. }
  set (s0 := mkState wd (chains st) (next_chain st)).
  apply post_mono with (Q := fun r st' tr =>
    building (deposit_call ADDR_L1_ERC20 l2_token amount) s0 st' tr ∧
    sparing (next_chain st) s0 st' tr).
  2:{ intros r s t [Hb Hs] _. tr_simpl. split; [exact Hb|].
      apply Hs. cbn. lia. }
  apply post_conj.
  - apply post_within with (E := building (deposit_call ADDR_L1_ERC20 l2_token amount));
      [|auto].
    apply within_recovery; [apply _|apply building_auto_acquire].
  - apply post_within with (E := sparing (next_chain st)); [|auto].
    apply within_recovery; [apply _|apply sparing_auto_acquire].
Qed.

End WithdrawCases.


(** * The scripted node and the scenarios *)

#[local] Existing Instance Mock.web3.

(** The scripted node's clock obeys the clock laws: requests take no time
    and sleeping takes the time asked for. *)
Lemma mock_clock_laws : ClockLaws (W := Mock.node) Mock.clock.
Proof.
  split.
  - intros w. apply Qle_refl.
  - intros w. apply Qle_refl.
  - intros d w. cbn. rewrite Qred_correct. apply Qle_refl.
  - intros n h w. cbn. unfold Mock.pop_receipt.
    destruct (Mock.pop _ _). apply Qle_refl.
  - intros n a w. cbn. unfold Mock.pop_balance.
    destruct (Mock.pop _ _). apply Qle_refl.
Qed.

(** The retry scenario by evaluation: two transactions signed with the same
    nonce 9, the second one accepted, and the [Chain] nonce ends at 10. *)
Example retry_runs :
  result Scenario.retry = Ok "0xh2" ∧
  map (fun s => s.1 !! "nonce") (signings (trace Scenario.retry))
    = [Some (VInt 9); Some (VInt 9)] ∧
  map (fun s => s.1 !! "maxPriorityFeePerGas") (signings (trace Scenario.retry))
    = [Some (VInt 2000000000); Some (VInt 2500000000)] ∧
  (nonce <$> chains (final Scenario.retry) !! 1%nat) = Some 10.
Proof. vm_compute. repeat split. Qed.

(** An estimate of 1,000,000 under a cap of 300,000 gives 300,000. *)
Example estimate_runs : result Scenario.estimate = Ok 300000.
Proof. vm_compute. reflexivity. Qed.

(** [wait_receipt_with_progress] stops at the failed receipt and leaves the
    successful one scripted after it unread. *)
Example receipts_runs :
  result Scenario.receipts = Ok (Some (Receipt 0 21000)) ∧
  receipt_polls (trace Scenario.receipts)
    = [inl Scenario.not_found; inr None; inr (Some (Receipt 0 21000))].
Proof. vm_compute. split; reflexivity. Qed.

(** C4. Where the code departs from the claim.  With a token balance of 5
    where 10 are required, the faucet claim is built and broadcast and its
    receipt reports failure (status 0): [check_and_claim_erc20_balance]
    returns False, although the balance before the call is positive.  With
    the same balance, a faucet claim whose broadcast is rejected yields
    True, as the comment in the handler says of every failed claim. *)
Theorem check_and_claim_receipt_failure :
  head (trace Scenario.faucet)
    = Some (EvCall 0 ADDR_L1_ERC20 (BalanceOf Mock.alice) (inr 5)) ∧
  builds (trace Scenario.faucet) = [ClaimFaucet] ∧
  broadcasts (trace Scenario.faucet) = ["0xfa"] ∧
  receipt_polls (trace Scenario.faucet) = [inr (Some (Receipt 0 21000))] ∧
  result Scenario.faucet = Ok false ∧
  result Scenario.faucet_rejected = Ok true.
Proof. vm_compute. repeat split. Qed.

(** C1, witness: a transfer from Sepolia accepted at once. *)
Lemma build_and_send_nonce_witness :
  chains (Mock.start (Mock.with_sends [inr "0xh1"] Mock.quiet)) !! 0%nat
    = Some Mock.sepolia ∧
  ∃ ch', chains (final Scenario.accepted) !! 0%nat = Some ch' ∧
    nonce ch' = nonce Mock.sepolia
                + Z.of_nat (length (broadcasts (trace Scenario.accepted))) ∧
    match result Scenario.accepted with
    | Ok h => broadcasts (trace Scenario.accepted) = [h] ∧
              nonce ch' = nonce Mock.sepolia + 1
    | Exn _ | OutOfFuel => broadcasts (trace Scenario.accepted) = [] ∧
                           nonce ch' = nonce Mock.sepolia
    end.
Proof.
  assert (Hc : chains (Mock.start (Mock.with_sends [inr "0xh1"] Mock.quiet)) !! 0%nat
               = Some Mock.sepolia) by (vm_compute; reflexivity).
  split; [exact Hc|].
  exact (proj1 (build_and_send_nonce 10 0 Mock.sepolia Scenario.transfer false
                  (Mock.start (Mock.with_sends [inr "0xh1"] Mock.quiet)) Hc)).
Defined.

(** C2, counterexample: in the retry scenario the first transaction is
    signed with a max fee of 4000000017 wei and the second with 5000000021,
    which is less than 1.25 times the first (5000000021.25). *)
Lemma underpriced_retry_truncates :
  map (fun s => s.1 !! "maxFeePerGas") (signings (trace Scenario.retry))
    = [Some (VInt 4000000017); Some (VInt 5000000021)] ∧
  sendings (trace Scenario.retry)
    = [("0xf86b", inl Scenario.underpriced); ("0xf86b", inr "0xh2")] ∧
  4 * 5000000021 < 5 * 4000000017.
Proof. vm_compute. repeat split. Qed.

(** C2, witness: the retry scenario. *)
Lemma build_and_send_underpriced_retry_witness :
  signings (trace Scenario.retry)
    = (Scenario.retry_first.1, Scenario.retry_first.2)
      :: tl (signings (trace Scenario.retry)) ∧
  Scenario.retry_first.1 !! "maxPriorityFeePerGas" = Some (VInt 2000000000) ∧
  Scenario.retry_first.1 !! "maxFeePerGas" = Some (VInt 4000000017) ∧
  sendings (trace Scenario.retry)
    = ("0xf86b", inl Scenario.underpriced) :: tl (sendings (trace Scenario.retry)) ∧
  is_underpriced Scenario.underpriced = true ∧
  retried 1 Mock.giwa (Mock.start Scenario.retry_node) Scenario.retry_first.1
    2000000000 4000000017 "0xf86b" Scenario.underpriced
    (result Scenario.retry) (final Scenario.retry) (trace Scenario.retry).
Proof.
  assert (Hsg : signings (trace Scenario.retry)
                = (Scenario.retry_first.1, Scenario.retry_first.2)
                  :: tl (signings (trace Scenario.retry)))
    by (vm_compute; reflexivity).
  assert (Hp : Scenario.retry_first.1 !! "maxPriorityFeePerGas" = Some (VInt 2000000000))
    by (vm_compute; reflexivity).
  assert (Hf : Scenario.retry_first.1 !! "maxFeePerGas" = Some (VInt 4000000017))
    by (vm_compute; reflexivity).
  assert (Hsd : sendings (trace Scenario.retry)
                = ("0xf86b", inl Scenario.underpriced)
                  :: tl (sendings (trace Scenario.retry)))
    by (vm_compute; reflexivity).
  assert (Hu : is_underpriced Scenario.underpriced = true) by (vm_compute; reflexivity).
  assert (Hc : chains (Mock.start Scenario.retry_node) !! 1%nat = Some Mock.giwa)
    by (vm_compute; reflexivity).
  assert (Hpr : 0 <= 2000000000 < 2 ^ 50) by (split; [lia|reflexivity]).
  assert (Hfr : 0 <= 4000000017 < 2 ^ 50) by (split; [lia|reflexivity]).
  split; [exact Hsg|]. split; [exact Hp|]. split; [exact Hf|].
  split; [exact Hsd|]. split; [exact Hu|].
  exact (proj1 (build_and_send_underpriced_retry 10 1 Mock.giwa Scenario.transfer
                  (Mock.start Scenario.retry_node)
                  Scenario.retry_first.1 Scenario.retry_first.2
                  (tl (signings (trace Scenario.retry)))
                  2000000000 4000000017 "0xf86b" Scenario.underpriced
                  (tl (sendings (trace Scenario.retry)))
                  Hc Hsg Hp Hf Hpr Hfr Hsd Hu)).
Defined.

(** C3, witness: a credit that shows at the third balance read. *)
Lemma wait_for_l2_credit_spec_witness :
  (polls_within 300 5 <= 62)%nat ∧
  0 <= 100 ∧ 0 <= 150 ∧
  (result Scenario.credit = Ok true ↔
   Exists (fun p => credited 100 150 p = true) (balance_polls (trace Scenario.credit))) ∧
  (result Scenario.credit = Ok false ↔
   Forall (idle 100 150) (balance_polls (trace Scenario.credit))).
Proof.
  assert (Hc : chains (Mock.start (Mock.with_balances [inr 100; inr 100; inr 300]
                                     Mock.quiet)) !! 1%nat = Some Mock.giwa)
    by (vm_compute; reflexivity).
  assert (Hf : (polls_within 300 5 <= 62)%nat) by (vm_compute; lia).
  assert (Hb : 0 <= 100) by lia.
  assert (Hd : 0 <= 150) by lia.
  pose proof (wait_for_l2_credit_spec 62 1 Mock.giwa 100 150 300
                (Mock.start (Mock.with_balances [inr 100; inr 100; inr 300] Mock.quiet))
                Mock.clock mock_clock_laws Hc Hf Hb Hd) as H.
  cbv zeta in H. destruct H as (H1 & _ & H3 & _).
  split; [exact Hf|]. split; [exact Hb|]. split; [exact Hd|].
  split; [exact H1|exact H3].
Defined.

(** C6, witness: the quote for GIWA at a base fee of 7 wei. *)
Lemma get_eip1559_fees_floor_witness :
  result (get_eip1559_fees 1 (fee_profile "GIWA Sepolia").1 (fee_profile "GIWA Sepolia").2
            (Mock.start Mock.quiet)) = Ok (7, 2000000000, 4000000017) ∧
  2000000000 * 2 <= 4000000017 ∧
  (7 < 2 ^ 50 → 4000000017 = 5 * 7 / 2 + 2000000000 * 2).
Proof.
  assert (Hq : result (get_eip1559_fees 1 (fee_profile "GIWA Sepolia").1
                         (fee_profile "GIWA Sepolia").2 (Mock.start Mock.quiet))
               = Ok (7, 2000000000, 4000000017)) by (vm_compute; reflexivity).
  assert (Hb : 0 <= 7) by lia.
  pose proof (get_eip1559_fees_floor "GIWA Sepolia" 1 (Mock.start Mock.quiet)
                7 2000000000 4000000017 Hq Hb) as H.
  destruct H as (H1 & _ & _ & H4).
  split; [exact Hq|]. split; [exact H1|exact H4].
Defined.

(** C7, counterexample: the first call's approval reverts, so the call
    raises; the second call in a row finds the allowance still at 0 and
    broadcasts a second approval. *)
Lemma ensure_allowance_twice_two_approvals :
  result Scenario.reverted_first = Exn (RuntimeError "代币授权失败") ∧
  result Scenario.reverted_second = Exn (RuntimeError "代币授权失败") ∧
  broadcasts (trace Scenario.reverted_first ++ trace Scenario.reverted_second)
    = ["0xa1"; "0xa2"] ∧
  builds (trace Scenario.reverted_first ++ trace Scenario.reverted_second)
    = [Approve ADDR_L1_STANDARD_BRIDGE (10 ^ 24); Approve ADDR_L1_STANDARD_BRIDGE (10 ^ 24)] ∧
  (1 < length (broadcasts (trace Scenario.reverted_first
                           ++ trace Scenario.reverted_second)))%nat.
Proof. vm_compute. repeat split; lia. Qed.

(** C7, witness: the approval is confirmed and the token then shows it. *)
Lemma ensure_allowance_idempotent_witness :
  result Scenario.approved_first = Ok (Some "0xa1") ∧
  head (trace Scenario.approved_second)
    = Some (EvCall 0 ADDR_L1_ERC20 (Allowance Mock.alice ADDR_L1_STANDARD_BRIDGE)
              (inr (10 ^ 24))) ∧
  approve_amount (10 ^ 19) <= 10 ^ 24 ∧
  result Scenario.approved_second = Ok None ∧
  (length (broadcasts (trace Scenario.approved_first ++ trace Scenario.approved_second))
   <= 1)%nat.
Proof.
  assert (H1 : result Scenario.approved_first = Ok (Some "0xa1"))
    by (vm_compute; reflexivity).
  assert (H2 : head (trace Scenario.approved_second)
               = Some (EvCall 0 ADDR_L1_ERC20
                         (Allowance Mock.alice ADDR_L1_STANDARD_BRIDGE) (inr (10 ^ 24))))
    by (vm_compute; reflexivity).
  assert (H3 : approve_amount (10 ^ 19) <= 10 ^ 24) by (vm_compute; discriminate).
  assert (Hc : chains (Mock.start Scenario.approved_node) !! 0%nat = Some Mock.sepolia)
    by (vm_compute; reflexivity).
  pose proof (ensure_allowance_idempotent 200 0 Mock.sepolia ADDR_L1_ERC20
                ADDR_L1_STANDARD_BRIDGE (10 ^ 19) (Mock.start Scenario.approved_node)
                (Some "0xa1") (10 ^ 24) Hc H1 H2 H3) as H.
  destruct H as (R & _ & _ & B & _).
  repeat (split; [assumption|]). exact B.
Defined.

(** C8, witness: no token on GIWA and 0.005 ether on Sepolia. *)
Lemma withdraw_erc20_recovery_impossible_witness :
  head (trace Scenario.stranded)
    = Some (EvCall 1 Scenario.ADDR_L2_ERC20 (BalanceOf Mock.alice) (inr 0)) ∧
  head (balance_polls (trace Scenario.stranded)) = Some (inr (5 * 10 ^ 15)) ∧
  5 * 10 ^ 15 < recovery_threshold_wei ∧
  result Scenario.stranded
    = Exn (RuntimeError "L2 ERC-20 代币余额不足，已尝试自动获取但失败") ∧
  Forall (fun ev => submits ev = false) (trace Scenario.stranded) ∧
  builds (trace Scenario.stranded) = [].
Proof.
  assert (H1 : head (trace Scenario.stranded)
               = Some (EvCall 1 Scenario.ADDR_L2_ERC20 (BalanceOf Mock.alice) (inr 0)))
    by (vm_compute; reflexivity).
  assert (H2 : head (balance_polls (trace Scenario.stranded)) = Some (inr (5 * 10 ^ 15)))
    by (vm_compute; reflexivity).
  assert (H3 : 5 * 10 ^ 15 < recovery_threshold_wei) by reflexivity.
  assert (Hc1 : chains (Mock.start (Mock.with_calls [inr 0; inr 18]
                          (Mock.with_balances [inr (5 * 10 ^ 15)] Mock.quiet))) !! 0%nat
                = Some Mock.sepolia) by (vm_compute; reflexivity).
  assert (Hc2 : chains (Mock.start (Mock.with_calls [inr 0; inr 18]
                          (Mock.with_balances [inr (5 * 10 ^ 15)] Mock.quiet))) !! 1%nat
                = Some Mock.giwa) by (vm_compute; reflexivity).
  pose proof (withdraw_erc20_recovery_impossible 200 1 0 Mock.sepolia Mock.giwa
                Scenario.ADDR_L2_ERC20 (10 ^ 19)
                (Mock.start (Mock.with_calls [inr 0; inr 18]
                               (Mock.with_balances [inr (5 * 10 ^ 15)] Mock.quiet)))
                (5 * 10 ^ 15) Hc1 Hc2 H1 H2 H3) as H.
  destruct H as (R & _ & Q & B & _).
  repeat (split; [assumption|]). exact B.
Defined.

(** C9, witness: a lookup that raises, one that finds nothing, then a
    failed receipt. *)
Lemma wait_receipt_with_progress_spec_witness :
  (polls_within 240 2 <= 122)%nat ∧
  (∃ pre, receipt_polls (trace Scenario.receipts) = pre ++ [inr (Some (Receipt 0 21000))] ∧
          Forall (fun p => present p = false) pre) ∧
  (∃ tr', trace Scenario.receipts = tr' ++ [EvGetReceipt 0 "0xh" (inr (Some (Receipt 0 21000)))]).
Proof.
  assert (Hf : (polls_within 240 2 <= 122)%nat) by (vm_compute; lia).
  pose proof (wait_receipt_with_progress_spec 122 0 "0xh" 240
                (Mock.start (Mock.with_receipts
                   [inl Scenario.not_found; inr None; inr (Some (Receipt 0 21000));
                    inr (Some (Receipt 1 21000))] Mock.quiet))
                Mock.clock mock_clock_laws Hf) as H.
  cbv zeta in H.
  change (wait_receipt_with_progress 122 0 "0xh" 240 _) with Scenario.receipts in H.
  assert (R : result Scenario.receipts = Ok (Some (Receipt 0 21000)))
    by (vm_compute; reflexivity).
  rewrite R in H.
  split; [exact Hf|exact H].
Defined.

(** C10, witness: a call with the empty payload, sent from Sepolia. *)
Lemma default_gas_cap_by_payload_witness :
  Scenario.empty_call !! "gas" = None ∧
  Scenario.empty_call !! "data" = Some (VStr "0x") ∧
  payload_cap Scenario.empty_call = 300000 ∧
  ∀ tx' r,
    (tx', r) ∈ signings (trace (build_and_send 10 0 Scenario.empty_call false
                                  (Mock.start (Mock.with_sends [inr "0xh1"] Mock.quiet)))) →
    ∃ g, tx' !! "gas" = Some (VInt g) ∧ g <= payload_cap Scenario.empty_call.
Proof.
  assert (Hg : Scenario.empty_call !! "gas" = None) by (vm_compute; reflexivity).
  assert (Hd : Scenario.empty_call !! "data" = Some (VStr "0x")) by (vm_compute; reflexivity).
  assert (Hc : chains (Mock.start (Mock.with_sends [inr "0xh1"] Mock.quiet)) !! 0%nat
               = Some Mock.sepolia) by (vm_compute; reflexivity).
  assert (Hi : ∀ z, Scenario.empty_call !! "data" = Some (VInt z) → z = 0)
    by (intros z Hz; rewrite Hd in Hz; discriminate Hz).
  pose proof (default_gas_cap_by_payload 10 0 Mock.sepolia Scenario.empty_call false
                (Mock.start (Mock.with_sends [inr "0xh1"] Mock.quiet)) Hc Hg Hi) as H.
  destruct H as (_ & _ & C & S).
  split; [exact Hg|]. split; [exact Hd|]. split; [exact (C Hd)|exact S].
Defined.

(** * The further properties on the scenarios *)

(** X2, witness: the first key of the file comes after a comment and a
    blank line. *)
Lemma load_first_private_key_first_witness :
  Cases.files "add.txt" = Some (Cases.comment_lines ++ Cases.line_a :: Cases.more_lines) ∧
  Forall (fun l => key_of_line Cases.strip l = None) Cases.comment_lines ∧
  key_of_line Cases.strip Cases.line_a = Some Cases.key_a ∧
  load_first_private_key Cases.strip Cases.from_key Cases.files "add.txt"
    = Cases.from_key Cases.key_a.
Proof.
  assert (Hf : Cases.files "add.txt"
               = Some (Cases.comment_lines ++ Cases.line_a :: Cases.more_lines))
    by (vm_compute; reflexivity).
  assert (Hp : Forall (fun l => key_of_line Cases.strip l = None) Cases.comment_lines)
    by (repeat (constructor; [vm_compute; reflexivity|]); constructor).
  assert (Hl : key_of_line Cases.strip Cases.line_a = Some Cases.key_a)
    by (vm_compute; reflexivity).
  split; [exact Hf|]. split; [exact Hp|]. split; [exact Hl|].
  exact (load_first_private_key_first Cases.strip Cases.from_key Cases.files "add.txt"
           Cases.comment_lines Cases.line_a Cases.more_lines Cases.key_a Hf Hp Hl).
Defined.

(** X3, witness: the same file holds two keys that are accepted. *)
Lemma load_first_is_head_of_all_witness :
  load_first_private_key Cases.strip Cases.from_key Cases.files "add.txt"
    = inr Cases.key_a ∧
  load_all_accounts Cases.strip Cases.from_key Cases.files "add.txt"
    = inr [Cases.key_a; "0x" +:+ Cases.key_b] ∧
  ∃ others, [Cases.key_a; "0x" +:+ Cases.key_b] = Cases.key_a :: others ∧ others ≠ [].
Proof.
  assert (H1 : load_first_private_key Cases.strip Cases.from_key Cases.files "add.txt"
               = inr Cases.key_a) by (vm_compute; reflexivity).
  assert (H2 : load_all_accounts Cases.strip Cases.from_key Cases.files "add.txt"
               = inr [Cases.key_a; "0x" +:+ Cases.key_b]) by (vm_compute; reflexivity).
  split; [exact H1|]. split; [exact H2|].
  exact (load_first_is_head_of_all Cases.strip Cases.from_key Cases.files "add.txt"
           Cases.key_a [Cases.key_a; "0x" +:+ Cases.key_b] H1 H2).
Defined.

(** X4, witness: the receipt is there, the timeout is 0. *)
Lemma wait_receipt_zero_timeout_witness :
  0 <= 0 ∧ (0 < 1)%nat ∧
  result Cases.no_time_receipt = Ok None ∧
  receipt_polls (trace Cases.no_time_receipt) = [].
Proof.
  assert (Ht : 0 <= 0) by lia. assert (Hf : (0 < 1)%nat) by lia.
  pose proof (wait_receipt_zero_timeout 1 0 "0xh" 0
                (Mock.start (Mock.with_receipts [inr (Some (Receipt 1 21000))] Mock.quiet))
                Mock.clock mock_clock_laws Ht Hf) as H.
  cbv zeta in H.
  change (wait_receipt_with_progress 1 0 "0xh" 0 _) with Cases.no_time_receipt in H.
  destruct H as (R & P & _).
  split; [exact Ht|]. split; [exact Hf|]. split; [exact R|exact P].
Defined.

(** X5, witness: the credit is there, the timeout is 0. *)
Lemma wait_for_l2_credit_zero_timeout_witness :
  0 <= 0 ∧ (0 < 1)%nat ∧
  result Cases.no_time_credit = Ok false ∧
  balance_polls (trace Cases.no_time_credit) = [].
Proof.
  assert (Ht : 0 <= 0) by lia. assert (Hf : (0 < 1)%nat) by lia.
  pose proof (wait_for_l2_credit_zero_timeout 1 1 100 150 0
                (Mock.start (Mock.with_balances [inr 300] Mock.quiet))
                Mock.clock mock_clock_laws Ht Hf) as H.
  cbv zeta in H.
  change (wait_for_l2_credit 1 1 100 150 0 _) with Cases.no_time_credit in H.
  destruct H as (R & P & _).
  split; [exact Ht|]. split; [exact Hf|]. split; [exact R|exact P].
Defined.

(** X6, witness: the countdown on the scripted node, whose clock obeys the
    clock laws. *)
Lemma countdown_24_hours_waits_witness :
  result (countdown_24_hours (Mock.start Mock.quiet)) = Ok tt ∧
  (Mock.clock (world (Mock.start Mock.quiet)) + inject_Z 86400
   <= Mock.clock (world (final (countdown_24_hours (Mock.start Mock.quiet)))))%Q.
Proof.
  pose proof (countdown_24_hours_waits (Mock.start Mock.quiet) Mock.clock mock_clock_laws)
    as H.
  cbv zeta in H. destruct H as (R & _ & _ & C & _).
  split; [exact R|exact C].
Defined.

(** X7, witness: a transfer from Sepolia with its gas set to 21000. *)
Lemma build_and_send_keeps_fields_witness :
  chains (Mock.start (Mock.with_sends [inr "0xh1"] Mock.quiet)) !! 0%nat
    = Some Mock.sepolia ∧
  Cases.transfer_with_gas !! "gas" = Some (VInt 21000) ∧
  (∀ tx' r,
     (tx', r) ∈ signings (trace (build_and_send 10 0 Cases.transfer_with_gas true
                                   (Mock.start (Mock.with_sends [inr "0xh1"] Mock.quiet)))) →
     tx' !! "gas" = Some (VInt 21000)) ∧
  Forall no_estimate (trace (build_and_send 10 0 Cases.transfer_with_gas true
                               (Mock.start (Mock.with_sends [inr "0xh1"] Mock.quiet)))).
Proof.
  assert (Hc : chains (Mock.start (Mock.with_sends [inr "0xh1"] Mock.quiet)) !! 0%nat
               = Some Mock.sepolia) by (vm_compute; reflexivity).
  assert (Hg : Cases.transfer_with_gas !! "gas" = Some (VInt 21000))
    by (vm_compute; reflexivity).
  pose proof (build_and_send_keeps_fields 10 0 Mock.sepolia Cases.transfer_with_gas true
                (Mock.start (Mock.with_sends [inr "0xh1"] Mock.quiet))
                "gas" (VInt 21000) Hc Hg) as H.
  cbv zeta in H. destruct H as (_ & S & E).
  split; [exact Hc|]. split; [exact Hg|].
  split; [apply S; discriminate|exact (E eq_refl)].
Defined.

(** X8, witness: two transfers from Sepolia in a row, both accepted. *)
Lemma build_and_send_consecutive_nonces_witness :
  chains (Mock.start Cases.two_sends) !! 0%nat = Some Mock.sepolia ∧
  Scenario.transfer !! "nonce" = None ∧
  (∀ tx' r,
     (tx', r) ∈ signings (trace (build_and_send 10 0 Scenario.transfer true
                                   (final (build_and_send 10 0 Scenario.transfer true
                                             (Mock.start Cases.two_sends))))) →
     tx' !! "nonce"
     = Some (VInt (nonce Mock.sepolia
                   + Z.of_nat (length (broadcasts
                        (trace (build_and_send 10 0 Scenario.transfer true
                                  (Mock.start Cases.two_sends)))))))).
Proof.
  assert (Hc : chains (Mock.start Cases.two_sends) !! 0%nat = Some Mock.sepolia)
    by (vm_compute; reflexivity).
  assert (Hn : Scenario.transfer !! "nonce" = None) by (vm_compute; reflexivity).
  pose proof (build_and_send_consecutive_nonces 10 0 Mock.sepolia Scenario.transfer
                Scenario.transfer true true (Mock.start Cases.two_sends) Hc Hn Hn) as H.
  cbv zeta in H. destruct H as (_ & S & _).
  split; [exact Hc|]. split; [exact Hn|exact S].
Defined.

(** X9, witness: the node refuses the broadcast for its nonce; auto-retry
    is on, but the refusal is not an underpriced one. *)
Lemma build_and_send_single_attempt_witness :
  chains (Mock.start Mock.quiet) !! 0%nat = Some Mock.sepolia ∧
  sendings (trace Cases.refused) = [("0xf86b", inl Mock.rejected)] ∧
  true && is_underpriced Mock.rejected = false ∧
  result Cases.refused = Exn Mock.rejected ∧
  length (signings (trace Cases.refused)) = 1%nat ∧
  chains (final Cases.refused) = chains (Mock.start Mock.quiet).
Proof.
  assert (Hc : chains (Mock.start Mock.quiet) !! 0%nat = Some Mock.sepolia)
    by (vm_compute; reflexivity).
  assert (Hs : sendings (trace Cases.refused) = [("0xf86b", inl Mock.rejected)])
    by (vm_compute; reflexivity).
  assert (Hu : true && is_underpriced Mock.rejected = false) by (vm_compute; reflexivity).
  pose proof (build_and_send_single_attempt 10 0 Mock.sepolia Scenario.transfer true
                (Mock.start Mock.quiet) "0xf86b" Mock.rejected [] Hc) as H.
  cbv zeta in H.
  change (build_and_send 10 0 Scenario.transfer true (Mock.start Mock.quiet))
    with Cases.refused in H.
  destruct (H Hs Hu) as (_ & R & L & C).
  split; [exact Hc|]. split; [exact Hs|]. split; [exact Hu|].
  split; [exact R|]. split; [exact L|exact C].
Defined.

(** X10, witness: a transfer on GIWA from an account with 1 ether. *)
Lemma build_and_send_giwa_guard_witness :
  chains (Mock.start Cases.giwa_node) !! 1%nat = Some Mock.giwa ∧
  String.prefix "GIWA" (name Mock.giwa) = true ∧
  signings (trace Cases.giwa_transfer)
    = (Cases.giwa_signed.1,
       Cases.giwa_signed.2) :: [] ∧
  ∃ v g f b,
    dict_get "value" (VInt 0) Cases.giwa_signed.1
      = VInt v ∧
    Cases.giwa_signed.1 !! "gas"
      = Some (VInt g) ∧
    Cases.giwa_signed.1 !! "maxFeePerGas"
      = Some (VInt f) ∧
    inr b ∈ balance_polls (trace Cases.giwa_transfer) ∧ v + g * f <= b.
Proof.
  assert (Hc : chains (Mock.start Cases.giwa_node) !! 1%nat = Some Mock.giwa)
    by (vm_compute; reflexivity).
  assert (Hg : String.prefix "GIWA" (name Mock.giwa) = true) by (vm_compute; reflexivity).
  assert (Hs : signings (trace Cases.giwa_transfer)
               = (Cases.giwa_signed.1,
                  Cases.giwa_signed.2) :: [])
    by (vm_compute; reflexivity).
  pose proof (build_and_send_giwa_guard 10 1 Mock.giwa Scenario.transfer false
                (Mock.start Cases.giwa_node)
                Cases.giwa_signed.1
                Cases.giwa_signed.2
                [] Hc Hg) as H.
  cbv zeta in H.
  change (build_and_send 10 1 Scenario.transfer false (Mock.start Cases.giwa_node))
    with Cases.giwa_transfer in H.
  split; [exact Hc|]. split; [exact Hg|]. split; [exact Hs|exact (H Hs)].
Defined.

(** X11, witness: the same transfer on Sepolia. *)
Lemma build_and_send_unguarded_witness :
  chains (Mock.start (Mock.with_sends [inr "0xh1"] Mock.quiet)) !! 0%nat
    = Some Mock.sepolia ∧
  String.prefix "GIWA" (name Mock.sepolia) = false ∧
  balance_polls (trace Cases.sepolia_transfer) = [].
Proof.
  assert (Hc : chains (Mock.start (Mock.with_sends [inr "0xh1"] Mock.quiet)) !! 0%nat
               = Some Mock.sepolia) by (vm_compute; reflexivity).
  assert (Hg : String.prefix "GIWA" (name Mock.sepolia) = false)
    by (vm_compute; reflexivity).
  pose proof (build_and_send_unguarded 10 0 Mock.sepolia Scenario.transfer true
                (Mock.start (Mock.with_sends [inr "0xh1"] Mock.quiet)) Hc Hg) as H.
  cbv zeta in H.
  change (build_and_send 10 0 Scenario.transfer true _) with Cases.sepolia_transfer in H.
  split; [exact Hc|]. split; [exact Hg|exact (proj2 H)].
Defined.

(** X12, witness: the faucet claim is broadcast and its receipt reports
    failure; the call returns all the same. *)
Lemma claim_test_tokens_generic_swallows_witness :
  (polls_within TX_WAIT_TIMEOUT 2 <= 200)%nat ∧
  chains (Mock.start Scenario.faucet_node) !! 0%nat = Some Mock.sepolia ∧
  ∃ r0, head (trace Cases.claim_failed)
        = Some (EvCall (w3 Mock.sepolia) ADDR_L1_ERC20 (BalanceOf (account Mock.sepolia)) r0) ∧
    match r0 with
    | inl e => result Cases.claim_failed = Exn e ∧ length (trace Cases.claim_failed) = 1%nat
    | inr _ => result Cases.claim_failed = Ok tt
    end ∧
    Forall (fun f => f = ClaimFaucet) (builds (trace Cases.claim_failed)) ∧
    (length (broadcasts (trace Cases.claim_failed)) <= 1)%nat ∧
    ∃ ch', chains (final Cases.claim_failed) !! 0%nat = Some ch' ∧
      nonce ch' = nonce Mock.sepolia
                  + Z.of_nat (length (broadcasts (trace Cases.claim_failed))).
Proof.
  assert (Hf : (polls_within TX_WAIT_TIMEOUT 2 <= 200)%nat) by (vm_compute; lia).
  assert (Hc : chains (Mock.start Scenario.faucet_node) !! 0%nat = Some Mock.sepolia)
    by (vm_compute; reflexivity).
  pose proof (claim_test_tokens_generic_swallows 200 0 Mock.sepolia ADDR_L1_ERC20
                "https://sepolia.etherscan.io/tx/" "Sepolia"
                (Mock.start Scenario.faucet_node) Mock.clock mock_clock_laws Hf Hc) as H.
  cbv zeta in H.
  change (claim_test_tokens_generic 200 0 ADDR_L1_ERC20 _ _ _) with Cases.claim_failed in H.
  split; [exact Hf|]. split; [exact Hc|exact H].
Defined.

(** X13, witness: 0.001 ether sent to oneself on GIWA and confirmed. *)
Lemma l2_self_transfer_eth_spec_witness :
  chains (Mock.start Cases.self_node) !! 1%nat = Some Mock.giwa ∧
  0 <= 10 ^ 15 < 2 ^ 256 ∧
  result Cases.self_sent = Ok tt ∧
  (∀ tx' r, (tx', r) ∈ signings (trace Cases.self_sent) →
     tx' !! "from" = Some (VStr (account Mock.giwa)) ∧
     tx' !! "to" = Some (VStr (account Mock.giwa)) ∧
     tx' !! "value" = Some (VInt (10 ^ 15)) ∧
     tx' !! "nonce" = Some (VInt (nonce Mock.giwa))) ∧
  ∃ h rc, broadcasts (trace Cases.self_sent) = [h] ∧
          inr (Some rc) ∈ receipt_polls (trace Cases.self_sent) ∧ status rc = 1.
Proof.
  assert (Hc : chains (Mock.start Cases.self_node) !! 1%nat = Some Mock.giwa)
    by (vm_compute; reflexivity).
  assert (Ha : 0 <= 10 ^ 15 < 2 ^ 256) by (vm_compute; split; [discriminate|reflexivity]).
  assert (R : result Cases.self_sent = Ok tt) by (vm_compute; reflexivity).
  pose proof (l2_self_transfer_eth_spec 200 1 Mock.giwa (10 ^ 15)
                (Mock.start Cases.self_node) Hc Ha) as H.
  cbv zeta in H.
  change (l2_self_transfer_eth 200 1 (10 ^ 15) (Mock.start Cases.self_node))
    with Cases.self_sent in H.
  destruct H as (S & K & _).
  split; [exact Hc|]. split; [exact Ha|]. split; [exact R|]. split; [exact S|exact (K R)].
Defined.

(** X16, witness: 10 tokens asked for, 3 tokens held: 3 are withdrawn. *)
Lemma withdraw_erc20_to_l1_funded_witness :
  chains (Mock.start Cases.funded_node) !! 1%nat = Some Mock.giwa ∧
  head (trace Cases.funded)
    = Some (EvCall (w3 Mock.giwa) Scenario.ADDR_L2_ERC20 (BalanceOf (account Mock.giwa))
              (inr (3 * 10 ^ 18))) ∧
  0 <= 10 ^ 19 < 2 ^ 256 ∧
  3 * 10 ^ 18 ≠ 0 ∧
  builds (trace Cases.funded)
    = [Withdraw Scenario.ADDR_L2_ERC20 (Z.min (10 ^ 19) (3 * 10 ^ 18)) 0 ""] ∧
  ∃ ch', chains (final Cases.funded) !! 1%nat = Some ch' ∧
    nonce ch' = nonce Mock.giwa + Z.of_nat (length (broadcasts (trace Cases.funded))).
Proof.
  assert (Hc : chains (Mock.start Cases.funded_node) !! 1%nat = Some Mock.giwa)
    by (vm_compute; reflexivity).
  assert (Hh : head (trace Cases.funded)
               = Some (EvCall (w3 Mock.giwa) Scenario.ADDR_L2_ERC20
                         (BalanceOf (account Mock.giwa)) (inr (3 * 10 ^ 18))))
    by (vm_compute; reflexivity).
  assert (Ha : 0 <= 10 ^ 19 < 2 ^ 256) by (vm_compute; split; [discriminate|reflexivity]).
  assert (Hb : 3 * 10 ^ 18 ≠ 0) by (vm_compute; discriminate).
  pose proof (withdraw_erc20_to_l1_funded 200 1 0 Mock.giwa Scenario.ADDR_L2_ERC20
                (10 ^ 19) (Mock.start Cases.funded_node) (3 * 10 ^ 18) Hc Ha) as H.
  cbv zeta in H.
  change (withdraw_erc20_to_l1 200 1 0 Scenario.ADDR_L2_ERC20 (10 ^ 19)
            (Mock.start Cases.funded_node)) with Cases.funded in H.
  destruct (H Hh Hb) as (B & _ & _ & _ & N).
  split; [exact Hc|]. split; [exact Hh|]. split; [exact Ha|]. split; [exact Hb|].
  split; [exact B|exact N].
Defined.

(** X17, witness: no token on GIWA; the recovery deposit is broadcast from
    Sepolia and confirmed, and the two [Chain] objects of the caller are as
    they were. *)
Lemma withdraw_erc20_to_l1_empty_witness :
  chains (Mock.start Cases.recovered_node) !! 1%nat = Some Mock.giwa ∧
  head (trace Cases.recovered)
    = Some (EvCall (w3 Mock.giwa) Scenario.ADDR_L2_ERC20 (BalanceOf (account Mock.giwa))
              (inr 0)) ∧
  broadcasts (trace Cases.recovered) = ["0xd1"] ∧
  Forall (deposit_call ADDR_L1_ERC20 Scenario.ADDR_L2_ERC20 (10 ^ 19))
    (builds (trace Cases.recovered)) ∧
  ∀ c, (c < next_chain (Mock.start Cases.recovered_node))%nat →
    chains (final Cases.recovered) !! c = chains (Mock.start Cases.recovered_node) !! c.
Proof.
  assert (Hc : chains (Mock.start Cases.recovered_node) !! 1%nat = Some Mock.giwa)
    by (vm_compute; reflexivity).
  assert (Hh : head (trace Cases.recovered)
               = Some (EvCall (w3 Mock.giwa) Scenario.ADDR_L2_ERC20
                         (BalanceOf (account Mock.giwa)) (inr 0)))
    by (vm_compute; reflexivity).
  assert (Hs : broadcasts (trace Cases.recovered) = ["0xd1"]) by (vm_compute; reflexivity).
  pose proof (withdraw_erc20_to_l1_empty 200 1 0 Mock.giwa Scenario.ADDR_L2_ERC20
                (10 ^ 19) (Mock.start Cases.recovered_node) Hc) as H.
  cbv zeta in H.
  change (withdraw_erc20_to_l1 200 1 0 Scenario.ADDR_L2_ERC20 (10 ^ 19)
            (Mock.start Cases.recovered_node)) with Cases.recovered in H.
  destruct (H Hh) as (B & _ & K).
  split; [exact Hc|]. split; [exact Hh|]. split; [exact Hs|]. split; [exact B|exact K].
Defined.
